(** * Neural Network Visual Playground: a shallow embedding

    The notebook [visual_playground.ipynb] is a thin pipeline over NumPy,
    scikit-learn, Keras, Matplotlib and ipywidgets.  Its own functions
    ([create_model], [plot_decision_boundary], [interactive_nn] and the
    widget wiring) are embedded below together with the library operations
    they call.

    - Numbers are IEEE 754 binary64 values, as NumPy and Python have them,
      taken from the Standard Library's executable specification of
      floating-point arithmetic; [np.arange], the reductions and the
      comparison with one half are computed as NumPy computes them.
    - A Python exception is an error result; the kernel's globals, the
      figures, the output area and the controls are an explicit state.
    - What the libraries draw at random or optimise numerically (the
      generators, the initial weights, an epoch of training, the forward
      pass) is a parameter of the development. *)

From Stdlib Require Import ZArith Lia List Bool.
From Stdlib Require Import Floats.SpecFloat.
From stdpp Require Import gmap strings list.

Local Open Scope Z_scope.

(** ** Binary64 arithmetic

    A double is a [spec_float] in canonical form; the operations below keep
    canonical values canonical, and on them [SFcompare] is the order of
    doubles (with [+0 = -0] and NaN unordered). *)

Module Binary64.

Definition prec : Z := 53.
Definition emax : Z := 1024.

Abbreviation float := spec_float.

Definition add : float -> float -> float := SFadd prec emax.
Definition sub : float -> float -> float := SFsub prec emax.
Definition mul : float -> float -> float := SFmul prec emax.
Definition div : float -> float -> float := SFdiv prec emax.

Definition ltb : float -> float -> bool := SFltb.
Definition leb : float -> float -> bool := SFleb.
Definition eqb : float -> float -> bool := SFeqb.
(** Python's [a > b] and [a >= b]. *)
Definition gtb (a b : float) : bool := SFltb b a.
Definition geb (a b : float) : bool := SFleb b a.

Definition is_nan (x : float) : bool :=
  match x with S754_nan => true | _ => false end.

(** A finite double is stored with its canonical mantissa and exponent. *)
Definition valid (x : float) : bool := valid_binary prec emax x.

(** The integer [n] as a double (correctly rounded). *)
Definition of_Z (n : Z) : float := binary_normalize prec emax n 0 false.

(** The decimal literal [n / d]: both are exact doubles in every use below
    and the division is correctly rounded, so this is the double that
    Python reads from the literal. *)
Definition dec (n : Z) (d : positive) : float := div (of_Z n) (of_Z (Zpos d)).

(** [npy_ceil] followed by the conversion to an integer; [None] on NaN and
    on the infinities. *)
Definition ceil (x : float) : option Z :=
  match x with
  | S754_zero _ => Some 0
  | S754_finite s m e =>
      let v := if s then Zneg m else Zpos m in
      Some (if 0 <=? e then v * 2 ^ e else - ((- v) / 2 ^ (- e)))
  | S754_infinity _ | S754_nan => None
  end.

#[global] Arguments add : simpl never.
#[global] Arguments sub : simpl never.
#[global] Arguments mul : simpl never.
#[global] Arguments div : simpl never.
#[global] Arguments of_Z : simpl never.
#[global] Arguments dec : simpl never.

End Binary64.

Import Binary64.

(** ** Python exceptions and results *)

Inductive PyError : Type :=
  | ValueError (msg : string)
  | OverflowError (msg : string)
  | TypeError (msg : string)
  | RuntimeError (msg : string)
  | UnboundLocalError (msg : string)
  | IndexError (msg : string)
  | KeyError (key : string).

Definition Result (A : Type) : Type := PyError + A.

Definition ok {A} (a : A) : Result A := inr a.
Definition raise {A} (e : PyError) : Result A := inl e.

#[export] Instance result_ret : MRet Result := fun A a => inr a.
#[export] Instance result_bind : MBind Result := fun A B k r =>
  match r with
  | inl e => inl e
  | inr a => k a
  end.

(** ** NumPy *)

Module Numpy.

Definition intp_max : Z := 2 ^ 63.

(** [_arange_safe_ceil_to_intp]. *)
Definition arange_safe_ceil_to_intp (value : float) : Result Z :=
  match ceil value with
  | None =>
      if is_nan value
      then raise (ValueError "arange: cannot compute length")
      else raise (OverflowError "arange: overflow while computing length")
  | Some n =>
      if (- intp_max <=? n) && (n <=? intp_max)
      then ok n
      else raise (OverflowError "arange: overflow while computing length")
  end.

(** [DOUBLE_fill]: entry [i] of the buffer is [start + i * delta], for
    [i] from [from] and [count] entries on. *)
Fixpoint fill (start delta : float) (from : Z) (count : nat) : list float :=
  match count with
  | O => []
  | S c => add start (mul (of_Z from) delta) :: fill start delta (from + 1) c
  end.

(** [PyArray_ArangeObj] on the result of the length computation: an
    overflow is reported as a [ValueError], any other error is passed on. *)
Definition arange_length (r : Result Z) : Result Z :=
  match r with
  | inl (OverflowError _) => raise (ValueError "Maximum allowed size exceeded")
  | _ => r
  end.

(** [np.arange(start, stop, step)] on doubles: the length is the ceiling
    of the rounded quotient, the first two entries are [start] and
    [start + step], and the rest is filled from their difference.  The
    allocation of the array is taken to succeed. *)
Definition arange (start stop step : float) : Result (list float) :=
  len ← arange_length
          (arange_safe_ceil_to_intp (div (sub stop start) step));
  if len <=? 0 then ok []
   else if len =? 1 then ok [start]
   else
     let next := add start step in
     let delta := sub next start in
     ok (start :: next :: fill start delta 2 (Z.to_nat (len - 2))).

(** [np.minimum] and [np.maximum] on two doubles: the left one only when
    it is strictly smaller (larger) or a NaN, so that of two equal values,
    the two zeros among them, the right one is returned, and a NaN on the
    right is taken because no comparison holds. *)
Definition minimum (a b : float) : float :=
  if ltb a b || is_nan a then a else b.
Definition maximum (a b : float) : float :=
  if gtb a b || is_nan a then a else b.

(** [a.min()] and [a.max()]: reductions with no identity. *)
Definition amin (a : list float) : Result float :=
  match a with
  | [] => raise (ValueError
      "zero-size array to reduction operation minimum which has no identity")
  | x :: r => ok (fold_left minimum r x)
  end.
Definition amax (a : list float) : Result float :=
  match a with
  | [] => raise (ValueError
      "zero-size array to reduction operation maximum which has no identity")
  | x :: r => ok (fold_left maximum r x)
  end.

(** A two-dimensional array is the list of its rows; [shape] of a
    rectangular one. *)
Definition shape {A} (a : list (list A)) : nat * nat :=
  (length a, match a with [] => O | r :: _ => length r end).

(** [np.meshgrid(xs, ys)]: both results have one row per entry of [ys]
    and one column per entry of [xs]. *)
Definition meshgrid (xs ys : list float)
  : list (list float) * list (list float) :=
  (map (fun _ => xs) ys, map (fun y => map (fun _ => y) xs) ys).

(** [a.ravel()], row-major. *)
Definition ravel {A} (a : list (list A)) : list A := concat a.

(** [np.c_[a, b]] on two one-dimensional arrays: the rows [(a_i, b_i)]. *)
Definition c_ (a b : list float) : Result (list (float * float)) :=
  if Nat.eqb (length a) (length b) then ok (combine a b)
  else raise (ValueError
    "all the input array dimensions except for the concatenation axis must match exactly").

(** [(Z > t).astype(int)], elementwise. *)
Definition gt_astype_int (t : float) (a : list float) : list Z :=
  map (fun z => if gtb z t then 1 else 0) a.

Fixpoint rows_of {A} (rows cols : nat) (a : list A) : list (list A) :=
  match rows with
  | O => []
  | S r => firstn cols a :: rows_of r cols (skipn cols a)
  end.

(** [a.reshape(shape)] of a flat array. *)
Definition reshape {A} (a : list A) (shp : nat * nat) : Result (list (list A)) :=
  if Nat.eqb (length a) (fst shp * snd shp)
  then ok (rows_of (fst shp) (snd shp) a)
  else raise (ValueError "cannot reshape array into the requested shape").

End Numpy.

(** ** Keras: layers, optimizer, model description *)

Module Keras.

(** The activation names that [keras.activations.get] resolves in Keras 3. *)
Definition activation_names : list string :=
  ["celu"; "elu"; "exponential"; "gelu"; "glu"; "hard_shrink";
   "hard_sigmoid"; "hard_silu"; "hard_swish"; "hard_tanh"; "leaky_relu";
   "linear"; "log_sigmoid"; "log_softmax"; "mish"; "relu"; "relu6"; "selu";
   "sigmoid"; "silu"; "soft_shrink"; "softmax"; "softplus"; "softsign";
   "sparse_plus"; "sparse_sigmoid"; "sparsemax"; "squareplus"; "swish";
   "tanh"; "tanh_shrink"; "threshold"]%string.

Record Dense : Type := mkDense {
  units : Z;
  activation : string;
  input_shape : option (list Z)
}.

(** [layers.Dense(units, activation=..., input_shape=...)]. *)
Definition layers_Dense (n : Z) (act : string) (shp : option (list Z))
  : Result Dense :=
  if n <=? 0 then
    raise (ValueError "Received an invalid value for units, expected a positive integer")
  else if bool_decide (act ∈ activation_names) then
    ok (mkDense n act shp)
  else raise (ValueError "Unknown activation function").

Record Adam : Type := mkAdam {
  learning_rate : float;
  iterations : Z
}.

(** [optimizers.Adam(learning_rate=lr)]: no step taken yet. *)
Definition optimizers_Adam (lr : float) : Adam := mkAdam lr 0.

Record Compiled : Type := mkCompiled {
  optimizer : Adam;
  loss : string;
  metrics : list string
}.

End Keras.

(** ** Matplotlib figures and the IPython output area *)

Module Pyplot.

Inductive Artist : Type :=
  | Contourf (xx yy : list (list float)) (cls : list (list Z))
             (alpha : float) (cmap : string)
  | Scatter (xs ys : list float) (c : list Z) (edgecolors : string)
  | Line2D (ydata : list float) (color : string).

Record Axes : Type := mkAxes {
  title : string;
  xlabel : string;
  ylabel : string;
  artists : list Artist
}.

Record Figure : Type := mkFigure {
  figsize : Z * Z;
  axes : list Axes
}.

(** A reference to an axes object: the figure number and the position of
    the axes in it. *)
Record AxRef : Type := mkAxRef {
  fig_num : nat;
  ax_index : nat
}.

Definition empty_axes : Axes := mkAxes "" "" "" [].

Definition add_artist (a : Artist) (ax : Axes) : Axes :=
  mkAxes (title ax) (xlabel ax) (ylabel ax) (artists ax ++ [a]).
Definition with_title (s : string) (ax : Axes) : Axes :=
  mkAxes s (xlabel ax) (ylabel ax) (artists ax).
Definition with_xlabel (s : string) (ax : Axes) : Axes :=
  mkAxes (title ax) s (ylabel ax) (artists ax).
Definition with_ylabel (s : string) (ax : Axes) : Axes :=
  mkAxes (title ax) (xlabel ax) s (artists ax).

Definition alter_axes (f : Axes -> Axes) (i : nat) (fig : Figure) : Figure :=
  mkFigure (figsize fig) (alter f i (axes fig)).

End Pyplot.

Module IPython.

Inductive OutputItem : Type :=
  | DisplayFigure (fig : Pyplot.Figure)
  | Traceback (e : PyError).

Record OutputArea : Type := mkOutputArea {
  outputs : list OutputItem;
  clear_pending : bool
}.

(** [clear_output(wait)]: with [wait=True] the area is cleared only when
    the next output arrives. *)
Definition clear (wait : bool) (o : OutputArea) : OutputArea :=
  if wait then mkOutputArea (outputs o) true else mkOutputArea [] false.

Definition append (item : OutputItem) (o : OutputArea) : OutputArea :=
  mkOutputArea (if clear_pending o then [item] else outputs o ++ [item]) false.

End IPython.

(** ** Widgets *)

Module Widgets.

Record IntSlider : Type := mkIntSlider {
  int_value : Z;
  int_min : Z;
  int_max : Z;
  int_step : Z;
  int_description : string
}.

Record Dropdown : Type := mkDropdown {
  options : list string;
  selected : string;
  dd_description : string
}.

(** [log_min] and [log_max] are exponents of [base]. *)
Record FloatLogSlider : Type := mkFloatLogSlider {
  log_value : float;
  base : Z;
  log_min : Z;
  log_max : Z;
  log_description : string
}.

Definition set_int (v : Z) (w : IntSlider) : IntSlider :=
  mkIntSlider v (int_min w) (int_max w) (int_step w) (int_description w).
Definition set_selected (v : string) (w : Dropdown) : Dropdown :=
  mkDropdown (options w) v (dd_description w).
Definition set_log (v : float) (w : FloatLogSlider) : FloatLogSlider :=
  mkFloatLogSlider v (base w) (log_min w) (log_max w) (log_description w).

End Widgets.

(** ** The parts of the libraries that are left abstract

    Pseudo-random generation, weight initialisation, one epoch of
    optimisation and the forward pass of a network are operations of the
    libraries whose numerical content no property below depends on. *)

Class Backend : Type := {
  (** state of a NumPy generator *)
  RandomState : Type;
  (** [np.random.RandomState(seed)] *)
  RandomState_seed : Z -> RandomState;
  (** the body of scikit-learn's [make_moons] once the generator is chosen:
      the sample set and the generator after the draws *)
  moons : nat -> option float -> RandomState ->
          (list (float * float) * list Z) * RandomState;
  (** trainable variables and optimizer slots of a model *)
  Variables : Type;
  (** state of the framework's generator (initialisers, shuffling) *)
  Generator : Type;
  (** the initialisers of a stack of layers *)
  build : list Keras.Dense -> Generator -> Variables * Generator;
  (** one epoch over the data: the new variables, the epoch's loss and
      accuracy *)
  train_epoch : list Keras.Dense -> Keras.Compiled -> Variables ->
                list (float * float) -> list Z -> Generator ->
                (Variables * float * float) * Generator;
  (** the network's output on one input row *)
  forward : list Keras.Dense -> Variables -> float * float -> float
}.

(** ** scikit-learn *)

Module Sklearn.
Section WithBackend.
Context `{Backend}.

(** [make_moons(n_samples, noise=..., random_state=...)].  Through
    [check_random_state], an integer seed makes a fresh generator and
    [None] uses (and advances) NumPy's global one. *)
Definition make_moons (n_samples : nat) (noise : option float)
    (random_state : option Z) (global : RandomState)
  : (list (float * float) * list Z) * RandomState :=
  match random_state with
  | Some seed => (fst (moons n_samples noise (RandomState_seed seed)), global)
  | None => moons n_samples noise global
  end.

End WithBackend.
End Sklearn.

(** ** The state of the notebook's kernel *)

(** The calls the pipeline makes, in the order they start (a log kept for
    stating orderings; the code does not read it). *)
Inductive Call : Type :=
  | Call_create_model (neurons : Z) (activation : string) (lr : float)
  | Call_fit (epochs : Z)
  | Call_plot_decision_boundary
  | Call_show.

Module Nb.
Section WithBackend.
Context `{Backend}.

Record Notebook : Type := mkNotebook {
  (** the module-level sample set *)
  X : list (float * float);
  y : list Z;
  (** NumPy's global generator and the framework's generator *)
  np_random : RandomState;
  keras_random : Generator;
  (** every figure made so far, by number, and the numbers pyplot still
      holds open *)
  figures : list Pyplot.Figure;
  open_figures : list nat;
  (** the output area the callback writes to *)
  out : IPython.OutputArea;
  (** the four controls *)
  neurons_slider : Widgets.IntSlider;
  activation_dropdown : Widgets.Dropdown;
  lr_slider : Widgets.FloatLogSlider;
  epochs_slider : Widgets.IntSlider;
  calls : list Call
}.

Definition set_dataset (d : list (float * float) * list Z) (nb : Notebook) :=
  mkNotebook (fst d) (snd d) (np_random nb) (keras_random nb) (figures nb)
    (open_figures nb) (out nb) (neurons_slider nb) (activation_dropdown nb)
    (lr_slider nb) (epochs_slider nb) (calls nb).
Definition set_keras_random (g : Generator) (nb : Notebook) :=
  mkNotebook (X nb) (y nb) (np_random nb) g (figures nb)
    (open_figures nb) (out nb) (neurons_slider nb) (activation_dropdown nb)
    (lr_slider nb) (epochs_slider nb) (calls nb).
Definition set_figures (fs : list Pyplot.Figure) (nb : Notebook) :=
  mkNotebook (X nb) (y nb) (np_random nb) (keras_random nb) fs
    (open_figures nb) (out nb) (neurons_slider nb) (activation_dropdown nb)
    (lr_slider nb) (epochs_slider nb) (calls nb).
Definition set_open_figures (ns : list nat) (nb : Notebook) :=
  mkNotebook (X nb) (y nb) (np_random nb) (keras_random nb) (figures nb)
    ns (out nb) (neurons_slider nb) (activation_dropdown nb)
    (lr_slider nb) (epochs_slider nb) (calls nb).
Definition set_out (o : IPython.OutputArea) (nb : Notebook) :=
  mkNotebook (X nb) (y nb) (np_random nb) (keras_random nb) (figures nb)
    (open_figures nb) o (neurons_slider nb) (activation_dropdown nb)
    (lr_slider nb) (epochs_slider nb) (calls nb).
Definition set_controls (n : Widgets.IntSlider) (a : Widgets.Dropdown)
    (l : Widgets.FloatLogSlider) (e : Widgets.IntSlider) (nb : Notebook) :=
  mkNotebook (X nb) (y nb) (np_random nb) (keras_random nb) (figures nb)
    (open_figures nb) (out nb) n a l e (calls nb).
Definition set_calls (cs : list Call) (nb : Notebook) :=
  mkNotebook (X nb) (y nb) (np_random nb) (keras_random nb) (figures nb)
    (open_figures nb) (out nb) (neurons_slider nb) (activation_dropdown nb)
    (lr_slider nb) (epochs_slider nb) cs.

(** Computations that read and write the kernel state and may raise; the
    state written before an exception stays written. *)
Definition M (A : Type) : Type := Notebook -> Result A * Notebook.

#[local] Instance M_ret : MRet M := fun A a nb => (inr a, nb).
#[local] Instance M_bind : MBind M := fun A B k m nb =>
  match m nb with
  | (inl e, nb') => (inl e, nb')
  | (inr a, nb') => k a nb'
  end.

Definition lift {A} (r : Result A) : M A := fun nb => (r, nb).
Definition gets {A} (f : Notebook -> A) : M A := fun nb => (inr (f nb), nb).
Definition modify (f : Notebook -> Notebook) : M unit := fun nb => (inr tt, f nb).
Definition log (c : Call) : M unit :=
  modify (fun nb => set_calls (calls nb ++ [c]) nb).

(** The axes object behind a reference. *)
Definition axes_at (ax : Pyplot.AxRef) (nb : Notebook) : option Pyplot.Axes :=
  fig ← figures nb !! Pyplot.fig_num ax;
  Pyplot.axes fig !! Pyplot.ax_index ax.

End WithBackend.
End Nb.

Import Nb(M, lift, gets, modify, log).
#[global] Existing Instance Nb.M_ret.
#[global] Existing Instance Nb.M_bind.

(** ** Keras: the Sequential model *)

Module Models.

(** The [History] callback's dictionary. *)
Abbreviation History := (gmap string (list float)).

Section WithBackend.
Context `{Backend}.

Record Sequential : Type := mkSequential {
  layers : list Keras.Dense;
  variables : Variables;
  compiled : option Keras.Compiled
}.

(** [models.Sequential(layers)]: the first layer carries its input shape,
    so the variables are created on construction, from the framework's
    generator. *)
Definition models_Sequential (ls : list Keras.Dense) : M Sequential :=
  g ← gets Nb.keras_random;
  let '(v, g') := build ls g in
  modify (Nb.set_keras_random g');;
  mret (mkSequential ls v None).

(** [model.compile(optimizer=..., loss=..., metrics=...)]. *)
Definition compile (model : Sequential) (opt : Keras.Adam) (loss : string)
    (metrics : list string) : Sequential :=
  mkSequential (layers model) (variables model)
    (Some (Keras.mkCompiled opt loss metrics)).

(** [history.setdefault(k, []).append(v)]. *)
Definition history_append (k : string) (v : float) (h : History) : History :=
  <[k := default [] (h !! k) ++ [v]]> h.

(** [History.on_epoch_end] with the logs of an epoch: the loss, and the
    accuracy when the model was compiled with that metric.  Other metrics
    are not modelled; the notebook asks for none. *)
Definition on_epoch_end (metrics : list string) (loss acc : float)
    (h : History) : History :=
  let h' := history_append "loss" loss h in
  if bool_decide ("accuracy"%string ∈ metrics)
  then history_append "accuracy" acc h'
  else h'.

(** [history.history[k]]. *)
Definition history_getitem (h : History) (k : string) : Result (list float) :=
  match h !! k with
  | Some l => ok l
  | None => raise (KeyError k)
  end.

(** Batches per epoch at the default batch size 32. *)
Definition steps_per_epoch (n : nat) : Z := (Z.of_nat n + 31) / 32.

Definition step_optimizer (n : Z) (c : Keras.Compiled) : Keras.Compiled :=
  Keras.mkCompiled
    (Keras.mkAdam (Keras.learning_rate (Keras.optimizer c))
                  (Keras.iterations (Keras.optimizer c) + n))
    (Keras.loss c) (Keras.metrics c).

(** The epoch loop of [fit]: no callback stops it early. *)
Fixpoint fit_loop (epochs : nat) (ls : list Keras.Dense) (c : Keras.Compiled)
    (v : Variables) (X : list (float * float)) (y : list Z)
    (h : History) (g : Generator)
  : Keras.Compiled * Variables * History * Generator :=
  match epochs with
  | O => (c, v, h, g)
  | S e =>
      let '(v', loss, acc, g') := train_epoch ls c v X y g in
      fit_loop e ls (step_optimizer (steps_per_epoch (length X)) c) v' X y
               (on_epoch_end (Keras.metrics c) loss acc h) g'
  end.

(** [model.fit(X, y, epochs=epochs, verbose=0)]: the model is updated in
    place; it is returned here next to the history.  On an empty sample
    set no epoch has a batch: nothing is trained and the history has no
    entry. *)
Definition fit (model : Sequential) (X : list (float * float)) (y : list Z)
    (epochs : Z) : M (Sequential * History) :=
  log (Call_fit epochs);;
  c ← lift (match compiled model with
            | Some c => ok c
            | None => raise (RuntimeError
                "You must compile your model before training/testing")
            end);
  (if negb (Nat.eqb (length X) (length y)) then
     lift (raise (ValueError "Data cardinality is ambiguous"))
   else mret tt);;
  if Nat.eqb (length X) 0 then mret (model, ∅)
  else
    g ← gets Nb.keras_random;
    let '(c', v', h, g') :=
      fit_loop (Z.to_nat epochs) (layers model) c (variables model) X y ∅ g in
    modify (Nb.set_keras_random g');;
    mret (mkSequential (layers model) v' (Some c'), h).

(** [model.predict(points, verbose=0)]: one output per input row; with no
    row no batch is run and the outputs are never bound. *)
Definition predict (model : Sequential) (points : list (float * float))
  : Result (list float) :=
  match points with
  | [] => raise (UnboundLocalError
      "cannot access local variable 'batch_outputs' where it is not associated with a value")
  | _ => ok (map (forward (layers model) (variables model)) points)
  end.

End WithBackend.
End Models.

(** ** Matplotlib and IPython operations on the kernel state *)

Module Plt.
Section WithBackend.
Context `{Backend}.

(** [plt.subplots(1, ncols, figsize=...)]: a new open figure with empty
    axes, and the references to them. *)
Definition subplots (ncols : nat) (size : Z * Z) : M (nat * list Pyplot.AxRef) :=
  figs ← gets Nb.figures;
  let num := length figs in
  modify (fun nb =>
    Nb.set_open_figures (Nb.open_figures nb ++ [num])
      (Nb.set_figures
         (figs ++ [Pyplot.mkFigure size (replicate ncols Pyplot.empty_axes)]) nb));;
  mret (num, map (Pyplot.mkAxRef num) (seq 0 ncols)).

(** [axs[i]]. *)
Definition getitem (axs : list Pyplot.AxRef) (i : nat) : Result Pyplot.AxRef :=
  match axs !! i with
  | Some ax => ok ax
  | None => raise (IndexError "index is out of bounds")
  end.

(** An axes method that updates the object behind [ax]. *)
Definition on_axes (ax : Pyplot.AxRef) (f : Pyplot.Axes -> Pyplot.Axes) : M unit :=
  modify (fun nb =>
    Nb.set_figures
      (alter (Pyplot.alter_axes f (Pyplot.ax_index ax)) (Pyplot.fig_num ax)
             (Nb.figures nb)) nb).

Definition set_title (ax : Pyplot.AxRef) (s : string) : M unit :=
  on_axes ax (Pyplot.with_title s).
Definition set_xlabel (ax : Pyplot.AxRef) (s : string) : M unit :=
  on_axes ax (Pyplot.with_xlabel s).
Definition set_ylabel (ax : Pyplot.AxRef) (s : string) : M unit :=
  on_axes ax (Pyplot.with_ylabel s).

(** [ax.contourf(xx, yy, Z, alpha=..., cmap=...)]. *)
Definition contourf (ax : Pyplot.AxRef) (xx yy : list (list float))
    (cls : list (list Z)) (alpha : float) (cmap : string) : M unit :=
  if negb (bool_decide (Numpy.shape xx = Numpy.shape cls)
           && bool_decide (Numpy.shape yy = Numpy.shape cls)) then
    lift (raise (TypeError "Shapes of x, y and z do not match"))
  else if (fst (Numpy.shape cls) <? 2)%nat || (snd (Numpy.shape cls) <? 2)%nat then
    lift (raise (TypeError "Input z must be at least a (2, 2) shaped array"))
  else on_axes ax (Pyplot.add_artist (Pyplot.Contourf xx yy cls alpha cmap)).

(** A sequence of three or four numbers between 0 and 1 is one RGB or
    RGBA colour. *)
Definition single_colour (c : list Z) : bool :=
  (Nat.eqb (length c) 3 || Nat.eqb (length c) 4)
  && forallb (fun v => (0 <=? v) && (v <=? 1)) c.

(** [ax.scatter(xs, ys, c=..., edgecolors=...)]: [c] has one value per
    point, or is one colour for all of them. *)
Definition scatter (ax : Pyplot.AxRef) (xs ys : list float) (c : list Z)
    (edgecolors : string) : M unit :=
  if negb (Nat.eqb (length xs) (length ys)) then
    lift (raise (ValueError "x and y must be the same size"))
  else if Nat.eqb (length c) (length xs) || single_colour c then
    on_axes ax (Pyplot.add_artist (Pyplot.Scatter xs ys c edgecolors))
  else lift (raise (ValueError "c is inconsistent with x and y")).

(** [ax.plot(ydata, color=...)]. *)
Definition plot (ax : Pyplot.AxRef) (ydata : list float) (color : string) : M unit :=
  on_axes ax (Pyplot.add_artist (Pyplot.Line2D ydata color)).

(** [clear_output(wait=...)] and the display of one item. *)
Definition clear_output (wait : bool) : M unit :=
  modify (fun nb => Nb.set_out (IPython.clear wait (Nb.out nb)) nb).
Definition display (item : IPython.OutputItem) : M unit :=
  modify (fun nb => Nb.set_out (IPython.append item (Nb.out nb)) nb).

Fixpoint display_figures (nums : list nat) : M unit :=
  match nums with
  | [] => mret tt
  | n :: r =>
      figs ← gets Nb.figures;
      match figs !! n with
      | Some fig => display (IPython.DisplayFigure fig)
      | None => mret tt
      end;;
      display_figures r
  end.

(** [show_inline_matplotlib_plots()]: the inline backend shows the figures
    that are still open, in order, and closes them.  Inside a [with out:]
    block they go to the output area; outside they go to the output of
    the running cell, which is not part of the state. *)
Definition show_inline_matplotlib_plots (captured : bool) : M unit :=
  nums ← gets Nb.open_figures;
  (if captured then display_figures nums else mret tt);;
  modify (Nb.set_open_figures []).

(** [plt.show()] with the inline backend, called where the output area is
    in force. *)
Definition show : M unit :=
  log Call_show;;
  show_inline_matplotlib_plots true.

End WithBackend.
End Plt.

(** ** The notebook's cells *)

Module Playground.
Section WithBackend.
Context `{Backend}.

Import Models.


(** Cell 3. *)
Definition create_model (neurons : Z) (activation : string) (lr : float)
  : M Sequential :=
  log (Call_create_model neurons activation lr);;
  hidden ← lift (Keras.layers_Dense neurons activation (Some [2]));
  output ← lift (Keras.layers_Dense 1 "sigmoid" None);
  model ← models_Sequential [hidden; output];
  let optimizer := Keras.optimizers_Adam lr in
  mret (compile model optimizer "binary_crossentropy" ["accuracy"%string]).

(** Cell 4. *)
Definition plot_decision_boundary (model : Sequential)
    (X : list (float * float)) (y : list Z) (ax : Pyplot.AxRef) : M unit :=
  log Call_plot_decision_boundary;;
  let h := dec 2 100 in
  x_lo ← lift (Numpy.amin (map fst X));
  x_hi ← lift (Numpy.amax (map fst X));
  let x_min := sub x_lo (dec 5 10) in
  let x_max := add x_hi (dec 5 10) in
  y_lo ← lift (Numpy.amin (map snd X));
  y_hi ← lift (Numpy.amax (map snd X));
  let y_min := sub y_lo (dec 5 10) in
  let y_max := add y_hi (dec 5 10) in
  xs ← lift (Numpy.arange x_min x_max h);
  ys ← lift (Numpy.arange y_min y_max h);
  let '(xx, yy) := Numpy.meshgrid xs ys in
  points ← lift (Numpy.c_ (Numpy.ravel xx) (Numpy.ravel yy));
  probs ← lift (predict model points);
  cls ← lift (Numpy.reshape (Numpy.gt_astype_int (dec 5 10) probs)
                            (Numpy.shape xx));
  Plt.contourf ax xx yy cls (dec 3 10) "coolwarm";;
  Plt.scatter ax (map fst X) (map snd X) y "k";;
  Plt.set_xlabel ax "Feature 1";;
  Plt.set_ylabel ax "Feature 2".

(** Cell 5. *)
Definition interactive_nn (neurons : Z) (activation : string) (lr : float)
    (epochs : Z) : M unit :=
  Plt.clear_output true;;
  model ← create_model neurons activation lr;
  X ← gets Nb.X;
  y ← gets Nb.y;
  '(model, history) ← fit model X y epochs;
  '(fig, axs) ← Plt.subplots 2 (12, 4);
  ax0 ← lift (Plt.getitem axs 0);
  Plt.set_title ax0 "Decision Boundary";;
  plot_decision_boundary model X y ax0;;
  ax1 ← lift (Plt.getitem axs 1);
  losses ← lift (history_getitem history "loss");
  Plt.plot ax1 losses "purple";;
  Plt.set_title ax1 "Loss Curve";;
  Plt.set_xlabel ax1 "Epoch";;
  Plt.set_ylabel ax1 "Loss";;
  Plt.show.

(** The [with out:] block of an [Output] widget: an exception raised
    inside is shown in the area as a traceback and goes no further. *)
Definition capture (body : M unit) : M unit := fun nb =>
  match body nb with
  | (inl e, nb') =>
      (inr tt, Nb.set_out (IPython.append (IPython.Traceback e) (Nb.out nb')) nb')
  | r => r
  end.

(** The observer that [interactive_output] attaches to every control: it
    reads the four current values and runs the function inside the output
    area. *)
Definition observer : M unit :=
  neurons ← gets (fun nb => Widgets.int_value (Nb.neurons_slider nb));
  activation ← gets (fun nb => Widgets.selected (Nb.activation_dropdown nb));
  lr ← gets (fun nb => Widgets.log_value (Nb.lr_slider nb));
  epochs ← gets (fun nb => Widgets.int_value (Nb.epochs_slider nb));
  Plt.show_inline_matplotlib_plots false;;
  capture (Plt.clear_output true;;
           interactive_nn neurons activation lr epochs;;
           Plt.show_inline_matplotlib_plots true).


(** A change of the [value] trait of one control, as the widget reports it
    after its own validation. *)
Inductive Change : Type :=
  | Neurons (v : Z)
  | Activation (v : string)
  | LearningRate (v : float)
  | Epochs (v : Z).

(** Whether the new value differs from the stored one (Python's [!=]). *)
Definition differs (c : Change) (nb : Nb.Notebook) : bool :=
  match c with
  | Neurons v => negb (v =? Widgets.int_value (Nb.neurons_slider nb))
  | Activation v =>
      negb (String.eqb v (Widgets.selected (Nb.activation_dropdown nb)))
  | LearningRate v => negb (eqb v (Widgets.log_value (Nb.lr_slider nb)))
  | Epochs v => negb (v =? Widgets.int_value (Nb.epochs_slider nb))
  end.

Definition store (c : Change) (nb : Nb.Notebook) : Nb.Notebook :=
  let n := Nb.neurons_slider nb in
  let a := Nb.activation_dropdown nb in
  let l := Nb.lr_slider nb in
  let e := Nb.epochs_slider nb in
  match c with
  | Neurons v => Nb.set_controls (Widgets.set_int v n) a l e nb
  | Activation v => Nb.set_controls n (Widgets.set_selected v a) l e nb
  | LearningRate v => Nb.set_controls n a (Widgets.set_log v l) e nb
  | Epochs v => Nb.set_controls n a l (Widgets.set_int v e) nb
  end.

(** The kernel's reaction to a change: the value is stored and, when it
    differs from the old one, the observer runs to completion. *)
Definition on_change (c : Change) : M unit := fun nb =>
  if differs c nb then observer (store c nb) else (inr tt, nb).

End WithBackend.
End Playground.

(** ** Rounding

    The notions in which the rounding of [binary_round] is described:
    the number of bits of a mantissa, the canonical exponent, and how a
    rounded result stands to a reference number [mx * 2 ^ ex]. *)

Module Rounding.

(** The number of binary digits of a positive number. *)
Definition digits (p : positive) : Z := Zpos (digits2_pos p).

(** What [binary_round_aux] returns for the mantissa [m2] and the
    exponent [e2] left by its two shifts. *)
Definition rounded (s : bool) (m2 e2 : Z) : float :=
  match m2 with
  | 0 => S754_zero s
  | Zpos m => if e2 <=? emax - prec then S754_finite s m e2 else S754_infinity s
  | Zneg _ => S754_nan
  end.

(** The exponent [e] is the one binary64 gives the mantissa [m]. *)
Definition canonical (m : positive) (e : Z) : Prop :=
  fexp prec emax (digits m + e) = e.

(** [r] has the sign [s] and a magnitude of at least (at most)
    [mx * 2 ^ ex]. *)
Definition ge_ref (mx : positive) (ex : Z) (s : bool) (r : float) : Prop :=
  match r with
  | S754_infinity s' => s' = s
  | S754_finite s' mr er => s' = s /\ ex <= er /\ Zpos mx <= Zpos mr * 2 ^ (er - ex)
  | _ => False
  end.

Definition le_ref (mx : positive) (ex : Z) (s : bool) (r : float) : Prop :=
  match r with
  | S754_zero s' => s' = s
  | S754_finite s' mr er => s' = s /\ er <= ex /\ Zpos mr <= Zpos mx * 2 ^ (ex - er)
  | _ => False
  end.

Definition signed (s : bool) (r : float) : Prop :=
  match r with
  | S754_zero s' | S754_infinity s' | S754_finite s' _ _ => s' = s
  | S754_nan => False
  end.

(** A zero, a positive number or [+inf]. *)
Definition nonneg (r : float) : Prop :=
  match r with
  | S754_zero _ | S754_infinity false | S754_finite false _ _ => True
  | _ => False
  end.

(** A zero or a finite number in canonical form. *)
Definition regular (x : float) : Prop :=
  match x with
  | S754_zero _ => True
  | S754_finite _ mx ex => canonical mx ex /\ ex <= emax - prec
  | _ => False
  end.

(** [r] is not below the zero or finite number [x]. *)
Definition above (x r : float) : Prop :=
  match x with
  | S754_zero _ => nonneg r
  | S754_finite false mx ex => ge_ref mx ex false r
  | S754_finite true mx ex => signed false r \/ le_ref mx ex true r
  | _ => False
  end.

End Rounding.

Import Rounding.

(** ** Exact values

    Every finite double is an integer multiple of [2 ^ -1074]; the
    bounds on the grid are stated on these integers. *)

Module Exact.

(** The value of a zero or a finite double, in units of [2 ^ -1074]. *)
Definition exact (x : float) : Z :=
  match x with
  | S754_finite s m e => (if s then -1 else 1) * (Zpos m * 2 ^ (e + 1074))
  | _ => 0
  end.

(** A double of moderate size: finite and between -16 and 16. *)
Definition moderate (x : float) : Prop :=
  valid x = true /\ leb (of_Z (-16)) x = true /\ leb x (of_Z 16) = true.

(** [2 ^ -30], in units of [2 ^ -1074]. *)
Definition tolerance : Z := 2 ^ 1044.

(** The coordinates [xs] run from [start] to within one step of [stop],
    0.02 apart, all up to [2 ^ -30]. *)
Definition spans (start stop : float) (xs : list float) : Prop :=
  head xs = Some start /\
  (forall c, In c xs ->
     regular c /\ exact start <= exact c <= exact stop + tolerance) /\
  (exists c, last xs = Some c /\
     exact stop - exact (dec 2 100) - tolerance <= exact c) /\
  (forall (i : nat) c c', xs !! i = Some c -> xs !! S i = Some c' ->
     Z.abs (exact c' - exact c - exact (dec 2 100)) <= tolerance).

End Exact.

Import Exact.

(** * What a run leaves behind

    The values and states in which the properties below are stated: they
    name what the cells compute, and the lemmas of the next part show that
    the cells do compute them. *)

Module Outcome.
Section WithBackend.
Context `{Backend}.

Import Models Playground.

(** [m] is a least (greatest) element of [a] for the order of doubles. *)
Definition least (m : float) (a : list float) : Prop :=
  In m a /\ forall v, In v a -> leb m v = true.

Definition greatest (m : float) (a : list float) : Prop :=
  In m a /\ forall v, In v a -> leb v m = true.

(** The [i]-th entry that [np.arange(start, _, step)] writes. *)
Definition coordinate (start step : float) (i : nat) : float :=
  match i with
  | O => start
  | S O => add start step
  | _ => add start (mul (of_Z (Z.of_nat i)) (sub (add start step) start))
  end.

(** The value [f x y] at every grid point, one row per entry of [ys]. *)
Definition on_grid {A} (f : float -> float -> A) (xs ys : list float)
  : list (list A) :=
  map (fun yv => map (fun xv => f xv yv) xs) ys.

(** The array computations of [plot_decision_boundary], up to the class
    map, as one pure computation. *)
Definition grid_axes (X : list (float * float)) : Result (list float * list float) :=
  x_lo ← Numpy.amin (map fst X);
  x_hi ← Numpy.amax (map fst X);
  y_lo ← Numpy.amin (map snd X);
  y_hi ← Numpy.amax (map snd X);
  xs ← Numpy.arange (sub x_lo (dec 5 10)) (add x_hi (dec 5 10)) (dec 2 100);
  ys ← Numpy.arange (sub y_lo (dec 5 10)) (add y_hi (dec 5 10)) (dec 2 100);
  mret (xs, ys).

(** A sample set on which the renderer can draw: the grid can be built,
    has at least two points on each axis, and every sample has a label. *)
Definition renderable (X : list (float * float)) (y : list Z) : Prop :=
  exists xs ys,
    grid_axes X = inr (xs, ys) /\
    (2 <= length xs)%nat /\ (2 <= length ys)%nat /\
    length y = length X.

(** The class of a grid point: 1 when the model's output is above one half. *)
Definition class_of (model : Sequential) (xv yv : float) : Z :=
  if gtb (forward (layers model) (variables model) (xv, yv)) (dec 5 10)
  then 1 else 0.

(** The two artists and the labels that a successful call leaves on an
    axes object. *)
Definition drawn (model : Sequential) (X : list (float * float)) (y : list Z)
    (xs ys : list float) (a : Pyplot.Axes) : Pyplot.Axes :=
  Pyplot.mkAxes (Pyplot.title a) "Feature 1" "Feature 2"
    (Pyplot.artists a ++
       [Pyplot.Contourf (fst (Numpy.meshgrid xs ys)) (snd (Numpy.meshgrid xs ys))
          (on_grid (class_of model) xs ys) (dec 3 10) "coolwarm";
        Pyplot.Scatter (map fst X) (map snd X) y "k"]).

(** The state that a successful call of [plot_decision_boundary] leaves. *)
Definition after_draw (model : Sequential) (X : list (float * float))
    (y : list Z) (ax : Pyplot.AxRef) (xs ys : list float) (nb : Nb.Notebook)
  : Nb.Notebook :=
  let cf := Pyplot.Contourf (fst (Numpy.meshgrid xs ys))
              (snd (Numpy.meshgrid xs ys)) (on_grid (class_of model) xs ys)
              (dec 3 10) "coolwarm" in
  let sc := Pyplot.Scatter (map fst X) (map snd X) y "k" in
  snd (Plt.set_ylabel ax "Feature 2"
    (snd (Plt.set_xlabel ax "Feature 1"
      (snd (Plt.on_axes ax (Pyplot.add_artist sc)
        (snd (Plt.on_axes ax (Pyplot.add_artist cf)
          (snd (log Call_plot_decision_boundary nb))))))))).

(** The layer stack and the compile settings that [create_model] asks for. *)
Definition architecture (neurons : Z) (activation : string) : list Keras.Dense :=
  [Keras.mkDense neurons activation (Some [2]);
   Keras.mkDense 1 "sigmoid" None].

Definition settings (lr : float) : Keras.Compiled :=
  Keras.mkCompiled (Keras.mkAdam lr 0) "binary_crossentropy" ["accuracy"%string].

Definition created (neurons : Z) (activation : string) (lr : float)
    (nb : Nb.Notebook) : Sequential :=
  mkSequential (architecture neurons activation)
    (fst (build (architecture neurons activation) (Nb.keras_random nb)))
    (Some (settings lr)).

Definition after_create (neurons : Z) (activation : string) (lr : float)
    (nb : Nb.Notebook) : Nb.Notebook :=
  Nb.set_keras_random
    (snd (build (architecture neurons activation) (Nb.keras_random nb)))
    (Nb.set_calls (Nb.calls nb ++ [Call_create_model neurons activation lr]) nb).

(** The losses that the epochs of [fit] report, first epoch first. *)
Fixpoint epoch_losses (epochs : nat) (ls : list Keras.Dense)
    (c : Keras.Compiled) (v : Variables) (X : list (float * float))
    (y : list Z) (g : Generator) : list float :=
  match epochs with
  | O => []
  | S e =>
      let '(v', loss, acc, g') := train_epoch ls c v X y g in
      loss :: epoch_losses e ls
                (step_optimizer (steps_per_epoch (length X)) c) v' X y g'
  end.

Definition fit_history
    (r : Keras.Compiled * Variables * History * Generator) : History :=
  snd (fst r).

Definition fitted (model : Sequential) (c : Keras.Compiled)
    (X : list (float * float)) (y : list Z) (epochs : Z) (nb : Nb.Notebook)
  : Sequential * History :=
  let r := fit_loop (Z.to_nat epochs) (layers model) c (variables model) X y ∅
             (Nb.keras_random nb) in
  (mkSequential (layers model) (snd (fst (fst r))) (Some (fst (fst (fst r)))),
   fit_history r).

Definition after_fit (model : Sequential) (c : Keras.Compiled)
    (X : list (float * float)) (y : list Z) (epochs : Z) (nb : Nb.Notebook)
  : Nb.Notebook :=
  Nb.set_keras_random
    (snd (fit_loop (Z.to_nat epochs) (layers model) c (variables model) X y ∅
            (Nb.keras_random nb)))
    (Nb.set_calls (Nb.calls nb ++ [Call_fit epochs]) nb).

(** What [plt.show()] appends to the output area. *)
Definition show_out (nums : list nat) (figs : list Pyplot.Figure)
    (o : IPython.OutputArea) : IPython.OutputArea :=
  fold_left (fun o n =>
    match figs !! n with
    | Some fig => IPython.append (IPython.DisplayFigure fig) o
    | None => o
    end) nums o.

Definition after_show (nb : Nb.Notebook) : Nb.Notebook :=
  Nb.set_open_figures []
    (Nb.set_out (show_out (Nb.open_figures nb) (Nb.figures nb) (Nb.out nb))
       (Nb.set_calls (Nb.calls nb ++ [Call_show]) nb)).

(** The model that [interactive_nn] trains and the losses it plots. *)
Definition trained (neurons : Z) (activation : string) (lr : float)
    (epochs : Z) (nb : Nb.Notebook) : Sequential * History :=
  let nb1 := snd (Plt.clear_output true nb) in
  fitted (created neurons activation lr nb1) (settings lr) (Nb.X nb) (Nb.y nb)
    epochs (after_create neurons activation lr nb1).

Definition plotted_losses (neurons : Z) (activation : string) (lr : float)
    (epochs : Z) (nb : Nb.Notebook) : list float :=
  epoch_losses (Z.to_nat epochs) (architecture neurons activation)
    (settings lr)
    (fst (build (architecture neurons activation) (Nb.keras_random nb)))
    (Nb.X nb) (Nb.y nb)
    (snd (build (architecture neurons activation) (Nb.keras_random nb))).

(** The state that a successful run of [interactive_nn] leaves. *)
Definition after_interactive (neurons : Z) (activation : string) (lr : float)
    (epochs : Z) (xs ys : list float) (nb : Nb.Notebook) : Nb.Notebook :=
  let nb1 := snd (Plt.clear_output true nb) in
  let nb2 := after_create neurons activation lr nb1 in
  let nb3 := after_fit (created neurons activation lr nb1) (settings lr)
               (Nb.X nb) (Nb.y nb) epochs nb2 in
  let nb4 := snd (Plt.subplots 2 (12, 4) nb3) in
  let ax0 := Pyplot.mkAxRef (length (Nb.figures nb)) 0 in
  let ax1 := Pyplot.mkAxRef (length (Nb.figures nb)) 1 in
  let nb5 := snd (Plt.set_title ax0 "Decision Boundary" nb4) in
  let nb6 := after_draw (fst (trained neurons activation lr epochs nb))
               (Nb.X nb) (Nb.y nb) ax0 xs ys nb5 in
  let nb7 := snd (Plt.plot ax1
               (plotted_losses neurons activation lr epochs nb) "purple" nb6) in
  let nb8 := snd (Plt.set_title ax1 "Loss Curve" nb7) in
  let nb9 := snd (Plt.set_xlabel ax1 "Epoch" nb8) in
  let nb10 := snd (Plt.set_ylabel ax1 "Loss" nb9) in
  after_show nb10.

(** The figure that a successful run of [interactive_nn] makes. *)
Definition pipeline_figure (neurons : Z) (activation : string) (lr : float)
    (epochs : Z) (xs ys : list float) (nb : Nb.Notebook) : Pyplot.Figure :=
  Pyplot.mkFigure (12, 4)
    [drawn (fst (trained neurons activation lr epochs nb)) (Nb.X nb) (Nb.y nb)
       xs ys (Pyplot.mkAxes "Decision Boundary" "" "" []);
     Pyplot.mkAxes "Loss Curve" "Epoch" "Loss"
       [Pyplot.Line2D (plotted_losses neurons activation lr epochs nb) "purple"]].

(** The state in which the observer starts the function: open figures
    flushed, the output area marked for clearing. *)
Definition before_run (nb : Nb.Notebook) : Nb.Notebook :=
  snd (Plt.clear_output true (Nb.set_open_figures [] nb)).


(** The values of the four controls. *)
Definition current (nb : Nb.Notebook) : Z * string * float * Z :=
  (Widgets.int_value (Nb.neurons_slider nb),
   Widgets.selected (Nb.activation_dropdown nb),
   Widgets.log_value (Nb.lr_slider nb),
   Widgets.int_value (Nb.epochs_slider nb)).

(** The parameter tuples that the four controls can deliver. *)
Definition valid_parameters (neurons : Z) (activation : string) (lr : float)
    (epochs : Z) : Prop :=
  2 <= neurons <= 20 /\
  activation ∈ ["relu"; "tanh"; "sigmoid"]%string /\
  leb (dec 1 10000) lr = true /\ leb lr (dec 1 10) = true /\
  50 <= epochs <= 500 /\ epochs mod 50 = 0.

(** The grids and the sample overlays that a figure shows. *)
Definition contour_grids (fig : Pyplot.Figure)
  : list (list (list float) * list (list float)) :=
  flat_map (fun ax =>
    flat_map (fun art =>
      match art with
      | Pyplot.Contourf xx yy _ _ _ => [(xx, yy)]
      | _ => []
      end) (Pyplot.artists ax)) (Pyplot.axes fig).

Definition scatters (fig : Pyplot.Figure)
  : list (list float * list float * list Z) :=
  flat_map (fun ax =>
    flat_map (fun art =>
      match art with
      | Pyplot.Scatter xs ys c _ => [(xs, ys, c)]
      | _ => []
      end) (Pyplot.artists ax)) (Pyplot.axes fig).

End WithBackend.
End Outcome.

Import Outcome.

(** ** Effects of a run *)

Module Effects.
Section WithBackend.
Context `{Backend}.

Import Models Playground.

(** The state after the call [c] was logged. *)
Definition logged (c : Call) (nb : Nb.Notebook) : Nb.Notebook :=
  Nb.set_calls (Nb.calls nb ++ [c]) nb.

(** The four controls. *)
Definition controls (nb : Nb.Notebook)
  : Widgets.IntSlider * Widgets.Dropdown * Widgets.FloatLogSlider
    * Widgets.IntSlider :=
  (Nb.neurons_slider nb, Nb.activation_dropdown nb, Nb.lr_slider nb,
   Nb.epochs_slider nb).

(** Every run of [m], returning or raising, takes a state to one that
    [P] relates to it. *)
Definition keeps {A} (P : Nb.Notebook -> Nb.Notebook -> Prop) (m : M A) : Prop :=
  forall nb r nb', m nb = (r, nb') -> P nb nb'.

(** A run of [m] that raises leaves the output area as it was. *)
Definition quiet {A} (m : M A) : Prop :=
  forall nb e nb', m nb = (inl e, nb') -> Nb.out nb' = Nb.out nb.

Definition same_out (nb nb' : Nb.Notebook) : Prop := Nb.out nb' = Nb.out nb.

(** [a'] is [a] with artists added and labels set: the title and the
    artists of [a] are still there. *)
Definition extends (a a' : Pyplot.Axes) : Prop :=
  Pyplot.title a' = Pyplot.title a /\
  exists more, Pyplot.artists a' = Pyplot.artists a ++ more.

(** Between [nb] and [nb'] nothing differs but the log of calls and the
    axes object behind [ax], which was extended. *)
Definition only_axes (ax : Pyplot.AxRef) (nb nb' : Nb.Notebook) : Prop :=
  Nb.X nb' = Nb.X nb /\ Nb.y nb' = Nb.y nb /\
  Nb.np_random nb' = Nb.np_random nb /\
  Nb.keras_random nb' = Nb.keras_random nb /\
  Nb.open_figures nb' = Nb.open_figures nb /\
  Nb.out nb' = Nb.out nb /\
  controls nb' = controls nb /\
  exists f, (forall a, extends a (f a)) /\
    Nb.figures nb'
    = alter (Pyplot.alter_axes f (Pyplot.ax_index ax)) (Pyplot.fig_num ax)
        (Nb.figures nb).

(** Between [nb] and [nb'] the sample set, NumPy's generator and the
    controls are the same, and the figures of [nb] are still there,
    unchanged, before any new one. *)
Definition kept (nb nb' : Nb.Notebook) : Prop :=
  Nb.X nb' = Nb.X nb /\ Nb.y nb' = Nb.y nb /\
  Nb.np_random nb' = Nb.np_random nb /\
  controls nb' = controls nb /\
  exists more, Nb.figures nb' = Nb.figures nb ++ more /\ (length more <= 1)%nat.

(** The sample set, NumPy's generator, the controls and the figures are
    the same. *)
Definition calm (nb nb' : Nb.Notebook) : Prop :=
  Nb.X nb' = Nb.X nb /\ Nb.y nb' = Nb.y nb /\
  Nb.np_random nb' = Nb.np_random nb /\
  controls nb' = controls nb /\
  Nb.figures nb' = Nb.figures nb /\
  Nb.open_figures nb' = Nb.open_figures nb.

(** The states of a run of [interactive_nn] from [nb] once its figure is
    made: the figures of [nb] followed by the new one. *)
Definition drawing (nb s : Nb.Notebook) : Prop :=
  Nb.X s = Nb.X nb /\ Nb.y s = Nb.y nb /\
  Nb.np_random s = Nb.np_random nb /\
  controls s = controls nb /\
  exists x, Nb.figures s = Nb.figures nb ++ [x].

(** The states of a run from [nb] between the making of its figure and
    [plt.show()]: nothing shown yet, the new figure open. *)
Definition staged (nb s : Nb.Notebook) : Prop :=
  Nb.out s = Nb.out nb /\
  Nb.open_figures s = Nb.open_figures nb ++ [length (Nb.figures nb)] /\
  exists x, Nb.figures s = Nb.figures nb ++ [x].

(** The state in which [interactive_nn] asks the history for its losses:
    the model is trained and the decision boundary is drawn on the first
    axes of a new figure. *)
Definition boundary_drawn (neurons : Z) (activation : string) (lr : float)
    (epochs : Z) (xs ys : list float) (nb : Nb.Notebook) : Nb.Notebook :=
  let nb1 := snd (Plt.clear_output true nb) in
  let nb2 := after_create neurons activation lr nb1 in
  let nb3 := after_fit (created neurons activation lr nb1) (settings lr)
               (Nb.X nb) (Nb.y nb) epochs nb2 in
  let nb4 := snd (Plt.subplots 2 (12, 4) nb3) in
  let ax0 := Pyplot.mkAxRef (length (Nb.figures nb)) 0 in
  let nb5 := snd (Plt.set_title ax0 "Decision Boundary" nb4) in
  after_draw (fst (trained neurons activation lr epochs nb))
    (Nb.X nb) (Nb.y nb) ax0 xs ys nb5.

(** The state in which [plot_decision_boundary] is entered when [fit] had
    no sample to train on: the model is as it was built, and the new
    figure has its title and nothing else. *)
Definition boundary_entered (neurons : Z) (activation : string) (lr : float)
    (epochs : Z) (nb : Nb.Notebook) : Nb.Notebook :=
  let nb1 := snd (Plt.clear_output true nb) in
  let nb2 := logged (Call_fit epochs) (after_create neurons activation lr nb1) in
  let nb3 := snd (Plt.subplots 2 (12, 4) nb2) in
  let ax0 := Pyplot.mkAxRef (length (Nb.figures nb)) 0 in
  logged Call_plot_decision_boundary
    (snd (Plt.set_title ax0 "Decision Boundary" nb3)).

End WithBackend.
End Effects.

Import Effects.

(** * Properties *)

(** ** The order of binary64 values *)

Module Binary64Facts.

Lemma compare_nan_l b : SFcompare S754_nan b = None.
Proof. reflexivity. Qed.

Lemma compare_nan_r a : SFcompare a S754_nan = None.
Proof. destruct a; reflexivity. Qed.

Lemma leb_nan_l b : leb S754_nan b = false.
Proof. reflexivity. Qed.

Lemma leb_nan_r a : leb a S754_nan = false.
Proof. unfold leb, SFleb. now rewrite compare_nan_r. Qed.


Lemma leb_not_nan a b : leb a b = true -> is_nan a = false /\ is_nan b = false.
Proof.
  destruct a, b; simpl; intros Hle; split; try reflexivity;
    try discriminate Hle; now rewrite ?leb_nan_r in Hle.
Qed.

Ltac cases_compare :=
  repeat match goal with
  | |- context [Z.compare ?a ?b] => destruct (Z.compare_spec a b)
  | |- context [Pos.compare_cont Eq ?a ?b] =>
      change (Pos.compare_cont Eq a b) with (Pos.compare a b);
      destruct (Pos.compare_spec a b)
  | H : context [Z.compare ?a ?b] |- _ => destruct (Z.compare_spec a b)
  | H : context [Pos.compare_cont Eq ?a ?b] |- _ =>
      change (Pos.compare_cont Eq a b) with (Pos.compare a b) in H;
      destruct (Pos.compare_spec a b)
  end.

Lemma leb_refl a : is_nan a = false -> leb a a = true.
Proof.
  destruct a as [s|s| |s m e]; try destruct s; simpl; intros Hn;
    try reflexivity; try discriminate Hn;
    unfold leb, SFleb, SFcompare; cases_compare; simpl; try reflexivity; lia.
Qed.

Lemma leb_total a b :
  is_nan a = false -> is_nan b = false -> leb a b = false -> leb b a = true.
Proof.
  destruct a as [sa|sa| |sa ma ea], b as [sb|sb| |sb mb eb];
    try destruct sa; try destruct sb; simpl; intros Ha Hb;
    try discriminate Ha; try discriminate Hb;
    unfold leb, SFleb, SFcompare; cases_compare; simpl;
    intros Hab; try reflexivity; try discriminate Hab; lia.
Qed.

Lemma leb_trans a b c : leb a b = true -> leb b c = true -> leb a c = true.
Proof.
  destruct a as [sa|sa| |sa ma ea], b as [sb|sb| |sb mb eb],
           c as [sc|sc| |sc mc ec];
    try destruct sa; try destruct sb; try destruct sc;
    unfold leb, SFleb, SFcompare; cases_compare; simpl;
    intros Hab Hbc; try reflexivity; try discriminate Hab;
    try discriminate Hbc; lia.
Qed.

Lemma ltb_leb a b :
  ltb a b = true ->
  leb a b = true /\ is_nan a = false /\ is_nan b = false.
Proof.
  destruct a as [sa|sa| |sa ma ea], b as [sb|sb| |sb mb eb];
    try destruct sa; try destruct sb;
    unfold ltb, leb, SFltb, SFleb, SFcompare; simpl; cases_compare; simpl;
    intros Hab; try discriminate Hab; repeat split.
Qed.

Lemma ltb_false_leb a b :
  is_nan a = false -> is_nan b = false -> ltb a b = false -> leb b a = true.
Proof.
  destruct a as [sa|sa| |sa ma ea], b as [sb|sb| |sb mb eb];
    try destruct sa; try destruct sb; simpl; intros Ha Hb;
    try discriminate Ha; try discriminate Hb;
    unfold ltb, leb, SFltb, SFleb, SFcompare; cases_compare; simpl;
    intros Hab; try reflexivity; try discriminate Hab; lia.
Qed.

(** [a > b] is exactly [b < a]; it excludes equality. *)
Lemma gtb_irrefl_eq a b : eqb a b = true -> gtb a b = false.
Proof.
  unfold eqb, gtb, SFeqb, SFltb.
  destruct a as [sa|sa| |sa ma ea], b as [sb|sb| |sb mb eb];
    try destruct sa; try destruct sb; simpl; try discriminate;
    try reflexivity; cases_compare; simpl; try discriminate;
    try reflexivity; lia.
Qed.

End Binary64Facts.

(** ** NumPy: reductions, ranges and grids *)

Module NumpyFacts.
Import Binary64Facts.

Lemma minimum_not_nan a b :
  is_nan (Numpy.minimum a b) = false ->
  is_nan a = false /\ is_nan b = false /\
  (Numpy.minimum a b = a \/ Numpy.minimum a b = b) /\
  leb (Numpy.minimum a b) a = true /\ leb (Numpy.minimum a b) b = true.
Proof.
  unfold Numpy.minimum. destruct (ltb a b) eqn:Hab; simpl.
  - intros Ha. destruct (ltb_leb _ _ Hab) as (Hle & _ & Hb).
    repeat split; auto using leb_refl.
  - destruct (is_nan a) eqn:Ha.
    + intros Hn. rewrite Hn in Ha. discriminate Ha.
    + intros Hb. repeat split; auto using leb_refl, ltb_false_leb.
Qed.

Lemma maximum_not_nan a b :
  is_nan (Numpy.maximum a b) = false ->
  is_nan a = false /\ is_nan b = false /\
  (Numpy.maximum a b = a \/ Numpy.maximum a b = b) /\
  leb a (Numpy.maximum a b) = true /\ leb b (Numpy.maximum a b) = true.
Proof.
  unfold Numpy.maximum, gtb. fold (ltb b a). destruct (ltb b a) eqn:Hba; simpl.
  - intros Ha. destruct (ltb_leb _ _ Hba) as (Hle & Hb & _).
    repeat split; auto using leb_refl.
  - destruct (is_nan a) eqn:Ha.
    + intros Hn. rewrite Hn in Ha. discriminate Ha.
    + intros Hb. repeat split; auto using leb_refl, ltb_false_leb.
Qed.

Lemma fold_minimum_spec r : forall x,
  is_nan (fold_left Numpy.minimum r x) = false ->
  least (fold_left Numpy.minimum r x) (x :: r).
Proof.
  induction r as [|a r IH]; simpl; intros x Hn.
  - split; [now left|]. intros v [<-|[]]. now apply leb_refl.
  - destruct (IH _ Hn) as [Hin Hle].
    assert (Hx : is_nan (Numpy.minimum x a) = false).
    { destruct (leb_not_nan _ _ (Hle _ (or_introl eq_refl))) as [_ Hx].
      exact Hx. }
    destruct (minimum_not_nan _ _ Hx) as (_ & _ & Hsel & Hmx & Hma).
    pose proof (Hle _ (or_introl eq_refl)) as Hm.
    split.
    + destruct Hin as [Heq|Hin].
      * rewrite <- Heq. destruct Hsel as [->| ->]; simpl; auto.
      * simpl; auto.
    + intros v [<-|[<-|Hv]].
      * eapply leb_trans; eauto.
      * eapply leb_trans; eauto.
      * apply Hle. now right.
Qed.

Lemma fold_maximum_spec r : forall x,
  is_nan (fold_left Numpy.maximum r x) = false ->
  greatest (fold_left Numpy.maximum r x) (x :: r).
Proof.
  induction r as [|a r IH]; simpl; intros x Hn.
  - split; [now left|]. intros v [<-|[]]. now apply leb_refl.
  - destruct (IH _ Hn) as [Hin Hle].
    assert (Hx : is_nan (Numpy.maximum x a) = false).
    { destruct (leb_not_nan _ _ (Hle _ (or_introl eq_refl))) as [Hx _].
      exact Hx. }
    destruct (maximum_not_nan _ _ Hx) as (_ & _ & Hsel & Hmx & Hma).
    pose proof (Hle _ (or_introl eq_refl)) as Hm.
    split.
    + destruct Hin as [Heq|Hin].
      * rewrite <- Heq. destruct Hsel as [->| ->]; simpl; auto.
      * simpl; auto.
    + intros v [<-|[<-|Hv]].
      * eapply leb_trans; eauto.
      * eapply leb_trans; eauto.
      * apply Hle. now right.
Qed.

(** A reduction that returns a number returns a least (greatest) element. *)
Lemma amin_least a m :
  Numpy.amin a = inr m -> is_nan m = false -> least m a.
Proof.
  destruct a as [|x r]; simpl; [discriminate|].
  intros [= <-]. apply fold_minimum_spec.
Qed.

Lemma amax_greatest a m :
  Numpy.amax a = inr m -> is_nan m = false -> greatest m a.
Proof.
  destruct a as [|x r]; simpl; [discriminate|].
  intros [= <-]. apply fold_maximum_spec.
Qed.

Lemma amin_ok a : a <> [] -> exists m, Numpy.amin a = inr m.
Proof. destruct a; [congruence|]. simpl. eauto. Qed.

Lemma amax_ok a : a <> [] -> exists m, Numpy.amax a = inr m.
Proof. destruct a; [congruence|]. simpl. eauto. Qed.

End NumpyFacts.

Module ArangeFacts.

Lemma fill_length start delta count : forall from,
  length (Numpy.fill start delta from count) = count.
Proof. induction count as [|c IH]; simpl; intros; [reflexivity|]. now rewrite IH. Qed.

Lemma fill_lookup start delta count : forall from (i : nat),
  (i < count)%nat ->
  Numpy.fill start delta from count !! i
  = Some (add start (mul (of_Z (from + Z.of_nat i)) delta)).
Proof.
  induction count as [|c IH]; intros from i Hi; [lia|].
  destruct i as [|i]; simpl.
  - now rewrite Z.add_0_r.
  - rewrite IH by lia. do 4 f_equal. lia.
Qed.

(** A NaN bound makes the length computation raise. *)
Lemma arange_not_nan start stop step xs :
  Numpy.arange start stop step = inr xs ->
  is_nan start = false /\ is_nan stop = false.
Proof.
  unfold Numpy.arange. intros Hrun.
  destruct start as [s|s| |s m e]; try (split; [reflexivity|]);
    try (destruct stop; [reflexivity|reflexivity| |reflexivity]);
    exfalso; revert Hrun; try destruct stop; try destruct s;
    try match goal with s0 : bool |- _ => destruct s0 end;
    simpl; discriminate.
Qed.

(** What a successful [np.arange] returns: its length is the ceiling of
    the rounded quotient, and entry [i] is [coordinate start step i]. *)
Lemma arange_spec start stop step xs :
  Numpy.arange start stop step = inr xs ->
  exists len : Z,
    Numpy.arange_safe_ceil_to_intp (div (sub stop start) step) = inr len /\
    length xs = Z.to_nat len /\
    forall i : nat, (i < length xs)%nat ->
      xs !! i = Some (coordinate start step i).
Proof.
  unfold Numpy.arange.
  destruct (Numpy.arange_safe_ceil_to_intp (div (sub stop start) step))
    as [err|len]; simpl; [destruct err; discriminate|].
  intros Hrun. exists len. split; [reflexivity|].
  destruct (Z.leb_spec len 0) as [Hle|Hgt].
  { injection Hrun as <-. simpl. split; [lia|]. intros i Hi. lia. }
  destruct (Z.eqb_spec len 1) as [Heq|Hne].
  { injection Hrun as <-. rewrite Heq. simpl. split; [reflexivity|].
    intros [|i] Hi; [reflexivity|lia]. }
  injection Hrun as <-. simpl. rewrite fill_length. split; [lia|].
  intros [|[|i]] Hi; try reflexivity.
  change ((start :: add start step
             :: Numpy.fill start (sub (add start step) start) 2
                  (Z.to_nat (len - 2))) !! S (S i))
    with (Numpy.fill start (sub (add start step) start) 2
            (Z.to_nat (len - 2)) !! i).
  rewrite fill_lookup by lia. unfold coordinate. do 4 f_equal. lia.
Qed.

Lemma arange_head start stop step xs :
  Numpy.arange start stop step = inr xs -> xs <> [] -> head xs = Some start.
Proof.
  intros Hrun Hne. destruct (arange_spec _ _ _ _ Hrun) as (len & _ & _ & Hnth).
  destruct xs as [|x xs]; [congruence|].
  specialize (Hnth O). simpl in Hnth. apply Hnth. lia.
Qed.

End ArangeFacts.

(** ** Rounding is monotone

    [binary_round] shifts the mantissa to the canonical exponent and
    rounds to nearest even; below, its result is compared with a
    canonical reference number, which gives that adding a number that is
    not negative to a double does not make it smaller. *)

Module RoundingFacts.

Lemma digits_pos p : 0 < digits p.
Proof. unfold digits. lia. Qed.

Lemma digits_spec p : 2 ^ (digits p - 1) <= Zpos p < 2 ^ digits p.
Proof.
  unfold digits. induction p as [p IH|p IH|]; cbn [digits2_pos].
  - rewrite Pos2Z.inj_succ.
    replace (Z.succ (Zpos (digits2_pos p)) - 1) with (Z.succ (Zpos (digits2_pos p) - 1)) by lia.
    rewrite !Z.pow_succ_r by lia. lia.
  - rewrite Pos2Z.inj_succ.
    replace (Z.succ (Zpos (digits2_pos p)) - 1) with (Z.succ (Zpos (digits2_pos p) - 1)) by lia.
    rewrite !Z.pow_succ_r by lia. lia.
  - simpl. lia.
Qed.

Lemma digits_le_of_lt p k : 0 <= k -> Zpos p < 2 ^ k -> digits p <= k.
Proof.
  intros Hk Hlt. destruct (Z_le_gt_dec (digits p) k) as [|Hgt]; [assumption|].
  pose proof (digits_spec p) as [Hlo _].
  assert (2 ^ k <= 2 ^ (digits p - 1)) by (apply Z.pow_le_mono_r; lia). lia.
Qed.

Lemma digits_gt_of_le p k : 0 <= k -> 2 ^ k <= Zpos p -> k < digits p.
Proof.
  intros Hk Hle. destruct (Z_lt_le_dec k (digits p)) as [|Hge]; [assumption|].
  pose proof (digits_spec p) as [_ Hhi]. pose proof (digits_pos p).
  assert (2 ^ digits p <= 2 ^ k) by (apply Z.pow_le_mono_r; lia). lia.
Qed.

Lemma digits_mono p q : (p <= q)%positive -> digits p <= digits q.
Proof.
  intros Hle. apply digits_le_of_lt; [pose proof (digits_pos q); lia|].
  pose proof (digits_spec q). lia.
Qed.

(** Digits of a quotient by a power of two. *)
Lemma digits_div p n q :
  0 <= n -> Zpos p / 2 ^ n = Zpos q -> digits q = digits p - n.
Proof.
  intros Hn Hq.
  pose proof (digits_spec p) as [Hlo Hhi]. pose proof (digits_pos p).
  assert (Hpow : 0 < 2 ^ n) by (apply Z.pow_pos_nonneg; lia).
  assert (Hdn : n < digits p).
  { destruct (Z_lt_le_dec n (digits p)); [assumption|].
    assert (2 ^ digits p <= 2 ^ n) by (apply Z.pow_le_mono_r; lia).
    rewrite Z.div_small in Hq by lia. lia. }
  apply Z.le_antisymm.
  - apply digits_le_of_lt; [lia|]. rewrite <- Hq.
    apply Z.div_lt_upper_bound; [lia|].
    rewrite <- Z.pow_add_r by lia. replace (n + (digits p - n)) with (digits p) by lia.
    assumption.
  - assert (digits p - n - 1 < digits q); [|lia].
    apply digits_gt_of_le; [lia|]. rewrite <- Hq.
    apply Z.div_le_lower_bound; [lia|].
    rewrite <- Z.pow_add_r by lia. replace (n + (digits p - n - 1)) with (digits p - 1) by lia.
    assumption.
Qed.

Lemma fexp_eq z : fexp prec emax z = Z.max (z - 53) (-1074).
Proof. reflexivity. Qed.

Lemma pow2_pos n : 0 <= n -> 0 < 2 ^ n.
Proof. intros. apply Z.pow_pos_nonneg; lia. Qed.

(** Shifting right is the floor division by a power of two. *)
Lemma shr_1_m mrs : 0 <= shr_m mrs -> shr_m (shr_1 mrs) = shr_m mrs / 2.
Proof.
  destruct mrs as [m r s]. cbn [shr_m]. intros Hm.
  rewrite <- Z.div2_div.
  destruct m as [|[q|q|]|q]; cbn; try reflexivity; lia.
Qed.

Lemma iter_shr_1_m n : forall mrs, 0 <= shr_m mrs ->
  shr_m (SpecFloat.iter_pos shr_1 n mrs) = shr_m mrs / 2 ^ Zpos n.
Proof.
  induction n as [n IH|n IH|]; intros mrs Hm; cbn [SpecFloat.iter_pos].
  - assert (H1 : 0 <= shr_m (shr_1 mrs)).
    { rewrite shr_1_m by assumption. apply Z.div_pos; lia. }
    assert (H2 : 0 <= shr_m (SpecFloat.iter_pos shr_1 n (shr_1 mrs))).
    { rewrite IH by assumption. apply Z.div_pos; [lia|apply pow2_pos; lia]. }
    rewrite IH, IH, shr_1_m by assumption.
    rewrite !Z.div_div by (try apply pow2_pos; lia).
    f_equal. rewrite (Pos2Z.inj_xI n).
    replace (2 * Zpos n + 1) with (1 + Zpos n + Zpos n) by lia.
    rewrite !Z.pow_add_r by lia. lia.
  - assert (H2 : 0 <= shr_m (SpecFloat.iter_pos shr_1 n mrs)).
    { rewrite IH by assumption. apply Z.div_pos; [lia|apply pow2_pos; lia]. }
    rewrite IH, IH by assumption.
    rewrite !Z.div_div by (try apply pow2_pos; lia).
    f_equal. rewrite (Pos2Z.inj_xO n).
    replace (2 * Zpos n) with (Zpos n + Zpos n) by lia.
    rewrite !Z.pow_add_r by lia. lia.
  - rewrite shr_1_m by assumption. reflexivity.
Qed.

Lemma shr_spec mrs e n : 0 <= shr_m mrs ->
  snd (shr mrs e n) = e + Z.max 0 n /\
  shr_m (fst (shr mrs e n)) = shr_m mrs / 2 ^ Z.max 0 n.
Proof.
  intros Hm. destruct n as [|n|n]; cbn [shr fst snd].
  - split; [lia|]. change (Z.max 0 0) with 0. rewrite Z.pow_0_r, Z.div_1_r. reflexivity.
  - split; [lia|]. rewrite iter_shr_1_m by assumption. reflexivity.
  - split; [lia|]. change (Z.max 0 (Zneg n)) with 0. rewrite Z.pow_0_r, Z.div_1_r. reflexivity.
Qed.

Lemma shr_record_of_loc_m m l : shr_m (shr_record_of_loc m l) = m.
Proof. destruct l as [|[]]; reflexivity. Qed.

Lemma shr_fexp_spec m e l : 0 <= m ->
  snd (shr_fexp prec emax m e l) = Z.max e (fexp prec emax (Zdigits2 m + e)) /\
  shr_m (fst (shr_fexp prec emax m e l))
  = m / 2 ^ (Z.max e (fexp prec emax (Zdigits2 m + e)) - e).
Proof.
  intros Hm. unfold shr_fexp.
  destruct (shr_spec (shr_record_of_loc m l) e (fexp prec emax (Zdigits2 m + e) - e))
    as [H1 H2]; [rewrite shr_record_of_loc_m; assumption|].
  rewrite H1, H2, shr_record_of_loc_m.
  replace (e + Z.max 0 (fexp prec emax (Zdigits2 m + e) - e))
    with (Z.max e (fexp prec emax (Zdigits2 m + e))) by lia.
  split; [reflexivity|]. do 2 f_equal. lia.
Qed.

Lemma round_nearest_even_bounds m l :
  m <= round_nearest_even m l <= m + 1.
Proof.
  destruct l as [|[]]; cbn [round_nearest_even]; try lia.
  destruct (Z.even m); lia.
Qed.

Lemma binary_round_aux_spec s m e l : 0 <= m ->
  exists m1 e1 e2,
    e1 = Z.max e (fexp prec emax (Zdigits2 m + e)) /\
    m / 2 ^ (e1 - e) <= m1 <= m / 2 ^ (e1 - e) + 1 /\
    e2 = Z.max e1 (fexp prec emax (Zdigits2 m1 + e1)) /\
    binary_round_aux prec emax s m e l = rounded s (m1 / 2 ^ (e2 - e1)) e2.
Proof.
  intros Hm. unfold binary_round_aux.
  destruct (shr_fexp_spec m e l Hm) as [He1 Hm1].
  destruct (shr_fexp prec emax m e l) as [mrs1 e1]. cbn [fst snd] in He1, Hm1.
  set (m1 := round_nearest_even (shr_m mrs1) (loc_of_shr_record mrs1)).
  pose proof (round_nearest_even_bounds (shr_m mrs1) (loc_of_shr_record mrs1)) as Hb.
  fold m1 in Hb.
  assert (H0 : 0 <= shr_m mrs1).
  { rewrite Hm1. apply Z.div_pos; [lia|apply pow2_pos; lia]. }
  assert (Hm1' : 0 <= m1) by lia.
  destruct (shr_fexp_spec m1 e1 loc_Exact Hm1') as [He2 Hm2].
  destruct (shr_fexp prec emax m1 e1 loc_Exact) as [mrs2 e2]. cbn [fst snd] in He2, Hm2.
  exists m1, e1, e2. rewrite <- He1 in Hm1. rewrite <- Hm1.
  split; [assumption|]. split; [assumption|]. split; [assumption|].
  rewrite Hm2, <- He2. reflexivity.
Qed.

Lemma div_pow2_ge p n k : 0 <= n -> 0 <= k -> 2 ^ (n + k) <= p -> 2 ^ k <= p / 2 ^ n.
Proof.
  intros Hn Hk Hp. apply Z.div_le_lower_bound; [apply pow2_pos; lia|].
  rewrite <- Z.pow_add_r by lia. assumption.
Qed.

Lemma div_pow2_lt p n k : 0 <= n -> 0 <= k -> p < 2 ^ (n + k) -> p / 2 ^ n < 2 ^ k.
Proof.
  intros Hn Hk Hp. apply Z.div_lt_upper_bound; [apply pow2_pos; lia|].
  rewrite <- Z.pow_add_r by lia. assumption.
Qed.

Lemma digits_unique q d : 2 ^ (d - 1) <= Zpos q < 2 ^ d -> digits q = d.
Proof.
  intros [Hlo Hhi].
  assert (0 < d).
  { destruct (Z_lt_le_dec 0 d); [assumption|].
    destruct (Z.eq_dec d 0) as [->|]; [simpl in Hhi; lia|].
    rewrite Z.pow_neg_r in Hhi by lia. lia. }
  pose proof (digits_le_of_lt q d ltac:(lia) Hhi).
  pose proof (digits_gt_of_le q (d - 1) ltac:(lia) Hlo). lia.
Qed.

Lemma digits_shift p k q : 0 <= k -> Zpos q = Zpos p * 2 ^ k -> digits q = digits p + k.
Proof.
  intros Hk Hq. apply digits_unique. rewrite Hq.
  pose proof (digits_spec p) as [Hlo Hhi]. pose proof (digits_pos p).
  pose proof (pow2_pos k Hk).
  replace (digits p + k - 1) with ((digits p - 1) + k) by lia.
  rewrite !Z.pow_add_r by lia. split.
  - apply Z.mul_le_mono_nonneg_r; lia.
  - apply Z.mul_lt_mono_pos_r; lia.
Qed.

(** A mantissa that was shifted right into a normal exponent has 53 bits. *)
Lemma shifted_normal q e e' :
  e' = fexp prec emax (digits q + e) -> -1074 < e' -> e <= e' ->
  2 ^ 52 <= Zpos q / 2 ^ (e' - e) < 2 ^ 53.
Proof.
  rewrite fexp_eq. intros He' Hsub Hle.
  pose proof (digits_spec q) as [Hlo Hhi].
  assert (Hn : e' - e = digits q - 53) by lia. rewrite Hn. split.
  - apply div_pow2_ge; [lia|lia|].
    replace (digits q - 53 + 52) with (digits q - 1) by lia. assumption.
  - apply div_pow2_lt; [lia|lia|].
    replace (digits q - 53 + 53) with (digits q) by lia. assumption.
Qed.

Lemma canonical_mantissa_canonical m e :
  canonical_mantissa prec emax m e = true <-> canonical m e.
Proof. unfold canonical_mantissa, canonical, digits. apply Z.eqb_eq. Qed.

Lemma canonical_bounds m e :
  canonical m e -> -1074 <= e /\ digits m <= 53 /\ (-1074 < e -> digits m = 53).
Proof. unfold canonical. rewrite fexp_eq. lia. Qed.

Lemma canonical_normal m e : canonical m e -> -1074 < e -> 2 ^ 52 <= Zpos m < 2 ^ 53.
Proof.
  intros Hc He. destruct (canonical_bounds m e Hc) as (_ & _ & Hd).
  pose proof (digits_spec m) as Hs. rewrite (Hd He) in Hs. exact Hs.
Qed.

Lemma canonical_lt m e : canonical m e -> Zpos m < 2 ^ 53.
Proof.
  intros Hc. destruct (canonical_bounds m e Hc) as (_ & Hd & _).
  pose proof (digits_spec m) as [_ Hs]. pose proof (digits_pos m).
  assert (2 ^ digits m <= 2 ^ 53) by (apply Z.pow_le_mono_r; lia). lia.
Qed.

Lemma rounded_signed s m2 e2 : 0 <= m2 -> signed s (rounded s m2 e2).
Proof.
  intros Hm. destruct m2 as [|q|q]; cbn [rounded]; [reflexivity| |lia].
  destruct (e2 <=? emax - prec); reflexivity.
Qed.

Lemma binary_round_aux_signed s m e l : 0 <= m ->
  signed s (binary_round_aux prec emax s m e l).
Proof.
  intros Hm. destruct (binary_round_aux_spec s m e l Hm) as (m1 & e1 & e2 & He1 & Hm1 & He2 & ->).
  apply rounded_signed. apply Z.div_pos.
  - assert (0 <= m / 2 ^ (e1 - e)) by (apply Z.div_pos; [lia|apply pow2_pos; lia]). lia.
  - apply pow2_pos. lia.
Qed.

Lemma round_ge_aux s p e mx ex l :
  canonical mx ex -> e <= fexp prec emax (digits p + e) -> e <= ex ->
  Zpos mx * 2 ^ (ex - e) <= Zpos p ->
  ge_ref mx ex s (binary_round_aux prec emax s (Zpos p) e l).
Proof.
  intros Hc Hal Hle Hv.
  destruct (binary_round_aux_spec s (Zpos p) e l ltac:(lia)) as (m1 & e1 & e2 & He1 & Hm1 & He2 & ->).
  cbn [Zdigits2] in He1. fold (digits p) in He1.
  rewrite Z.max_r in He1 by assumption.
  destruct (canonical_bounds mx ex Hc) as (Hex & Hdx & _).
  pose proof (canonical_lt mx ex Hc) as Hmx.
  pose proof (digits_spec mx) as [Hlo _]. pose proof (digits_pos mx).
  (* the exponent after the first shift *)
  assert (Hd : digits mx + (ex - e) <= digits p).
  { assert (digits mx - 1 + (ex - e) < digits p); [|lia].
    apply digits_gt_of_le; [lia|]. rewrite Z.pow_add_r by lia.
    transitivity (Zpos mx * 2 ^ (ex - e)); [|assumption].
    apply Z.mul_le_mono_nonneg_r; [pose proof (pow2_pos (ex - e)); lia|assumption]. }
  assert (He1x : ex <= e1).
  { rewrite He1. unfold canonical in Hc. rewrite fexp_eq in *. lia. }
  assert (He1e : e <= e1) by lia.
  (* the mantissa after the first shift *)
  assert (Hm' : (e1 = ex /\ Zpos mx <= Zpos p / 2 ^ (e1 - e)) \/
                (ex < e1 /\ 2 ^ 52 <= Zpos p / 2 ^ (e1 - e))).
  { destruct (Z.eq_dec e1 ex) as [Heq|Hne].
    - left. split; [assumption|]. rewrite Heq.
      apply Z.div_le_lower_bound; [apply pow2_pos; lia|]. lia.
    - right. split; [lia|]. apply (shifted_normal p e e1 He1); lia. }
  assert (Hm1pos : 0 < m1) by (destruct Hm' as [[_ ?]|[_ ?]]; lia).
  destruct m1 as [|q1|q1]; try lia.
  cbn [Zdigits2] in He2. fold (digits q1) in He2.
  (* the second shift *)
  assert (Hm2 : (e2 = e1 /\ Zpos q1 / 2 ^ (e2 - e1) = Zpos q1) \/
                (e1 < e2 /\ 2 ^ 52 <= Zpos q1 / 2 ^ (e2 - e1))).
  { destruct (Z.eq_dec e2 e1) as [Heq|Hne].
    - left. split; [assumption|]. rewrite Heq, Z.sub_diag, Z.pow_0_r, Z.div_1_r. reflexivity.
    - right. split; [lia|].
      assert (He2' : e2 = fexp prec emax (digits q1 + e1)) by lia.
      apply (shifted_normal q1 e1 e2 He2'); lia. }
  assert (Hm2pos : 0 < Zpos q1 / 2 ^ (e2 - e1)) by (destruct Hm2 as [[_ ?]|[_ ?]]; lia).
  destruct (Zpos q1 / 2 ^ (e2 - e1)) as [|q2|q2] eqn:Hq2; try lia.
  cbn [rounded]. destruct (e2 <=? emax - prec); cbn [ge_ref]; [|reflexivity].
  split; [reflexivity|]. split; [lia|].
  destruct (Z.eq_dec e2 ex) as [Heq|Hne].
  - rewrite Heq, Z.sub_diag, Z.pow_0_r, Z.mul_1_r.
    destruct Hm2 as [[_ Hq]|[? _]]; [|lia].
    destruct Hm' as [[_ ?]|[? _]]; lia.
  - assert (H52 : 2 ^ 52 <= Zpos q2).
    { destruct Hm2 as [[? Hq]|[_ ?]]; [|lia].
      destruct Hm' as [[? _]|[_ ?]]; lia. }
    assert (2 ^ 1 <= 2 ^ (e2 - ex)) by (apply Z.pow_le_mono_r; lia).
    nia.
Qed.

Lemma round_le_aux s p e mx ex l :
  canonical mx ex -> ex <= emax - prec ->
  e <= fexp prec emax (digits p + e) -> e <= ex ->
  Zpos p < Zpos mx * 2 ^ (ex - e) ->
  le_ref mx ex s (binary_round_aux prec emax s (Zpos p) e l).
Proof.
  intros Hc Hb Hal Hle Hv.
  destruct (binary_round_aux_spec s (Zpos p) e l ltac:(lia)) as (m1 & e1 & e2 & He1 & Hm1 & He2 & ->).
  cbn [Zdigits2] in He1. fold (digits p) in He1.
  rewrite Z.max_r in He1 by assumption.
  destruct (canonical_bounds mx ex Hc) as (Hex & Hdx & _).
  pose proof (digits_spec mx) as [_ Hhi]. pose proof (digits_pos mx).
  pose proof (digits_spec p) as [_ Hphi]. pose proof (digits_pos p).
  assert (Hd : digits p <= digits mx + (ex - e)).
  { apply digits_le_of_lt; [lia|]. rewrite Z.pow_add_r by lia.
    eapply Z.lt_trans; [exact Hv|].
    apply Z.mul_lt_mono_pos_r; [apply pow2_pos; lia|assumption]. }
  assert (He1x : e1 <= ex).
  { rewrite He1. unfold canonical in Hc. rewrite fexp_eq in *. lia. }
  assert (He1e : e <= e1) by lia.
  assert (He1m : -1074 <= e1) by (rewrite He1, fexp_eq; lia).
  assert (Hm'53 : Zpos p / 2 ^ (e1 - e) < 2 ^ 53).
  { apply div_pow2_lt; [lia|lia|].
    assert (2 ^ digits p <= 2 ^ (e1 - e + 53)); [|lia].
    apply Z.pow_le_mono_r; [lia|]. rewrite He1, fexp_eq. lia. }
  assert (Hm'0 : 0 <= Zpos p / 2 ^ (e1 - e)) by (apply Z.div_pos; [lia|apply pow2_pos; lia]).
  destruct m1 as [|q1|q1]; [| |lia].
  { rewrite Z.div_0_l by (pose proof (pow2_pos (e2 - e1)); lia). reflexivity. }
  cbn [Zdigits2] in He2. fold (digits q1) in He2.
  pose proof (digits_pos q1).
  destruct (Z.eq_dec e1 ex) as [Heq|Hne].
  - (* the exponent of the reference: the mantissa is below its mantissa *)
    assert (Hlt : Zpos p / 2 ^ (e1 - e) < Zpos mx).
    { rewrite Heq. apply Z.div_lt_upper_bound; [apply pow2_pos; lia|]. lia. }
    assert (Hq1 : (q1 <= mx)%positive) by lia.
    pose proof (digits_mono q1 mx Hq1) as Hdq.
    assert (He2x : e2 = ex).
    { rewrite He2, Heq. unfold canonical in Hc. rewrite fexp_eq in *. lia. }
    rewrite He2x, Heq, Z.sub_diag, Z.pow_0_r, Z.div_1_r. cbn [rounded].
    replace (ex <=? emax - prec) with true by (symmetry; apply Z.leb_le; assumption).
    cbn [le_ref]. rewrite Z.sub_diag, Z.pow_0_r. split; [reflexivity|]. lia.
  - (* a smaller exponent *)
    assert (Hx : 2 ^ 52 <= Zpos mx < 2 ^ 53) by (apply (canonical_normal mx ex Hc); lia).
    assert (Hq1 : Zpos q1 <= 2 ^ 53) by lia.
    assert (Hdq : digits q1 <= 54) by (apply digits_le_of_lt; lia).
    assert (He2b : e1 <= e2 <= e1 + 1) by (rewrite He2, fexp_eq; lia).
    assert (Hm2 : 0 <= Zpos q1 / 2 ^ (e2 - e1) /\
                  (e2 = e1 + 1 -> Zpos q1 / 2 ^ (e2 - e1) <= 2 ^ 52) /\
                  Zpos q1 / 2 ^ (e2 - e1) <= 2 ^ 53).
    { split; [apply Z.div_pos; [lia|apply pow2_pos; lia]|]. split.
      - intros ->. replace (e1 + 1 - e1) with 1 by lia.
        apply Z.div_le_upper_bound; lia.
      - apply Z.div_le_upper_bound; [apply pow2_pos; lia|].
        pose proof (pow2_pos (e2 - e1)). nia. }
    destruct (Zpos q1 / 2 ^ (e2 - e1)) as [|q2|q2]; [reflexivity| |lia].
    cbn [rounded].
    replace (e2 <=? emax - prec) with true by (symmetry; apply Z.leb_le; lia).
    cbn [le_ref]. split; [reflexivity|]. split; [lia|].
    destruct (Z.eq_dec e2 ex) as [Heq2|Hne2].
    + rewrite Heq2, Z.sub_diag, Z.pow_0_r.
      destruct Hm2 as (_ & Hh & _). specialize (Hh ltac:(lia)). lia.
    + assert (2 ^ 1 <= 2 ^ (ex - e2)) by (apply Z.pow_le_mono_r; lia).
      nia.
Qed.

(** A finite result of a rounding is a canonical binary64 number. *)
Lemma round_canonical_aux s p e l s' mr er :
  e <= fexp prec emax (digits p + e) ->
  binary_round_aux prec emax s (Zpos p) e l = S754_finite s' mr er ->
  canonical mr er /\ er <= emax - prec.
Proof.
  intros Hal.
  destruct (binary_round_aux_spec s (Zpos p) e l ltac:(lia)) as (m1 & e1 & e2 & He1 & Hm1 & He2 & ->).
  cbn [Zdigits2] in He1. fold (digits p) in He1.
  rewrite Z.max_r in He1 by assumption.
  assert (Hm'0 : 0 <= Zpos p / 2 ^ (e1 - e)) by (apply Z.div_pos; [lia|apply pow2_pos; lia]).
  destruct m1 as [|q1|q1]; [| |lia].
  { rewrite Z.div_0_l by (pose proof (pow2_pos (e2 - e1)); lia). discriminate. }
  cbn [Zdigits2] in He2. fold (digits q1) in He2.
  destruct (Zpos q1 / 2 ^ (e2 - e1)) as [|q2|q2] eqn:Hq2; cbn [rounded]; try discriminate.
  destruct (e2 <=? emax - prec) eqn:Hb; [|discriminate].
  intros [= _ <- <-]. split; [|apply Z.leb_le; assumption].
  pose proof (digits_div q1 (e2 - e1) q2 ltac:(lia) Hq2) as Hdd.
  unfold canonical.
  destruct (Z_lt_le_dec e1 (fexp prec emax (digits q1 + e1))) as [Hlt|Hge].
  - replace (digits q2 + e2) with (digits q1 + e1) by lia. lia.
  - assert (He21 : e2 = e1) by lia.
    assert (e1 <= fexp prec emax (digits q1 + e1)); [|rewrite Hdd, He21 in *;
      replace (digits q1 - (e1 - e1) + e1) with (digits q1 + e1) by lia; lia].
    destruct (Zpos p / 2 ^ (e1 - e)) as [|q'|q'] eqn:Hq'; [| |lia].
    + assert (Zpos p < 2 ^ (e1 - e)).
      { destruct (Z_lt_le_dec (Zpos p) (2 ^ (e1 - e))) as [|Hc]; [assumption|].
        assert (1 <= Zpos p / 2 ^ (e1 - e)); [|lia].
        apply Z.div_le_lower_bound; [apply pow2_pos; lia|lia]. }
      pose proof (digits_le_of_lt p (e1 - e) ltac:(lia) ltac:(assumption)).
      rewrite fexp_eq in *. lia.
    + pose proof (digits_div p (e1 - e) q' ltac:(lia) Hq') as Hd'.
      assert (Hmono : digits q' <= digits q1) by (apply digits_mono; lia).
      rewrite fexp_eq in *. lia.
Qed.

Lemma pos_iter_xO m d : Zpos (Pos.iter xO m d) = Zpos m * 2 ^ Zpos d.
Proof.
  induction d as [|d IH] using Pos.peano_ind.
  - cbn [Pos.iter]. lia.
  - rewrite Pos.iter_succ, Pos2Z.inj_xO, IH, Pos2Z.inj_succ, Z.pow_succ_r by lia. lia.
Qed.

Lemma shl_align_spec mx ex e' :
  snd (shl_align mx ex e') = Z.min ex e' /\
  Zpos (fst (shl_align mx ex e')) = Zpos mx * 2 ^ (ex - Z.min ex e').
Proof.
  unfold shl_align. destruct (e' - ex) as [|d|d] eqn:Hd; cbn [fst snd].
  - split; [lia|]. replace (ex - Z.min ex e') with 0 by lia. lia.
  - split; [lia|]. replace (ex - Z.min ex e') with 0 by lia. lia.
  - split; [lia|]. rewrite pos_iter_xO. do 2 f_equal. lia.
Qed.

(** [binary_round] first brings the exponent down to the canonical one. *)
Lemma binary_round_aligned p e :
  exists mz ez,
    shl_align p e (fexp prec emax (digits p + e)) = (mz, ez) /\
    ez <= e /\ Zpos mz = Zpos p * 2 ^ (e - ez) /\
    ez <= fexp prec emax (digits mz + ez) /\
    digits mz + ez = digits p + e.
Proof.
  destruct (shl_align_spec p e (fexp prec emax (digits p + e))) as [He Hm].
  destruct (shl_align p e (fexp prec emax (digits p + e))) as [mz ez].
  cbn [fst snd] in He, Hm. exists mz, ez. rewrite <- He in Hm.
  split; [reflexivity|]. split; [lia|]. split; [assumption|].
  pose proof (digits_shift p (e - ez) mz ltac:(lia) Hm) as Hd.
  rewrite Hd. replace (digits p + (e - ez) + ez) with (digits p + e) by lia. lia.
Qed.

(** In the normal range a rounding does not give a zero. *)
Lemma round_aux_nonzero s p e l :
  e <= fexp prec emax (digits p + e) -> -1074 < fexp prec emax (digits p + e) ->
  forall s', binary_round_aux prec emax s (Zpos p) e l <> S754_zero s'.
Proof.
  intros Hal Hn s'.
  destruct (binary_round_aux_spec s (Zpos p) e l ltac:(lia)) as (m1 & e1 & e2 & He1 & Hm1 & He2 & ->).
  cbn [Zdigits2] in He1. fold (digits p) in He1.
  rewrite Z.max_r in He1 by assumption.
  pose proof (shifted_normal p e e1 He1 ltac:(lia) ltac:(lia)) as [Hm' _].
  destruct m1 as [|q1|q1]; try lia.
  cbn [Zdigits2] in He2. fold (digits q1) in He2.
  assert (Hm2 : 0 < Zpos q1 / 2 ^ (e2 - e1)).
  { destruct (Z.eq_dec e2 e1) as [Heq|Hne].
    - rewrite Heq, Z.sub_diag, Z.pow_0_r, Z.div_1_r. lia.
    - assert (He2' : e2 = fexp prec emax (digits q1 + e1)) by lia.
      pose proof (shifted_normal q1 e1 e2 He2' ltac:(lia) ltac:(lia)). lia. }
  destruct (Zpos q1 / 2 ^ (e2 - e1)) as [|q2|q2]; try lia.
  cbn [rounded]. destruct (e2 <=? emax - prec); discriminate.
Qed.

Lemma pow2_split a b c : c <= b -> b <= a -> 2 ^ (a - c) = 2 ^ (a - b) * 2 ^ (b - c).
Proof. intros. rewrite <- Z.pow_add_r by lia. f_equal. lia. Qed.

Lemma round_ge s p e mx ex :
  canonical mx ex -> e <= ex -> Zpos mx * 2 ^ (ex - e) <= Zpos p ->
  ge_ref mx ex s (binary_round prec emax s p e).
Proof.
  intros Hc Hle Hv. unfold binary_round. fold (digits p).
  destruct (binary_round_aligned p e) as (mz & ez & -> & Hez & Hmz & Hal & _).
  apply round_ge_aux; [assumption|assumption|lia|].
  rewrite Hmz, (pow2_split ex e ez) by lia. rewrite Z.mul_assoc.
  apply Z.mul_le_mono_nonneg_r; [pose proof (pow2_pos (e - ez)); lia|assumption].
Qed.

Lemma round_le s p e mx ex :
  canonical mx ex -> ex <= emax - prec -> e <= ex ->
  Zpos p < Zpos mx * 2 ^ (ex - e) ->
  le_ref mx ex s (binary_round prec emax s p e).
Proof.
  intros Hc Hb Hle Hv. unfold binary_round. fold (digits p).
  destruct (binary_round_aligned p e) as (mz & ez & -> & Hez & Hmz & Hal & _).
  apply round_le_aux; [assumption|assumption|assumption|lia|].
  rewrite Hmz, (pow2_split ex e ez) by lia. rewrite Z.mul_assoc.
  apply Z.mul_lt_mono_pos_r; [apply pow2_pos; lia|assumption].
Qed.

Lemma round_canonical s p e s' mr er :
  binary_round prec emax s p e = S754_finite s' mr er ->
  canonical mr er /\ er <= emax - prec.
Proof.
  unfold binary_round. fold (digits p).
  destruct (binary_round_aligned p e) as (mz & ez & -> & Hez & Hmz & Hal & _).
  apply round_canonical_aux. assumption.
Qed.

Lemma round_signed s p e : signed s (binary_round prec emax s p e).
Proof.
  unfold binary_round.
  destruct (shl_align p e (fexp prec emax (Zpos (digits2_pos p) + e))) as [mz ez].
  apply binary_round_aux_signed. lia.
Qed.

(** ** Comparisons from the bounds *)

Lemma signed_nonneg r : signed false r -> nonneg r.
Proof. destruct r as [s|s| |s m e]; cbn; intros H; try subst s; auto. Qed.

Lemma leb_ge_ref mx ex r :
  ge_ref mx ex false r -> leb (S754_finite false mx ex) r = true.
Proof.
  destruct r as [s|s| |s mr er]; cbn [ge_ref]; try contradiction.
  - intros ->. reflexivity.
  - intros (-> & He & Hm). unfold leb, SFleb, SFcompare.
    destruct (Z.compare_spec ex er) as [Heq|Hlt|Hgt]; [|reflexivity|lia].
    rewrite Heq, Z.sub_diag, Z.pow_0_r, Z.mul_1_r in Hm.
    change (Pos.compare_cont Eq mx mr) with (Pos.compare mx mr).
    destruct (Pos.compare_spec mx mr); [reflexivity|reflexivity|lia].
Qed.

Lemma leb_le_ref mx ex r :
  le_ref mx ex true r -> leb (S754_finite true mx ex) r = true.
Proof.
  destruct r as [s|s| |s mr er]; cbn [le_ref]; try contradiction.
  - intros ->. reflexivity.
  - intros (-> & He & Hm). unfold leb, SFleb, SFcompare.
    destruct (Z.compare_spec ex er) as [Heq|Hlt|Hgt]; [|lia|reflexivity].
    rewrite Heq, Z.sub_diag, Z.pow_0_r, Z.mul_1_r in Hm.
    change (Pos.compare_cont Eq mx mr) with (Pos.compare mx mr).
    destruct (Pos.compare_spec mx mr); [reflexivity|lia|reflexivity].
Qed.

Lemma leb_neg_signed mx ex r :
  signed false r -> leb (S754_finite true mx ex) r = true.
Proof. destruct r as [s|s| |s mr er]; cbn [signed]; try contradiction; intros ->; reflexivity. Qed.

Lemma leb_zero_nonneg s r : nonneg r -> leb (S754_zero s) r = true.
Proof. destruct r as [s'|[]| |[] mr er]; cbn [nonneg]; try contradiction; reflexivity. Qed.

Lemma normalize_nonneg z e : 0 <= z -> signed false (binary_normalize prec emax z e false).
Proof.
  intros Hz. destruct z as [|q|q]; cbn [binary_normalize]; [reflexivity| |lia].
  apply round_signed.
Qed.

(** ** Adding a number that is not negative *)

Lemma above_leb x r : above x r -> leb x r = true.
Proof.
  destruct x as [s|s| |[] mx ex]; cbn [above]; try contradiction.
  - apply leb_zero_nonneg.
  - intros [H|H]; [now apply leb_neg_signed|now apply leb_le_ref].
  - apply leb_ge_ref.
Qed.

Lemma above_refl x : regular x -> above x x.
Proof.
  destruct x as [s|s| |[] mx ex]; cbn [above regular]; try contradiction; auto.
  - intros _. right. cbn [le_ref]. rewrite Z.sub_diag, Z.pow_0_r. repeat split; lia.
  - intros _. cbn [ge_ref]. rewrite Z.sub_diag, Z.pow_0_r. repeat split; lia.
Qed.

Lemma add_above x mh eh :
  regular x -> above x (add x (S754_finite false mh eh)).
Proof.
  destruct x as [s|s| |sx mx ex]; cbn [regular]; try contradiction.
  - intros _. cbn. exact I.
  - intros [Hc Hb]. unfold add, SFadd.
    destruct (shl_align_spec mx ex (Z.min ex eh)) as [_ Hx].
    destruct (shl_align_spec mh eh (Z.min ex eh)) as [_ Hh].
    replace (Z.min ex (Z.min ex eh)) with (Z.min ex eh) in Hx by lia.
    replace (Z.min eh (Z.min ex eh)) with (Z.min ex eh) in Hh by lia.
    set (Mx := fst (shl_align mx ex (Z.min ex eh))) in *.
    set (Mh := fst (shl_align mh eh (Z.min ex eh))) in *.
    destruct sx; cbn [above cond_Zopp].
    + destruct (- Zpos Mx + Zpos Mh) as [|q|q] eqn:Hz; cbn [binary_normalize].
      * left. reflexivity.
      * left. apply round_signed.
      * right. apply round_le; [assumption|assumption|lia|]. lia.
    + change (Zpos Mx + Zpos Mh) with (Zpos (Mx + Mh)). cbn [binary_normalize].
      apply round_ge; [assumption|lia|]. lia.
Qed.

Lemma leb_regular_refl x : regular x -> leb x x = true.
Proof. intros H. apply above_leb, above_refl, H. Qed.

Lemma add_nonneg_leb x p : regular x -> nonneg p -> leb x (add x p) = true.
Proof.
  intros Hx Hp. destruct p as [s|[]| |[] mp ep]; cbn [nonneg] in Hp; try contradiction.
  - destruct x as [sx|sx| |sx mx ex]; cbn [regular] in Hx; try contradiction.
    + destruct sx, s; reflexivity.
    + apply (leb_regular_refl (S754_finite sx mx ex)). exact Hx.
  - destruct x as [sx|sx| |[] mx ex]; cbn [regular] in Hx; try contradiction; reflexivity.
  - apply above_leb, add_above, Hx.
Qed.

(** ** The step of the grid is not negative *)

Lemma sub_above x r : regular x -> above x r -> nonneg (sub r x).
Proof.
  destruct x as [sx|sx| |sx mx ex]; cbn [regular above]; try contradiction.
  - intros _. destruct r as [s|[]| |[] mr er]; cbn [nonneg]; try contradiction; intros _.
    + destruct s, sx; exact I.
    + exact I.
    + exact I.
  - intros [Hc Hb] Hr.
    assert (Hfin : forall sr mr er,
      0 <= cond_Zopp sr (Zpos (fst (shl_align mr er (Z.min er ex))))
           - cond_Zopp sx (Zpos (fst (shl_align mx ex (Z.min er ex)))) ->
      nonneg (sub (S754_finite sr mr er) (S754_finite sx mx ex))).
    { intros sr mr er Hz. apply signed_nonneg. unfold sub, SFsub.
      apply normalize_nonneg, Hz. }
    destruct sx.
    + destruct Hr as [Hr|Hr].
      * destruct r as [s|s| |s mr er]; cbn [signed] in Hr; try contradiction; subst s.
        -- exact I.
        -- exact I.
        -- apply Hfin. cbn [cond_Zopp]. lia.
      * destruct r as [s|s| |s mr er]; cbn [le_ref] in Hr; try contradiction.
        -- subst s. exact I.
        -- destruct Hr as (-> & He & Hm). apply Hfin. cbn [cond_Zopp].
           destruct (shl_align_spec mx ex (Z.min er ex)) as [_ Hx].
           destruct (shl_align_spec mr er (Z.min er ex)) as [_ Hr].
           replace (Z.min ex (Z.min er ex)) with er in Hx by lia.
           replace (Z.min er (Z.min er ex)) with er in Hr by lia.
           rewrite Z.sub_diag, Z.pow_0_r in Hr. lia.
    + destruct r as [s|s| |s mr er]; cbn [ge_ref] in Hr; try contradiction.
      * subst s. exact I.
      * destruct Hr as (-> & He & Hm). apply Hfin. cbn [cond_Zopp].
        destruct (shl_align_spec mx ex (Z.min er ex)) as [_ Hx].
        destruct (shl_align_spec mr er (Z.min er ex)) as [_ Hr].
        replace (Z.min ex (Z.min er ex)) with ex in Hx by lia.
        replace (Z.min er (Z.min er ex)) with ex in Hr by lia.
        rewrite Z.sub_diag, Z.pow_0_r in Hx. lia.
Qed.

Lemma mul_nonneg ma ea d : nonneg d -> nonneg (mul (S754_finite false ma ea) d).
Proof.
  destruct d as [s|[]| |[] md ed]; cbn [nonneg]; try contradiction; intros _.
  - exact I.
  - exact I.
  - apply signed_nonneg. unfold mul, SFmul. cbn [xorb].
    apply binary_round_aux_signed. lia.
Qed.

(** ** Indices as doubles *)

Lemma canonical_2_64 : canonical (2 ^ 52) 12.
Proof. reflexivity. Qed.

Lemma of_Z_finite q : Zpos q < 2 ^ 64 ->
  exists m e, of_Z (Zpos q) = S754_finite false m e.
Proof.
  intros Hq. unfold of_Z. cbn [binary_normalize].
  pose proof (round_le false q 0 (2 ^ 52) 12 canonical_2_64 ltac:(unfold emax, prec; lia)
                ltac:(lia) ltac:(simpl; lia)) as Hle.
  assert (Hnz : forall s', binary_round prec emax false q 0 <> S754_zero s').
  { unfold binary_round. fold (digits q).
    destruct (binary_round_aligned q 0) as (mz & ez & -> & Hez & Hmz & Hal & Hd).
    pose proof (digits_pos q).
    apply round_aux_nonzero; [assumption|]. rewrite Hd, fexp_eq. lia. }
  destruct (binary_round prec emax false q 0) as [s|s| |s m e]; cbn [le_ref] in Hle;
    try contradiction.
  - exfalso. exact (Hnz s eq_refl).
  - destruct Hle as (-> & _). eauto.
Qed.

(** ** Canonical results *)

Lemma valid_regular x :
  valid x = true -> is_nan x = false ->
  (forall s, x <> S754_infinity s) -> regular x.
Proof.
  destruct x as [s|s| |s m e]; cbn [regular is_nan]; intros Hv Hn Hi.
  - exact I.
  - exfalso. exact (Hi s eq_refl).
  - discriminate.
  - unfold valid, valid_binary, bounded in Hv.
    apply andb_true_iff in Hv as [Hc Hb].
    split; [now apply canonical_mantissa_canonical|now apply Z.leb_le].
Qed.

Lemma round_valid s p e : valid (binary_round prec emax s p e) = true.
Proof.
  destruct (binary_round prec emax s p e) as [s'|s'| |s' m' e'] eqn:Hr; try reflexivity.
  destruct (round_canonical _ _ _ _ _ _ Hr) as [Hc Hb].
  unfold valid, valid_binary, bounded. apply andb_true_iff.
  split; [now apply canonical_mantissa_canonical|now apply Z.leb_le].
Qed.

Lemma normalize_valid z e s : valid (binary_normalize prec emax z e s) = true.
Proof. destruct z; cbn [binary_normalize]; [reflexivity|apply round_valid..]. Qed.

Lemma sub_valid x y : valid x = true -> valid y = true -> valid (sub x y) = true.
Proof.
  intros Hx Hy. unfold sub.
  destruct x as [sx|sx| |sx mx ex], y as [sy|sy| |sy my ey]; cbn [SFsub];
    try reflexivity; try assumption; try (destruct sx, sy; reflexivity).
  apply normalize_valid.
Qed.

(** ** The coordinates of [np.arange] are not below its start *)

Lemma coordinate_leb start mh eh (i : nat) :
  regular start -> Z.of_nat i < 2 ^ 64 ->
  leb start (coordinate start (S754_finite false mh eh) i) = true.
Proof.
  intros Hr Hi. destruct i as [|[|i]]; cbn [coordinate].
  - apply leb_regular_refl, Hr.
  - apply above_leb, add_above, Hr.
  - destruct (Z.of_nat (S (S i))) as [|q|q] eqn:Hq; try lia.
    destruct (of_Z_finite q Hi) as (m & e & ->).
    apply add_nonneg_leb; [exact Hr|].
    apply mul_nonneg, sub_above; [exact Hr|]. apply add_above, Hr.
Qed.

Lemma arange_start_finite start stop ss ms es xs :
  Numpy.arange start stop (S754_finite ss ms es) = inr xs ->
  forall s, start <> S754_infinity s.
Proof.
  intros Hrun s ->. revert Hrun. unfold Numpy.arange, sub, div.
  destruct stop as [s'|s'| |s' m' e']; destruct s; try destruct s'; destruct ss;
    simpl; discriminate.
Qed.

Lemma arange_safe_ceil_to_intp_le v n :
  Numpy.arange_safe_ceil_to_intp v = inr n -> n <= 2 ^ 63.
Proof.
  unfold Numpy.arange_safe_ceil_to_intp.
  destruct (ceil v) as [k|]; [|destruct (is_nan v); discriminate].
  destruct ((- Numpy.intp_max <=? k) && (k <=? Numpy.intp_max)) eqn:Hb; [|discriminate].
  intros [= <-]. apply andb_true_iff in Hb as [_ Hb]. apply Z.leb_le in Hb. exact Hb.
Qed.

Lemma arange_lower_bound start stop mh eh xs :
  valid start = true ->
  Numpy.arange start stop (S754_finite false mh eh) = inr xs ->
  forall c, In c xs -> leb start c = true.
Proof.
  intros Hv Hrun c Hin.
  destruct (ArangeFacts.arange_not_nan _ _ _ _ Hrun) as [Hn _].
  pose proof (valid_regular start Hv Hn (arange_start_finite _ _ _ _ _ _ Hrun)) as Hr.
  destruct (ArangeFacts.arange_spec _ _ _ _ Hrun) as (len & Hlen & Hlength & Hnth).
  apply list_elem_of_In, list_elem_of_lookup in Hin as [i Hi].
  pose proof (lookup_lt_Some _ _ _ Hi) as Hlt.
  rewrite (Hnth i Hlt) in Hi. injection Hi as <-.
  apply coordinate_leb; [exact Hr|].
  pose proof (arange_safe_ceil_to_intp_le _ _ Hlen). lia.
Qed.

(** The renderer's step and margin, as doubles. *)
Lemma step_value : dec 2 100 = S754_finite false 5764607523034235 (-58).
Proof. vm_compute. reflexivity. Qed.

Lemma margin_valid : valid (dec 5 10) = true.
Proof. vm_compute. reflexivity. Qed.

Lemma grid_axis_lower_bound lo stop xs :
  valid lo = true ->
  Numpy.arange (sub lo (dec 5 10)) stop (dec 2 100) = inr xs ->
  forall c, In c xs -> leb (sub lo (dec 5 10)) c = true.
Proof.
  intros Hv Hrun. rewrite step_value in Hrun.
  apply (arange_lower_bound _ _ _ _ _ (sub_valid _ _ Hv margin_valid) Hrun).
Qed.

End RoundingFacts.

Module GridFacts.

Lemma meshgrid_on_grid xs ys :
  Numpy.meshgrid xs ys
  = (on_grid (fun xv _ => xv) xs ys, on_grid (fun _ yv => yv) xs ys).
Proof.
  unfold Numpy.meshgrid, on_grid. f_equal.
  induction ys as [|yv ys IH]; simpl; [reflexivity|].
  rewrite IH. f_equal. clear. induction xs; simpl; congruence.
Qed.

Lemma on_grid_shape {A} (f : float -> float -> A) xs ys :
  Numpy.shape (on_grid f xs ys)
  = (length ys, match ys with [] => O | _ => length xs end).
Proof.
  unfold Numpy.shape, on_grid. rewrite length_map.
  destruct ys; simpl; [reflexivity|]. now rewrite length_map.
Qed.

Lemma ravel_length {A} (f : float -> float -> A) xs ys :
  length (Numpy.ravel (on_grid f xs ys)) = (length ys * length xs)%nat.
Proof.
  unfold Numpy.ravel, on_grid.
  induction ys as [|yv ys IH]; simpl; [reflexivity|].
  now rewrite length_app, length_map, IH.
Qed.

(** The rows [(x, y)] that [np.c_] makes of the two ravelled grids. *)
Lemma combine_ravel xs ys :
  combine (Numpy.ravel (on_grid (fun xv _ => xv) xs ys))
          (Numpy.ravel (on_grid (fun _ yv => yv) xs ys))
  = Numpy.ravel (on_grid (fun xv yv => (xv, yv)) xs ys).
Proof.
  unfold Numpy.ravel, on_grid.
  induction ys as [|yv ys IH]; simpl; [reflexivity|].
  rewrite <- IH. clear IH.
  generalize (concat (map (fun _ => map (fun xv => xv) xs) ys)).
  generalize (concat (map (fun yv0 => map (fun _ => yv0) xs) ys)).
  intros l2 l1. induction xs as [|xv xs IH]; simpl; [reflexivity|].
  now rewrite IH.
Qed.

Lemma map_ravel {A B} (g : A -> B) (f : float -> float -> A) xs ys :
  map g (Numpy.ravel (on_grid f xs ys))
  = Numpy.ravel (on_grid (fun xv yv => g (f xv yv)) xs ys).
Proof.
  unfold Numpy.ravel, on_grid.
  induction ys as [|yv ys IH]; simpl; [reflexivity|].
  now rewrite map_app, map_map, IH.
Qed.

Lemma rows_of_ravel {A} (f : float -> float -> A) xs ys :
  Numpy.rows_of (length ys) (length xs) (Numpy.ravel (on_grid f xs ys))
  = on_grid f xs ys.
Proof.
  unfold Numpy.ravel, on_grid.
  induction ys as [|yv ys IH]; simpl; [reflexivity|].
  rewrite firstn_app, skipn_app, length_map, Nat.sub_diag.
  rewrite firstn_all2 by (rewrite length_map; lia).
  rewrite (skipn_all2 (n := length xs)) by (rewrite length_map; lia).
  simpl. rewrite app_nil_r, drop_0. now rewrite IH.
Qed.

(** Reshaping a ravelled grid to the grid's own shape gives it back. *)
Lemma reshape_ravel {A B} (f : float -> float -> A) (g : float -> float -> B)
    xs ys :
  ys <> [] ->
  Numpy.reshape (Numpy.ravel (on_grid f xs ys)) (Numpy.shape (on_grid g xs ys))
  = inr (on_grid f xs ys).
Proof.
  intros Hys. unfold Numpy.reshape. rewrite on_grid_shape, ravel_length.
  destruct ys as [|yv ys]; [congruence|].
  cbn [fst snd]. rewrite Nat.eqb_refl. now rewrite rows_of_ravel.
Qed.

Lemma c_ravel xs ys :
  Numpy.c_ (Numpy.ravel (on_grid (fun xv _ => xv) xs ys))
           (Numpy.ravel (on_grid (fun _ yv => yv) xs ys))
  = inr (Numpy.ravel (on_grid (fun xv yv => (xv, yv)) xs ys)).
Proof.
  unfold Numpy.c_. rewrite !ravel_length, Nat.eqb_refl.
  now rewrite combine_ravel.
Qed.

Lemma ravel_nil {A} (f : float -> float -> A) xs ys :
  Numpy.ravel (on_grid f xs ys) = [] <-> xs = [] \/ ys = [].
Proof.
  split.
  - intros Hnil. pose proof (ravel_length f xs ys) as Hlen.
    rewrite Hnil in Hlen. simpl in Hlen.
    destruct xs, ys; auto. simpl in Hlen. lia.
  - intros Hnil. apply length_zero_iff_nil. rewrite ravel_length.
    destruct Hnil as [-> | ->]; simpl; lia.
Qed.

End GridFacts.

(** ** The exact values of the grid coordinates

    Sums, differences, products and quotients of doubles are followed in
    units of [2 ^ -1074], in which every finite double is an integer:
    each operation is within one unit in the last place of the exact
    result.  For samples of moderate size this bounds every coordinate
    of the grid. *)

Module ValueFacts.
Import Binary64Facts RoundingFacts.

(** The result of rounding an aligned mantissa: a finite number within one
    unit of the rounding exponent. *)
Lemma round_value_aux s p e l :
  -1074 <= e -> e <= fexp prec emax (digits p + e) -> digits p + e <= 1023 ->
  exists mr er,
    binary_round_aux prec emax s (Zpos p) e l = S754_finite s mr er /\
    canonical mr er /\ er <= emax - prec /\
    fexp prec emax (digits p + e) <= er /\
    Zpos p - 2 ^ (fexp prec emax (digits p + e) - e)
      < Zpos mr * 2 ^ (er - e)
      <= Zpos p + 2 ^ (fexp prec emax (digits p + e) - e).
Proof.
  intros He Hal Hd.
  assert (Hfin : exists mr er,
    binary_round_aux prec emax s (Zpos p) e l = S754_finite s mr er /\
    fexp prec emax (digits p + e) <= er /\
    Zpos p - 2 ^ (fexp prec emax (digits p + e) - e)
      < Zpos mr * 2 ^ (er - e)
      <= Zpos p + 2 ^ (fexp prec emax (digits p + e) - e)).
  2:{ destruct Hfin as (mr & er & Hr & Hge & Hv). exists mr, er.
      destruct (round_canonical_aux s p e l s mr er Hal Hr) as [Hc Hb]. auto. }
  destruct (binary_round_aux_spec s (Zpos p) e l ltac:(lia))
    as (m1 & e1 & e2 & He1 & Hm1 & He2 & ->).
  cbn [Zdigits2] in He1. fold (digits p) in He1.
  rewrite Z.max_r in He1 by assumption. rewrite <- He1.
  pose proof (digits_spec p) as [Hplo Hphi]. pose proof (digits_pos p).
  assert (He1e : e <= e1) by lia.
  assert (He1m : e1 <= 970) by (rewrite He1, fexp_eq; lia).
  pose proof (pow2_pos (e1 - e) ltac:(lia)) as Hk.
  pose proof (Z.div_mod (Zpos p) (2 ^ (e1 - e)) ltac:(lia)) as Hdm.
  pose proof (Z.mod_pos_bound (Zpos p) (2 ^ (e1 - e)) Hk) as Hmod.
  assert (Hfl : 1 <= Zpos p / 2 ^ (e1 - e) < 2 ^ 53).
  { split.
    - destruct (Z.eq_dec e1 e) as [->|Hne].
      + rewrite Z.sub_diag, Z.pow_0_r, Z.div_1_r. lia.
      + assert (2 ^ 52 <= Zpos p / 2 ^ (e1 - e)); [|lia].
        apply (shifted_normal p e e1 He1); lia.
    - apply div_pow2_lt; [lia|lia|].
      assert (2 ^ digits p <= 2 ^ (e1 - e + 53)); [|lia].
      apply Z.pow_le_mono_r; [lia|]. rewrite He1, fexp_eq. lia. }
  destruct m1 as [|q1|q1]; [lia| |lia].
  cbn [Zdigits2] in He2. fold (digits q1) in He2.
  pose proof (digits_pos q1).
  destruct (Z.eq_dec (Zpos q1) (2 ^ 53)) as [Hq|Hq].
  - assert (Hdq : digits q1 = 54) by (apply digits_unique; rewrite Hq; simpl; lia).
    assert (He2' : e2 = e1 + 1) by (rewrite He2, Hdq, fexp_eq; lia).
    rewrite He2'. replace (e1 + 1 - e1) with 1 by lia.
    rewrite Hq. change (2 ^ 53 / 2 ^ 1) with (Zpos (2 ^ 52)). cbn [rounded].
    replace (e1 + 1 <=? emax - prec) with true
      by (symmetry; apply Z.leb_le; unfold emax, prec; lia).
    exists (2 ^ 52)%positive, (e1 + 1). split; [reflexivity|]. split; [lia|].
    replace (e1 + 1 - e) with (1 + (e1 - e)) by lia.
    rewrite Z.pow_add_r by lia.
    assert (Hc52 : Zpos (2 ^ 52) = 2 ^ 52) by reflexivity. rewrite Hc52.
    nia.
  - assert (Hdq : digits q1 <= 53) by (apply digits_le_of_lt; lia).
    assert (He2' : e2 = e1) by (rewrite He2, fexp_eq; rewrite He1, fexp_eq in *; lia).
    rewrite He2', Z.sub_diag, Z.pow_0_r, Z.div_1_r. cbn [rounded].
    replace (e1 <=? emax - prec) with true
      by (symmetry; apply Z.leb_le; unfold emax, prec; lia).
    exists q1, e1. split; [reflexivity|]. split; [lia|]. nia.
Qed.

Lemma pow2_lt_inv a b : 0 <= b -> 2 ^ a < 2 ^ b -> a < b.
Proof.
  intros Hb Hlt. destruct (Z_lt_le_dec a b) as [|Hge]; [assumption|].
  assert (2 ^ b <= 2 ^ a) by (apply Z.pow_le_mono_r; lia). lia.
Qed.

(** Rounding [p * 2 ^ e] gives a finite number within one unit in the
    last place, in units of [2 ^ -1074]. *)
Lemma round_value s p e :
  -1074 <= e -> digits p + e <= 1023 ->
  exists mr er U,
    binary_round prec emax s p e = S754_finite s mr er /\
    canonical mr er /\ er <= emax - prec /\
    0 < U /\ (U = 1 \/ U * 2 ^ 52 <= Zpos p * 2 ^ (e + 1074)) /\
    Zpos p * 2 ^ (e + 1074) - U < Zpos mr * 2 ^ (er + 1074)
      <= Zpos p * 2 ^ (e + 1074) + U.
Proof.
  intros He Hd. unfold binary_round. fold (digits p).
  set (e1 := fexp prec emax (digits p + e)).
  destruct (shl_align_spec p e e1) as [Hez Hmz].
  destruct (shl_align p e e1) as [mz ez]. cbn [fst snd] in Hez, Hmz.
  assert (He1 : -1074 <= e1) by (unfold e1; rewrite fexp_eq; lia).
  assert (Hdz : digits mz = digits p + (e - ez))
    by (apply digits_shift; [lia|]; rewrite Hmz, Hez; reflexivity).
  assert (Hsum : digits mz + ez = digits p + e) by lia.
  destruct (round_value_aux s mz ez loc_Exact) as (mr & er & Hr & Hc & Hb & Hge & Hv).
  { lia. }
  { rewrite Hsum. fold e1. lia. }
  { lia. }
  rewrite Hsum in Hge, Hv. fold e1 in Hge, Hv.
  exists mr, er, (2 ^ (e1 + 1074)).
  split; [exact Hr|]. split; [exact Hc|]. split; [exact Hb|].
  pose proof (pow2_pos (e1 + 1074) ltac:(lia)) as HU.
  pose proof (pow2_pos (ez + 1074) ltac:(lia)) as HW.
  pose proof (digits_spec p) as [Hplo _]. pose proof (digits_pos p).
  split; [exact HU|]. split.
  - destruct (Z.eq_dec e1 (-1074)) as [Heq|Hne].
    + left. rewrite Heq. reflexivity.
    + right. assert (He1' : e1 = digits p + e - 53)
        by (unfold e1 in *; rewrite fexp_eq in *; lia).
      rewrite <- Z.pow_add_r by lia.
      replace (e1 + 1074 + 52) with ((digits p - 1) + (e + 1074)) by lia.
      rewrite Z.pow_add_r by lia.
      apply Z.mul_le_mono_nonneg_r; [pose proof (pow2_pos (e + 1074)); lia|lia].
  - assert (HV : Zpos p * 2 ^ (e + 1074) = Zpos mz * 2 ^ (ez + 1074)).
    { rewrite Hmz, Hez. rewrite <- Z.mul_assoc, <- Z.pow_add_r by lia.
      do 2 f_equal. lia. }
    assert (HUe : 2 ^ (e1 + 1074) = 2 ^ (e1 - ez) * 2 ^ (ez + 1074)).
    { rewrite <- Z.pow_add_r by lia. f_equal. lia. }
    assert (HR : Zpos mr * 2 ^ (er + 1074)
                 = Zpos mr * 2 ^ (er - ez) * 2 ^ (ez + 1074)).
    { rewrite <- Z.mul_assoc, <- Z.pow_add_r by lia. do 2 f_equal. lia. }
    rewrite HV, HUe, HR. nia.
Qed.

Lemma normalize_value m e :
  -1074 <= e -> Z.abs m * 2 ^ (e + 1074) < 2 ^ 2000 ->
  exists U,
    regular (binary_normalize prec emax m e false) /\
    0 < U /\ (U = 1 \/ U * 2 ^ 52 <= Z.abs m * 2 ^ (e + 1074)) /\
    m * 2 ^ (e + 1074) - U
      <= exact (binary_normalize prec emax m e false)
      <= m * 2 ^ (e + 1074) + U.
Proof.
  intros He Hb. pose proof (pow2_pos (e + 1074) ltac:(lia)) as HW.
  destruct m as [|p|p]; cbn [binary_normalize].
  - exists 1. cbn [regular exact]. split; [exact I|]. lia.
  - cbn [Z.abs] in *.
    assert (Hd : digits p + e <= 1023).
    { pose proof (digits_spec p) as [Hlo _]. pose proof (digits_pos p).
      assert (2 ^ (digits p - 1 + (e + 1074)) < 2 ^ 2000).
      { rewrite Z.pow_add_r by lia. nia. }
      apply pow2_lt_inv in H0; lia. }
    destruct (round_value false p e He Hd)
      as (mr & er & U & -> & Hc & Hbd & HU & Hrel & Hv).
    exists U. cbn [regular exact]. split; [auto|]. split; [exact HU|].
    split; [exact Hrel|]. lia.
  - cbn [Z.abs] in *.
    assert (Hd : digits p + e <= 1023).
    { pose proof (digits_spec p) as [Hlo _]. pose proof (digits_pos p).
      assert (2 ^ (digits p - 1 + (e + 1074)) < 2 ^ 2000).
      { rewrite Z.pow_add_r by lia. nia. }
      apply pow2_lt_inv in H0; lia. }
    destruct (round_value true p e He Hd)
      as (mr & er & U & -> & Hc & Hbd & HU & Hrel & Hv).
    exists U. cbn [regular exact]. split; [auto|]. split; [exact HU|].
    split; [exact Hrel|].
    change (Z.neg p) with (- Zpos p). lia.
Qed.

Lemma align_exact s m e ez :
  ez <= e -> -1074 <= ez ->
  cond_Zopp s (Zpos (fst (shl_align m e ez))) * 2 ^ (ez + 1074)
  = exact (S754_finite s m e).
Proof.
  intros Hle Hez. destruct (shl_align_spec m e ez) as [_ ->].
  rewrite Z.min_r by assumption. cbn [exact].
  assert (Hp : 2 ^ (e + 1074) = 2 ^ (e - ez) * 2 ^ (ez + 1074)).
  { rewrite <- Z.pow_add_r by lia. f_equal. lia. }
  rewrite Hp. destruct s; cbn [cond_Zopp]; ring.
Qed.

Lemma regular_exponent s m e : regular (S754_finite s m e) -> -1074 <= e.
Proof. intros [Hc _]. apply (canonical_bounds m e Hc). Qed.

(** A sum or a difference of two doubles is within one unit in the last
    place of the exact one, as long as it is far from overflowing. *)
Lemma sub_value x y :
  regular x -> regular y ->
  Z.abs (exact x) < 2 ^ 1999 -> Z.abs (exact y) < 2 ^ 1999 ->
  exists U,
    regular (sub x y) /\
    0 < U /\ (U = 1 \/ U * 2 ^ 52 <= Z.abs (exact x - exact y)) /\
    exact x - exact y - U <= exact (sub x y) <= exact x - exact y + U.
Proof.
  intros Hx Hy Hbx Hby. unfold sub.
  destruct x as [sx|sx| |sx mx ex]; try contradiction;
    destruct y as [sy|sy| |sy my ey]; try contradiction.
  - exists 1. destruct sx, sy; cbn [SFsub exact regular]; repeat split; lia.
  - exists 1. cbn [SFsub]. split; [exact Hy|]. cbn [exact].
    destruct sy; cbn [negb]; lia.
  - exists 1. cbn [SFsub]. split; [exact Hx|]. cbn [exact]. lia.
  - cbn [SFsub]. cbv zeta.
    pose proof (regular_exponent _ _ _ Hx) as Hex.
    pose proof (regular_exponent _ _ _ Hy) as Hey.
    set (ez := Z.min ex ey).
    set (m := cond_Zopp sx (Zpos (fst (shl_align mx ex ez)))
              - cond_Zopp sy (Zpos (fst (shl_align my ey ez)))).
    assert (Hm : m * 2 ^ (ez + 1074)
                 = exact (S754_finite sx mx ex) - exact (S754_finite sy my ey)).
    { unfold m. rewrite Z.mul_sub_distr_r, !align_exact by (unfold ez; lia).
      reflexivity. }
    pose proof (pow2_pos (ez + 1074) ltac:(unfold ez; lia)) as HW.
    assert (Habs : Z.abs m * 2 ^ (ez + 1074)
                   = Z.abs (exact (S754_finite sx mx ex)
                            - exact (S754_finite sy my ey))).
    { rewrite <- Hm, Z.abs_mul. f_equal. lia. }
    destruct (normalize_value m ez) as (U & Hr & HU & Hrel & Hv).
    { unfold ez. lia. }
    { rewrite Habs. change (2 ^ 2000) with (2 * 2 ^ 1999). lia. }
    exists U. rewrite Habs in Hrel. rewrite Hm in Hv. auto.
Qed.

Lemma add_value x y :
  regular x -> regular y ->
  Z.abs (exact x) < 2 ^ 1999 -> Z.abs (exact y) < 2 ^ 1999 ->
  exists U,
    regular (add x y) /\
    0 < U /\ (U = 1 \/ U * 2 ^ 52 <= Z.abs (exact x + exact y)) /\
    exact x + exact y - U <= exact (add x y) <= exact x + exact y + U.
Proof.
  intros Hx Hy Hbx Hby. unfold add.
  destruct x as [sx|sx| |sx mx ex]; try contradiction;
    destruct y as [sy|sy| |sy my ey]; try contradiction.
  - exists 1. destruct sx, sy; cbn [SFadd exact regular]; repeat split; lia.
  - exists 1. cbn [SFadd]. split; [exact Hy|]. cbn [exact]. lia.
  - exists 1. cbn [SFadd]. split; [exact Hx|]. cbn [exact]. lia.
  - cbn [SFadd]. cbv zeta.
    pose proof (regular_exponent _ _ _ Hx) as Hex.
    pose proof (regular_exponent _ _ _ Hy) as Hey.
    set (ez := Z.min ex ey).
    set (m := cond_Zopp sx (Zpos (fst (shl_align mx ex ez)))
              + cond_Zopp sy (Zpos (fst (shl_align my ey ez)))).
    assert (Hm : m * 2 ^ (ez + 1074)
                 = exact (S754_finite sx mx ex) + exact (S754_finite sy my ey)).
    { unfold m. rewrite Z.mul_add_distr_r, !align_exact by (unfold ez; lia).
      reflexivity. }
    pose proof (pow2_pos (ez + 1074) ltac:(unfold ez; lia)) as HW.
    assert (Habs : Z.abs m * 2 ^ (ez + 1074)
                   = Z.abs (exact (S754_finite sx mx ex)
                            + exact (S754_finite sy my ey))).
    { rewrite <- Hm, Z.abs_mul. f_equal. lia. }
    destruct (normalize_value m ez) as (U & Hr & HU & Hrel & Hv).
    { unfold ez. lia. }
    { rewrite Habs. change (2 ^ 2000) with (2 * 2 ^ 1999). lia. }
    exists U. rewrite Habs in Hrel. rewrite Hm in Hv. auto.
Qed.

(** On canonical numbers the order of the exponents is the order of the
    magnitudes. *)
Lemma canonical_exponent_lt m1 e1 m2 e2 :
  canonical m1 e1 -> canonical m2 e2 -> e1 < e2 ->
  Zpos m1 * 2 ^ (e1 + 1074) < Zpos m2 * 2 ^ (e2 + 1074).
Proof.
  intros H1 H2 Hlt.
  destruct (canonical_bounds m1 e1 H1) as (He1 & _ & _).
  pose proof (canonical_lt m1 e1 H1) as Hm1.
  pose proof (canonical_normal m2 e2 H2 ltac:(lia)) as [Hm2 _].
  pose proof (pow2_pos (e1 + 1074) ltac:(lia)) as HW.
  assert (Hp : 2 ^ (e2 + 1074) = 2 ^ (e2 - e1) * 2 ^ (e1 + 1074)).
  { rewrite <- Z.pow_add_r by lia. f_equal. lia. }
  assert (Hk : 2 ^ 1 <= 2 ^ (e2 - e1)) by (apply Z.pow_le_mono_r; lia).
  rewrite Hp. nia.
Qed.

Lemma leb_exact x y :
  regular x -> regular y -> leb x y = true -> exact x <= exact y.
Proof.
  destruct x as [sx|sx| |sx mx ex]; try contradiction;
    destruct y as [sy|sy| |sy my ey]; try contradiction; intros Hx Hy.
  - intros _. reflexivity.
  - destruct Hy as [Hc _]. destruct (canonical_bounds my ey Hc) as (He & _ & _).
    pose proof (pow2_pos (ey + 1074) ltac:(lia)).
    destruct sy; cbn; [discriminate|]. intros _. nia.
  - destruct Hx as [Hc _]. destruct (canonical_bounds mx ex Hc) as (He & _ & _).
    pose proof (pow2_pos (ex + 1074) ltac:(lia)).
    destruct sx; cbn; [|discriminate]. intros _. nia.
  - destruct Hx as [Hcx _], Hy as [Hcy _].
    destruct (canonical_bounds mx ex Hcx) as (Hex & _ & _).
    destruct (canonical_bounds my ey Hcy) as (Hey & _ & _).
    pose proof (pow2_pos (ex + 1074) ltac:(lia)).
    pose proof (pow2_pos (ey + 1074) ltac:(lia)).
    unfold leb, SFleb, SFcompare. cbn [exact].
    destruct sx, sy; try discriminate; try (intros _; nia).
    + destruct (Z.compare_spec ex ey) as [Heq|Hlt|Hgt]; cbn.
      * subst ey. change (Pos.compare_cont Eq mx my) with (Pos.compare mx my).
        destruct (Pos.compare_spec mx my); cbn; try discriminate; intros _; nia.
      * discriminate.
      * intros _. pose proof (canonical_exponent_lt my ey mx ex Hcy Hcx Hgt). lia.
    + destruct (Z.compare_spec ex ey) as [Heq|Hlt|Hgt]; cbn.
      * subst ey. change (Pos.compare_cont Eq mx my) with (Pos.compare mx my).
        destruct (Pos.compare_spec mx my); cbn; try discriminate; intros _; nia.
      * intros _. pose proof (canonical_exponent_lt mx ex my ey Hcx Hcy Hlt). lia.
      * discriminate.
Qed.

(** *** The span of an axis *)

Lemma margin_value : dec 5 10 = S754_finite false 4503599627370496 (-53).
Proof. vm_compute. reflexivity. Qed.

Lemma exact_margin : exact (dec 5 10) = 2 ^ 73 * 2 ^ 1000.
Proof. vm_compute. reflexivity. Qed.

Lemma exact_16 : exact (of_Z 16) = 2 ^ 78 * 2 ^ 1000.
Proof. vm_compute. reflexivity. Qed.

Lemma exact_minus_16 : exact (of_Z (-16)) = - (2 ^ 78 * 2 ^ 1000).
Proof. vm_compute. reflexivity. Qed.

Lemma regular_16 : regular (of_Z 16) /\ regular (of_Z (-16)) /\ regular (dec 5 10).
Proof. vm_compute. repeat split; intros; discriminate. Qed.

Lemma moderate_exact x :
  moderate x ->
  regular x /\ - (2 ^ 78 * 2 ^ 1000) <= exact x <= 2 ^ 78 * 2 ^ 1000.
Proof.
  intros (Hv & Hlo & Hhi).
  destruct regular_16 as (R1 & R2 & _).
  assert (Hr : regular x).
  { apply valid_regular; [exact Hv|apply (leb_not_nan _ _ Hhi)|].
    intros [] ->; [vm_compute in Hlo|vm_compute in Hhi]; discriminate. }
  split; [exact Hr|].
  pose proof (leb_exact _ _ R2 Hr Hlo) as H1.
  pose proof (leb_exact _ _ Hr R1 Hhi) as H2.
  rewrite exact_minus_16 in H1. rewrite exact_16 in H2. lia.
Qed.

Lemma span_arith T lo hi st sp D U1 U2 U3 :
  1 <= T ->
  - (2 ^ 78 * T) <= lo -> lo <= hi -> hi <= 2 ^ 78 * T ->
  0 < U1 -> (U1 = 1 \/ U1 * 2 ^ 52 <= Z.abs (lo - 2 ^ 73 * T)) ->
  lo - 2 ^ 73 * T - U1 <= st <= lo - 2 ^ 73 * T + U1 ->
  0 < U2 -> (U2 = 1 \/ U2 * 2 ^ 52 <= Z.abs (hi + 2 ^ 73 * T)) ->
  hi + 2 ^ 73 * T - U2 <= sp <= hi + 2 ^ 73 * T + U2 ->
  0 < U3 -> (U3 = 1 \/ U3 * 2 ^ 52 <= Z.abs (sp - st)) ->
  sp - st - U3 <= D <= sp - st + U3 ->
  2 ^ 73 * T <= D < 2 ^ 80 * T /\
  Z.abs st <= 2 ^ 79 * T /\ Z.abs (D - (sp - st)) <= 2 ^ 29 * T.
Proof. lia. Qed.

(** The difference of the bounds handed to [np.arange] lies between one
    half and 64, and is the exact difference to within [2 ^ -45]. *)
Lemma axis_span lo hi :
  moderate lo -> moderate hi -> leb lo hi = true ->
  regular (sub lo (dec 5 10)) /\ regular (add hi (dec 5 10)) /\
  regular (sub (add hi (dec 5 10)) (sub lo (dec 5 10))) /\
  2 ^ 1073 <= exact (sub (add hi (dec 5 10)) (sub lo (dec 5 10))) < 2 ^ 1080 /\
  Z.abs (exact (sub lo (dec 5 10))) <= 2 ^ 79 * 2 ^ 1000 /\
  Z.abs (exact (sub (add hi (dec 5 10)) (sub lo (dec 5 10)))
         - (exact (add hi (dec 5 10)) - exact (sub lo (dec 5 10))))
    <= 2 ^ 29 * 2 ^ 1000.
Proof.
  intros Hlo Hhi Hle.
  destruct (moderate_exact lo Hlo) as [Rlo Blo].
  destruct (moderate_exact hi Hhi) as [Rhi Bhi].
  destruct regular_16 as (_ & _ & Rm).
  pose proof (leb_exact _ _ Rlo Rhi Hle) as Hord.
  assert (H1999 : 2 ^ 1999 = 2 ^ 999 * 2 ^ 1000) by (vm_compute; reflexivity).
  assert (H1073 : 2 ^ 1073 = 2 ^ 73 * 2 ^ 1000) by (vm_compute; reflexivity).
  assert (H1080 : 2 ^ 1080 = 2 ^ 80 * 2 ^ 1000) by (vm_compute; reflexivity).
  assert (HT : 1 <= 2 ^ 1000) by (pose proof (pow2_pos 1000); lia).
  destruct (sub_value lo (dec 5 10) Rlo Rm) as (U1 & Rst & HU1 & Hr1 & Hv1).
  { rewrite H1999. revert HT Blo. generalize (2 ^ 1000). lia. }
  { rewrite H1999, exact_margin. revert HT. generalize (2 ^ 1000). lia. }
  destruct (add_value hi (dec 5 10) Rhi Rm) as (U2 & Rsp & HU2 & Hr2 & Hv2).
  { rewrite H1999. revert HT Bhi. generalize (2 ^ 1000). lia. }
  { rewrite H1999, exact_margin. revert HT. generalize (2 ^ 1000). lia. }
  rewrite exact_margin in Hr1, Hv1, Hr2, Hv2.
  destruct (sub_value (add hi (dec 5 10)) (sub lo (dec 5 10)) Rsp Rst)
    as (U3 & RD & HU3 & Hr3 & Hv3).
  { rewrite H1999. revert HT Blo Bhi HU1 Hr1 Hv1 HU2 Hr2 Hv2.
    generalize (2 ^ 1000), (exact (add hi (dec 5 10))), (exact lo), (exact hi).
    lia. }
  { rewrite H1999. revert HT Blo Bhi HU1 Hr1 Hv1 HU2 Hr2 Hv2.
    generalize (2 ^ 1000), (exact (sub lo (dec 5 10))), (exact lo), (exact hi).
    lia. }
  split; [exact Rst|]. split; [exact Rsp|]. split; [exact RD|].
  rewrite H1073, H1080.
  exact (span_arith _ _ _ _ _ _ _ _ _ HT (proj1 Blo) Hord (proj2 Bhi)
           HU1 Hr1 Hv1 HU2 Hr2 Hv2 HU3 Hr3 Hv3).
Qed.

(** A regular number between two powers of two is a positive normal
    number, with its exponent in the matching range. *)
Lemma finite_shape x a b :
  regular x -> 53 <= a -> 2 ^ a <= exact x < 2 ^ b ->
  exists m e,
    x = S754_finite false m e /\ canonical m e /\
    a - 1126 <= e <= b - 1127 /\ 2 ^ 52 <= Zpos m < 2 ^ 53.
Proof.
  intros Hr Ha [Hlo Hhi].
  pose proof (pow2_pos a ltac:(lia)) as Hpa.
  destruct x as [s|s| |s m e]; try contradiction; cbn [exact] in *; [lia|].
  destruct Hr as [Hc _].
  destruct (canonical_bounds m e Hc) as (He & _ & _).
  pose proof (canonical_lt m e Hc) as Hm.
  pose proof (pow2_pos (e + 1074) ltac:(lia)) as HW.
  destruct s; [nia|]. rewrite Z.mul_1_l in Hlo, Hhi.
  assert (He1 : a - 1126 <= e).
  { assert (2 ^ a < 2 ^ (53 + (e + 1074))).
    { rewrite Z.pow_add_r by lia. nia. }
    apply pow2_lt_inv in H; lia. }
  pose proof (canonical_normal m e Hc ltac:(lia)) as Hn.
  exists m, e. split; [reflexivity|]. split; [exact Hc|]. split; [|exact Hn].
  split; [exact He1|].
  assert (2 ^ (52 + (e + 1074)) < 2 ^ b).
  { rewrite Z.pow_add_r by lia. nia. }
  assert (0 <= b).
  { destruct (Z_lt_le_dec b 0) as [Hb|]; [|assumption].
    rewrite (Z.pow_neg_r 2 b Hb) in Hhi. nia. }
  apply pow2_lt_inv in H; lia.
Qed.

(** The division of the span by the step, before rounding. *)
Lemma div_step_core m e :
  digits m = 53 -> -1000 <= e ->
  SFdiv_core_binary prec emax (Zpos m) e 5764607523034235 (-58)
  = (Zpos m * 2 ^ 53 / 5764607523034235, e + 5,
     new_location 5764607523034235 ((Zpos m * 2 ^ 53) mod 5764607523034235)).
Proof.
  intros Hd He. unfold SFdiv_core_binary. cbn [Zdigits2]. fold (digits m).
  rewrite Hd. change (Zpos (digits2_pos 5764607523034235)) with 53.
  cbv zeta. rewrite fexp_eq.
  replace (Z.min (Z.max (53 + e - (53 + -58) - 53) (-1074)) (e - -58))
    with (e + 5) by lia.
  replace (e - -58 - (e + 5)) with 53 by lia.
  rewrite Z.shiftl_mul_pow2 by lia.
  unfold Z.div, Z.modulo.
  destruct (Z.div_eucl (Zpos m * 2 ^ 53) 5764607523034235) as [q r].
  reflexivity.
Qed.

(** The span divided by the step: a positive normal number next to the
    integer quotient of the mantissas. *)
Lemma div_step m e :
  canonical m e -> -1000 <= e <= 900 -> 2 ^ 52 <= Zpos m < 2 ^ 53 ->
  exists mq eq,
    div (S754_finite false m e) (dec 2 100) = S754_finite false mq eq /\
    canonical mq eq /\ e + 5 <= eq <= e + 7 /\
    2 ^ 52 <= Zpos m * 2 ^ 53 / 5764607523034235 < 2 ^ 54 /\
    Zpos m * 2 ^ 53 / 5764607523034235 - 2
      < Zpos mq * 2 ^ (eq - (e + 5))
      <= Zpos m * 2 ^ 53 / 5764607523034235 + 2.
Proof.
  intros Hc He Hm.
  assert (Hd : digits m = 53) by (apply digits_unique; simpl; lia).
  rewrite step_value. unfold div. cbn [SFdiv xorb].
  rewrite (div_step_core m e Hd) by lia.
  pose proof (Z.div_mod (Zpos m * 2 ^ 53) 5764607523034235 ltac:(lia)) as Hdm.
  pose proof (Z.mod_pos_bound (Zpos m * 2 ^ 53) 5764607523034235 ltac:(lia)) as Hr.
  assert (Hq : 2 ^ 52 <= Zpos m * 2 ^ 53 / 5764607523034235 < 2 ^ 54) by lia.
  destruct (Zpos m * 2 ^ 53 / 5764607523034235) as [|q|q] eqn:Hq0; try lia.
  assert (Hdq : 53 <= digits q <= 54).
  { split.
    - assert (52 < digits q); [|lia]. apply digits_gt_of_le; lia.
    - apply digits_le_of_lt; lia. }
  destruct (round_value_aux false q (e + 5)
              (new_location 5764607523034235
                 ((Zpos m * 2 ^ 53) mod 5764607523034235)))
    as (mq & eq & Hres & Hcq & Hb & Hge & Hv).
  { lia. }
  { rewrite fexp_eq. lia. }
  { lia. }
  exists mq, eq. split; [exact Hres|]. split; [exact Hcq|].
  rewrite fexp_eq in Hge, Hv.
  assert (Hk : 2 ^ (Z.max (digits q + (e + 5) - 53) (-1074) - (e + 5)) <= 2).
  { transitivity (2 ^ 1); [apply Z.pow_le_mono_r; lia|reflexivity]. }
  pose proof (pow2_pos (Z.max (digits q + (e + 5) - 53) (-1074) - (e + 5))
                ltac:(lia)) as Hk0.
  pose proof (canonical_normal mq eq Hcq ltac:(lia)) as Hn.
  assert (Heq : eq <= e + 7).
  { destruct (Z_le_gt_dec eq (e + 7)) as [|Hgt]; [assumption|].
    assert (2 ^ 3 <= 2 ^ (eq - (e + 5))) by (apply Z.pow_le_mono_r; lia).
    nia. }
  split; [lia|]. split; [lia|]. lia.
Qed.

Lemma ceil_quotient mq eq :
  canonical mq eq -> -52 <= eq <= -1 -> 2 ^ 52 <= Zpos mq < 2 ^ 53 ->
  exists n,
    Numpy.arange_safe_ceil_to_intp (S754_finite false mq eq) = inr n /\
    2 ^ (52 + eq) <= n <= 2 ^ 53 /\
    (n - 1) * 2 ^ (- eq) < Zpos mq <= n * 2 ^ (- eq).
Proof.
  intros Hc He Hm. unfold Numpy.arange_safe_ceil_to_intp, ceil.
  replace (0 <=? eq) with false by (symmetry; apply Z.leb_gt; lia).
  pose proof (pow2_pos (- eq) ltac:(lia)) as Hp.
  assert (Hlo : - Zpos mq <= - Zpos mq / 2 ^ (- eq)).
  { apply Z.div_le_lower_bound; [lia|]. nia. }
  assert (Hhi : - Zpos mq / 2 ^ (- eq) <= - 2 ^ (52 + eq)).
  { apply Z.div_le_upper_bound; [lia|].
    replace (2 ^ (- eq) * - 2 ^ (52 + eq)) with (- (2 ^ (- eq) * 2 ^ (52 + eq)))
      by ring.
    rewrite <- Z.pow_add_r by lia. replace (- eq + (52 + eq)) with 52 by lia. lia. }
  pose proof (pow2_pos (52 + eq) ltac:(lia)) as Hp2.
  unfold Numpy.intp_max.
  replace ((- 2 ^ 63 <=? - (- Zpos mq / 2 ^ (- eq)))
           && (- (- Zpos mq / 2 ^ (- eq)) <=? 2 ^ 63)) with true.
  - eexists. split; [reflexivity|]. split; [lia|].
    pose proof (Z.div_mod (- Zpos mq) (2 ^ (- eq)) ltac:(lia)) as Hdm.
    pose proof (Z.mod_pos_bound (- Zpos mq) (2 ^ (- eq)) Hp) as Hmod.
    nia.
  - symmetry. apply andb_true_intro. split; apply Z.leb_le; lia.
Qed.

Lemma fold_minimum_In r : forall x, In (fold_left Numpy.minimum r x) (x :: r).
Proof.
  induction r as [|a r IH]; intros x; cbn [fold_left]; [now left|].
  destruct (IH (Numpy.minimum x a)) as [Heq|Hin].
  - rewrite <- Heq. unfold Numpy.minimum.
    destruct (_ || _); [now left|right; now left].
  - right. now right.
Qed.

Lemma fold_maximum_In r : forall x, In (fold_left Numpy.maximum r x) (x :: r).
Proof.
  induction r as [|a r IH]; intros x; cbn [fold_left]; [now left|].
  destruct (IH (Numpy.maximum x a)) as [Heq|Hin].
  - rewrite <- Heq. unfold Numpy.maximum.
    destruct (_ || _); [now left|right; now left].
  - right. now right.
Qed.

Lemma moderate_not_nan x : moderate x -> is_nan x = false.
Proof. intros (_ & _ & Hhi). apply (leb_not_nan _ _ Hhi). Qed.

(** The extremes of a non-empty list of moderate doubles. *)
Lemma moderate_extremes a :
  a <> [] -> (forall v, In v a -> moderate v) ->
  exists lo hi,
    Numpy.amin a = inr lo /\ Numpy.amax a = inr hi /\
    least lo a /\ greatest hi a /\
    moderate lo /\ moderate hi /\ leb lo hi = true.
Proof.
  intros Hne Hmod. destruct a as [|x r]; [congruence|].
  exists (fold_left Numpy.minimum r x), (fold_left Numpy.maximum r x).
  pose proof (fold_minimum_In r x) as Hlo.
  pose proof (fold_maximum_In r x) as Hhi.
  assert (Hl : least (fold_left Numpy.minimum r x) (x :: r)).
  { apply NumpyFacts.fold_minimum_spec, moderate_not_nan. now apply Hmod. }
  assert (Hg : greatest (fold_left Numpy.maximum r x) (x :: r)).
  { apply NumpyFacts.fold_maximum_spec, moderate_not_nan. now apply Hmod. }
  split; [reflexivity|]. split; [reflexivity|].
  split; [exact Hl|]. split; [exact Hg|].
  split; [now apply Hmod|]. split; [now apply Hmod|].
  apply Hl. exact Hhi.
Qed.

(** *** Exact results *)

(** A canonical number is rounded to itself. *)
Lemma round_aux_exact s m e :
  canonical m e -> e <= emax - prec ->
  binary_round_aux prec emax s (Zpos m) e loc_Exact = S754_finite s m e.
Proof.
  intros Hc Hb. unfold binary_round_aux, shr_fexp. cbn [Zdigits2].
  fold (digits m). unfold canonical in Hc. rewrite Hc, Z.sub_diag.
  cbn [shr shr_record_of_loc shr_m loc_of_shr_record round_nearest_even
       Zdigits2].
  fold (digits m). rewrite Hc, Z.sub_diag. cbn [shr shr_m].
  replace (e <=? emax - prec) with true by (symmetry; now apply Z.leb_le).
  reflexivity.
Qed.

(** A positive integer below [2 ^ 53] is a double. *)
Lemma of_Z_exact i :
  0 < i < 2 ^ 53 ->
  exists m e,
    of_Z i = S754_finite false m e /\ canonical m e /\
    -52 <= e <= 0 /\ 2 ^ 52 <= Zpos m < 2 ^ 53 /\
    Zpos m * 2 ^ (e + 1074) = i * 2 ^ 1074.
Proof.
  intros [Hlo Hhi]. destruct i as [|p|p]; try lia.
  unfold of_Z. cbn [binary_normalize]. unfold binary_round. fold (digits p).
  pose proof (digits_spec p) as [Hplo Hphi]. pose proof (digits_pos p).
  assert (Hd : digits p <= 53) by (apply digits_le_of_lt; lia).
  rewrite Z.add_0_r, fexp_eq.
  replace (Z.max (digits p - 53) (-1074)) with (digits p - 53) by lia.
  destruct (shl_align_spec p 0 (digits p - 53)) as [Hez Hmz].
  destruct (shl_align p 0 (digits p - 53)) as [mz ez]. cbn [fst snd] in Hez, Hmz.
  rewrite Z.min_r in Hez, Hmz by lia. subst ez.
  assert (Hdz : digits mz = 53).
  { rewrite (digits_shift p (0 - (digits p - 53)) mz) by (lia || exact Hmz). lia. }
  assert (Hc : canonical mz (digits p - 53)).
  { unfold canonical. rewrite Hdz, fexp_eq. lia. }
  rewrite (round_aux_exact false mz (digits p - 53) Hc)
    by (unfold emax, prec; lia).
  exists mz, (digits p - 53). split; [reflexivity|]. split; [exact Hc|].
  split; [lia|]. split.
  - pose proof (digits_spec mz) as Hs. rewrite Hdz in Hs. exact Hs.
  - rewrite Hmz, <- Z.mul_assoc, <- Z.pow_add_r by lia. do 2 f_equal. lia.
Qed.

(** The product of two positive normal numbers is within one unit in
    the last place of the exact one. *)
Lemma mul_value mx ex my ey :
  2 ^ 52 <= Zpos mx < 2 ^ 53 -> 2 ^ 52 <= Zpos my < 2 ^ 53 ->
  -1074 <= ex + ey <= 900 ->
  exists mr er U,
    mul (S754_finite false mx ex) (S754_finite false my ey)
    = S754_finite false mr er /\
    canonical mr er /\ er <= emax - prec /\
    0 < U /\ U * 2 ^ 51 <= Zpos mx * Zpos my * 2 ^ (ex + ey + 1074) /\
    Zpos mx * Zpos my * 2 ^ (ex + ey + 1074) - U
      <= Zpos mr * 2 ^ (er + 1074)
      <= Zpos mx * Zpos my * 2 ^ (ex + ey + 1074) + U.
Proof.
  intros Hmx Hmy He. unfold mul. cbn [SFmul xorb].
  set (p := (mx * my)%positive).
  assert (Hp : Zpos p = Zpos mx * Zpos my) by (unfold p; apply Pos2Z.inj_mul).
  assert (Hpb : 2 ^ 104 <= Zpos p < 2 ^ 106).
  { rewrite Hp. change (2 ^ 104) with (2 ^ 52 * 2 ^ 52).
    change (2 ^ 106) with (2 ^ 53 * 2 ^ 53). nia. }
  assert (Hd : 105 <= digits p <= 106).
  { split.
    - assert (104 < digits p); [|lia]. apply digits_gt_of_le; lia.
    - apply digits_le_of_lt; lia. }
  destruct (round_value_aux false p (ex + ey) loc_Exact)
    as (mr & er & Hres & Hc & Hb & Hge & Hv).
  { lia. }
  { rewrite fexp_eq. lia. }
  { lia. }
  rewrite fexp_eq in Hge, Hv.
  replace (Z.max (digits p + (ex + ey) - 53) (-1074))
    with (digits p + (ex + ey) - 53) in Hge, Hv by lia.
  replace (digits p + (ex + ey) - 53 - (ex + ey)) with (digits p - 53) in Hv by lia.
  pose proof (pow2_pos (ex + ey + 1074) ltac:(lia)) as HW.
  pose proof (pow2_pos (digits p - 53) ltac:(lia)) as Hk.
  pose proof (digits_spec p) as [Hplo _].
  exists mr, er, (2 ^ (digits p - 53) * 2 ^ (ex + ey + 1074)).
  split; [exact Hres|]. split; [exact Hc|]. split; [exact Hb|].
  split; [nia|]. rewrite <- Hp. split.
  - assert (2 ^ (digits p - 53) * 2 ^ 51 <= Zpos p); [|nia].
    rewrite <- Z.pow_add_r by lia.
    transitivity (2 ^ (digits p - 1)); [apply Z.pow_le_mono_r; lia|exact Hplo].
  - assert (HR : Zpos mr * 2 ^ (er + 1074)
                 = Zpos mr * 2 ^ (er - (ex + ey)) * 2 ^ (ex + ey + 1074)).
    { rewrite <- Z.mul_assoc, <- Z.pow_add_r by lia. do 2 f_equal. lia. }
    rewrite HR. nia.
Qed.

(** *** The coordinates of an axis *)

Lemma exact_step : exact (dec 2 100) = 5764607523034235 * 2 ^ 16 * 2 ^ 1000.
Proof. vm_compute. reflexivity. Qed.

Lemma regular_step : regular (dec 2 100).
Proof. vm_compute. split; [reflexivity|discriminate]. Qed.

Lemma pow_1999 : 2 ^ 1999 = 2 ^ 999 * 2 ^ 1000.
Proof. vm_compute. reflexivity. Qed.

Lemma pow_1000_pos : 1 <= 2 ^ 1000.
Proof. pose proof (pow2_pos 1000). lia. Qed.

Lemma increment_arith T s a1 d Ua Ud :
  1 <= T -> Z.abs s <= 2 ^ 79 * T ->
  0 < Ua ->
  (Ua = 1 \/ Ua * 2 ^ 52 <= Z.abs (s + 5764607523034235 * 2 ^ 16 * T)) ->
  s + 5764607523034235 * 2 ^ 16 * T - Ua <= a1
    <= s + 5764607523034235 * 2 ^ 16 * T + Ua ->
  0 < Ud -> (Ud = 1 \/ Ud * 2 ^ 52 <= Z.abs (a1 - s)) ->
  a1 - s - Ud <= d <= a1 - s + Ud ->
  Z.abs (a1 - (s + 5764607523034235 * 2 ^ 16 * T)) <= 2 ^ 28 * T /\
  Z.abs (d - 5764607523034235 * 2 ^ 16 * T) <= 2 ^ 29 * T /\
  2 ^ 68 * T <= d < 2 ^ 69 * T.
Proof. lia. Qed.

(** The increment [(start + 0.02) - start] that [np.arange] fills the
    array with is 0.02 to within [2 ^ -45]. *)
Lemma increment_value start :
  regular start -> Z.abs (exact start) <= 2 ^ 79 * 2 ^ 1000 ->
  regular (add start (dec 2 100)) /\
  Z.abs (exact (add start (dec 2 100)) - (exact start + exact (dec 2 100)))
    <= 2 ^ 28 * 2 ^ 1000 /\
  exists md,
    sub (add start (dec 2 100)) start = S754_finite false md (-58) /\
    canonical md (-58) /\ 2 ^ 52 <= Zpos md < 2 ^ 53 /\
    Z.abs (Zpos md * 2 ^ 1016 - exact (dec 2 100)) <= 2 ^ 29 * 2 ^ 1000.
Proof.
  intros Rs Bs. pose proof pow_1000_pos as HT.
  destruct (add_value start (dec 2 100) Rs regular_step)
    as (Ua & Ra & HUa & Hra & Hva).
  { rewrite pow_1999. revert HT Bs. generalize (2 ^ 1000). lia. }
  { rewrite pow_1999, exact_step. revert HT. generalize (2 ^ 1000). lia. }
  rewrite exact_step in *.
  destruct (sub_value (add start (dec 2 100)) start Ra Rs)
    as (Ud & Rd & HUd & Hrd & Hvd).
  { rewrite pow_1999. revert HT Bs HUa Hra Hva.
    generalize (2 ^ 1000), (exact (add start (dec 2 100))), (exact start). lia. }
  { rewrite pow_1999. revert HT Bs. generalize (2 ^ 1000). lia. }
  destruct (increment_arith _ _ _ _ _ _ HT Bs HUa Hra Hva HUd Hrd Hvd)
    as (H1 & H2 & H3).
  split; [exact Ra|]. split; [exact H1|].
  destruct (finite_shape _ 1068 1069 Rd ltac:(lia)) as (md & e & Hd & Hc & He & Hm).
  { change (2 ^ 1068) with (2 ^ 68 * 2 ^ 1000).
    change (2 ^ 1069) with (2 ^ 69 * 2 ^ 1000). exact H3. }
  assert (e = -58) by lia. subst e.
  exists md. split; [exact Hd|]. split; [exact Hc|]. split; [exact Hm|].
  rewrite Hd in H2. cbn [exact] in H2. rewrite Z.mul_1_l in H2.
  change (-58 + 1074) with 1016 in H2. exact H2.
Qed.

Lemma product_arith T jH Pv P UP :
  1 <= T -> 0 <= jH <= 2 ^ 81 * T -> Z.abs (Pv - jH) <= 2 ^ 41 * T ->
  0 < UP -> UP * 2 ^ 51 <= Pv -> Pv - UP <= P <= Pv + UP ->
  Z.abs P < 2 ^ 999 * T /\ Z.abs (P - jH) <= 2 ^ 41 * T + 2 ^ 31 * T.
Proof. lia. Qed.

Lemma coordinate_arith T s jH P c Uc :
  1 <= T -> Z.abs s <= 2 ^ 79 * T -> 0 <= jH <= 2 ^ 81 * T ->
  Z.abs (P - jH) <= 2 ^ 41 * T + 2 ^ 31 * T ->
  0 < Uc -> (Uc = 1 \/ Uc * 2 ^ 52 <= Z.abs (s + P)) ->
  s + P - Uc <= c <= s + P + Uc ->
  Z.abs (c - (s + jH)) <= 2 ^ 42 * T.
Proof. lia. Qed.

(** Coordinate [i] of an axis is [start + i * 0.02] to within [2 ^ -32]. *)
Lemma coordinate_value start (i : nat) :
  regular start -> Z.abs (exact start) <= 2 ^ 79 * 2 ^ 1000 ->
  (i < 4096)%nat ->
  regular (coordinate start (dec 2 100) i) /\
  Z.abs (exact (coordinate start (dec 2 100) i)
         - (exact start + Z.of_nat i * exact (dec 2 100)))
    <= 2 ^ 42 * 2 ^ 1000.
Proof.
  intros Rs Bs Hi. pose proof pow_1000_pos as HT.
  destruct (increment_value start Rs Bs) as (Ra & Ha & md & Hd & Hcd & Hmd & HB).
  destruct i as [|[|i]].
  - cbn [coordinate]. split; [exact Rs|].
    replace (exact start - (exact start + Z.of_nat 0 * exact (dec 2 100)))
      with 0 by (change (Z.of_nat 0) with 0; ring).
    revert HT. generalize (2 ^ 1000). lia.
  - cbn [coordinate]. split; [exact Ra|].
    change (Z.of_nat 1) with 1. rewrite Z.mul_1_l.
    revert HT Ha. generalize (2 ^ 1000). lia.
  - set (j := Z.of_nat (S (S i))). assert (Hj : 2 <= j < 4096) by (unfold j; lia).
    change (coordinate start (dec 2 100) (S (S i)))
      with (add start (mul (of_Z j) (sub (add start (dec 2 100)) start))).
    destruct (of_Z_exact j ltac:(lia)) as (mI & eI & HI & HcI & HeI & HmI & HvI).
    rewrite HI, Hd.
    destruct (mul_value mI eI md (-58) HmI Hmd ltac:(lia))
      as (mr & er & UP & HP & Hcr & Hbr & HUP & HrP & HvP).
    rewrite HP.
    (* the exact product is [j] times the increment *)
    assert (Hprod : Zpos mI * Zpos md * 2 ^ (eI + -58 + 1074)
                    = j * (Zpos md * 2 ^ 1016)).
    { assert (Hc58 : Zpos mI * 2 ^ (eI + 1016) = j * 2 ^ 1016).
      { apply (Z.mul_reg_r _ _ (2 ^ 58)); [lia|].
        rewrite <- !Z.mul_assoc, <- !Z.pow_add_r by lia.
        replace (eI + 1016 + 58) with (eI + 1074) by lia. exact HvI. }
      replace (eI + -58 + 1074) with (eI + 1016) by lia.
      transitivity (Zpos md * (Zpos mI * 2 ^ (eI + 1016))); [ring|].
      rewrite Hc58. ring. }
    rewrite Hprod in HrP, HvP.
    rewrite exact_step in *.
    set (B := Zpos md * 2 ^ 1016) in *.
    set (H := 5764607523034235 * 2 ^ 16 * 2 ^ 1000) in *.
    assert (HjH : 0 <= j * H <= 2 ^ 81 * 2 ^ 1000).
    { unfold H. revert HT. generalize (2 ^ 1000). intros T HT. nia. }
    assert (HjB : Z.abs (j * B - j * H) <= 2 ^ 41 * 2 ^ 1000).
    { rewrite <- Z.mul_sub_distr_l, Z.abs_mul, (Z.abs_eq j) by lia.
      revert HT HB. generalize (2 ^ 1000), (Z.abs (B - H)). intros T d HT Hd'. nia. }
    destruct (product_arith _ _ _ _ _ HT HjH HjB HUP HrP HvP) as [HPb HPe].
    assert (RP : regular (S754_finite false mr er)) by (split; assumption).
    destruct (add_value start (S754_finite false mr er) Rs RP)
      as (Uc & Rc & HUc & Hrc & Hvc).
    { rewrite pow_1999. revert HT Bs. generalize (2 ^ 1000). lia. }
    { rewrite pow_1999. cbn [exact]. rewrite Z.mul_1_l. exact HPb. }
    split; [exact Rc|].
    cbn [exact] in Hrc, Hvc. rewrite Z.mul_1_l in Hrc, Hvc.
    exact (coordinate_arith _ _ _ _ _ _ HT Bs HjH HPe HUc Hrc Hvc).
Qed.

(** *** The extent of an axis *)

Lemma pow_1016 : 2 ^ 1016 = 2 ^ 16 * 2 ^ 1000.
Proof. vm_compute. reflexivity. Qed.

(** The number of coordinates of an axis, against the exact quotient of
    the span and the step. *)
Lemma axis_count m e :
  canonical m e -> -53 <= e <= -47 -> 2 ^ 52 <= Zpos m < 2 ^ 53 ->
  exists n,
    Numpy.arange_safe_ceil_to_intp (div (S754_finite false m e) (dec 2 100))
      = inr n /\
    2 <= n < 4096 /\
    (n - 1) * (5764607523034235 * 2 ^ 16 * 2 ^ 1000)
      <= Zpos m * 2 ^ (e + 1074) + 2 ^ 27 * 2 ^ 1000 /\
    Zpos m * 2 ^ (e + 1074) - 2 ^ 28 * 2 ^ 1000
      < n * (5764607523034235 * 2 ^ 16 * 2 ^ 1000).
Proof.
  intros Hc He Hm.
  destruct (div_step m e Hc ltac:(lia) Hm)
    as (mq & eq & Hq & Hcq & Heq & Hq0 & HQ).
  pose proof (canonical_normal mq eq Hcq ltac:(lia)) as Hmq.
  destruct (ceil_quotient mq eq Hcq ltac:(lia) Hmq) as (n & Hn & _ & Hceil).
  exists n. rewrite Hq. split; [exact Hn|].
  pose proof (Z.div_mod (Zpos m * 2 ^ 53) 5764607523034235 ltac:(lia)) as Hdm.
  pose proof (Z.mod_pos_bound (Zpos m * 2 ^ 53) 5764607523034235 ltac:(lia)) as Hr.
  set (q0 := Zpos m * 2 ^ 53 / 5764607523034235) in *.
  set (r := (Zpos m * 2 ^ 53) mod 5764607523034235) in *.
  (* the scale of the quotient *)
  set (a := - (e + 5)).
  assert (Ha : 2 ^ a = 2 ^ (- eq) * 2 ^ (eq - (e + 5))).
  { rewrite <- Z.pow_add_r by lia. f_equal. unfold a. lia. }
  pose proof (pow2_pos (- eq) ltac:(lia)) as Hk.
  pose proof (pow2_pos (eq - (e + 5)) ltac:(lia)) as Hw.
  assert (Hup : (n - 1) * 2 ^ a <= q0 + 1).
  { rewrite Ha. nia. }
  assert (Hdn : q0 - 1 <= n * 2 ^ a).
  { rewrite Ha. nia. }
  assert (Ha42 : 2 ^ 42 <= 2 ^ a) by (apply Z.pow_le_mono_r; unfold a; lia).
  assert (Ha48 : 2 ^ a <= 2 ^ 48) by (apply Z.pow_le_mono_r; unfold a; lia).
  assert (Hn2 : 2 <= n < 4096).
  { split; [nia|].
    assert (5764607523034235 * ((n - 1) * 2 ^ a) < 2 ^ 106 + 5764607523034235) by nia.
    nia. }
  split; [exact Hn2|].
  (* back to the exact span *)
  set (G := 2 ^ (e + 1021)).
  assert (HG : 0 < G) by (apply pow2_pos; lia).
  assert (HaG : 2 ^ a * G = 2 ^ 1016).
  { unfold G. rewrite <- Z.pow_add_r by (unfold a; lia). f_equal. unfold a. lia. }
  assert (H53 : 2 ^ 53 * G = 2 ^ (e + 1074)).
  { unfold G. rewrite <- Z.pow_add_r by lia. f_equal. lia. }
  assert (HGb : G * 2 ^ 26 <= 2 ^ 1000).
  { unfold G. rewrite <- Z.pow_add_r by lia. apply Z.pow_le_mono_r; lia. }
  rewrite pow_1016 in HaG.
  assert (HD : Zpos m * 2 ^ (e + 1074) = (5764607523034235 * q0 + r) * G).
  { rewrite <- Hdm, <- H53. ring. }
  assert (HH : forall z, z * (5764607523034235 * 2 ^ 16 * 2 ^ 1000)
                         = 5764607523034235 * (z * 2 ^ a) * G).
  { intros z. rewrite <- (Z.mul_assoc _ (2 ^ 16)), <- HaG. ring. }
  rewrite !HH, HD. split.
  - assert (5764607523034235 * ((n - 1) * 2 ^ a) * G
            <= 5764607523034235 * (q0 + 1) * G) by nia.
    nia.
  - assert (5764607523034235 * (q0 - 1) * G
            <= 5764607523034235 * (n * 2 ^ a) * G) by nia.
    nia.
Qed.

Lemma tolerance_value : tolerance = 2 ^ 44 * 2 ^ 1000.
Proof. vm_compute. reflexivity. Qed.

Lemma spans_arith T H s sp D nH iH c :
  1 <= T -> 0 <= H ->
  Z.abs (D - (sp - s)) <= 2 ^ 29 * T ->
  nH - H <= D + 2 ^ 27 * T -> D - 2 ^ 28 * T < nH ->
  iH <= nH - H ->
  Z.abs (c - (s + iH)) <= 2 ^ 42 * T ->
  c <= sp + 2 ^ 44 * T /\
  (iH = nH - H -> sp - H - 2 ^ 44 * T <= c).
Proof. lia. Qed.

(** The axis over a least and a greatest value of moderate size: at
    least two coordinates, from the lower bound to within a step of the
    upper one. *)
Lemma axis_spans lo hi :
  moderate lo -> moderate hi -> leb lo hi = true ->
  exists xs,
    Numpy.arange (sub lo (dec 5 10)) (add hi (dec 5 10)) (dec 2 100) = inr xs /\
    (2 <= length xs)%nat /\
    spans (sub lo (dec 5 10)) (add hi (dec 5 10)) xs.
Proof.
  intros Hlo Hhi Hle. pose proof pow_1000_pos as HT.
  destruct (axis_span lo hi Hlo Hhi Hle) as (Rst & Rsp & RD & HD & Bst & HDe).
  destruct (finite_shape _ 1073 1080 RD ltac:(lia) HD)
    as (m & e & HDf & Hc & He & Hm).
  destruct (axis_count m e Hc ltac:(lia) Hm) as (n & Hn & Hn2 & Hup & Hdn).
  rewrite HDf in HDe. cbn [exact] in HDe. rewrite Z.mul_1_l in HDe.
  (* the array *)
  assert (Hxs : exists xs,
    Numpy.arange (sub lo (dec 5 10)) (add hi (dec 5 10)) (dec 2 100) = inr xs).
  { unfold Numpy.arange. rewrite HDf, Hn.
    cbn [Numpy.arange_length mbind result_bind].
    destruct (n <=? 0); [eauto|]. destruct (n =? 1); eauto. }
  destruct Hxs as (xs & Hxs). exists xs. split; [exact Hxs|].
  destruct (ArangeFacts.arange_spec _ _ _ _ Hxs) as (n' & Hn' & Hlen & Hnth).
  rewrite HDf, Hn in Hn'. injection Hn' as <-.
  assert (Hl2 : (2 <= length xs)%nat) by lia.
  split; [exact Hl2|].
  (* every coordinate, in exact terms *)
  set (H := 5764607523034235 * 2 ^ 16 * 2 ^ 1000) in *.
  assert (HH : 0 <= H) by (unfold H; lia).
  assert (Hcoord : forall (i : nat) c, xs !! i = Some c ->
            (i < length xs)%nat /\ regular c /\
            Z.abs (exact c - (exact (sub lo (dec 5 10)) + Z.of_nat i * H))
              <= 2 ^ 42 * 2 ^ 1000).
  { intros i c Hi. pose proof (lookup_lt_Some _ _ _ Hi) as Hlt.
    rewrite (Hnth i Hlt) in Hi. injection Hi as <-.
    split; [exact Hlt|]. unfold H. rewrite <- exact_step.
    apply coordinate_value; [exact Rst|exact Bst|lia]. }
  assert (Hstep : forall (i : nat), (i < length xs)%nat ->
            Z.of_nat i * H <= n * H - H).
  { intros i Hi. replace (n * H - H) with ((n - 1) * H) by ring.
    apply Z.mul_le_mono_nonneg_r; lia. }
  assert (Hvalid : valid lo = true) by apply Hlo.
  unfold spans. rewrite tolerance_value, exact_step. fold H.
  replace ((n - 1) * H) with (n * H - H) in Hup by ring.
  split; [|split; [|split]].
  - apply ArangeFacts.arange_head with (1 := Hxs). intros ->. simpl in Hl2. lia.
  - intros c Hin. apply list_elem_of_In, list_elem_of_lookup in Hin as (i & Hi).
    destruct (Hcoord i c Hi) as (Hlt & Rc & Hv).
    split; [exact Rc|]. split.
    + apply leb_exact; [exact Rst|exact Rc|].
      apply (RoundingFacts.grid_axis_lower_bound lo _ xs Hvalid Hxs).
      apply list_elem_of_In, list_elem_of_lookup. eauto.
    + exact (proj1 (spans_arith _ _ _ _ _ _ _ _ HT HH HDe Hup Hdn
                      (Hstep i Hlt) Hv)).
  - destruct (xs !! pred (length xs)) as [c|] eqn:Hlast.
    2:{ apply lookup_ge_None in Hlast. lia. }
    exists c. split; [rewrite last_lookup; exact Hlast|].
    destruct (Hcoord _ c Hlast) as (Hlt & Rc & Hv).
    pose proof (spans_arith _ _ _ _ _ _ _ _ HT HH HDe Hup Hdn
                  (Hstep _ Hlt) Hv) as [_ Hlow].
    apply Hlow. replace (Z.of_nat (pred (length xs))) with (n - 1) by lia. ring.
  - intros i c c' Hi Hi'.
    destruct (Hcoord i c Hi) as (_ & _ & Hv).
    destruct (Hcoord (S i) c' Hi') as (_ & _ & Hv').
    replace (Z.of_nat (S i) * H) with (Z.of_nat i * H + H) in Hv' by lia.
    revert HT Hv Hv'.
    generalize (2 ^ 1000), (exact c), (exact c'), (Z.of_nat i * H),
      (exact (sub lo (dec 5 10))).
    lia.
Qed.

End ValueFacts.

(** ** Running the cells *)

Module RunFacts.
Section WithBackend.
Context `{Backend}.

Import Models Playground GridFacts.

Lemma bind_run {A B} (m : M A) (k : A -> M B) nb :
  (m ≫= k) nb
  = match m nb with
    | (inl e, nb') => (inl e, nb')
    | (inr a, nb') => k a nb'
    end.
Proof. reflexivity. Qed.

Lemma bind_lift {A B} (r : Result A) (k : A -> M B) nb :
  (lift r ≫= k) nb
  = match r with inl e => (inl e, nb) | inr a => k a nb end.
Proof. now destruct r. Qed.

Lemma bind_modify {B} f (k : unit -> M B) nb :
  (modify f ≫= k) nb = k tt (f nb).
Proof. reflexivity. Qed.

Lemma bind_ret {A B} (a : A) (k : A -> M B) nb :
  (mret a ≫= k) nb = k a nb.
Proof. reflexivity. Qed.

Lemma bind_gets {A B} (f : Nb.Notebook -> A) (k : A -> M B) nb :
  (gets f ≫= k) nb = k (f nb) nb.
Proof. reflexivity. Qed.

(** *** Drawing on an axes object *)

Lemma on_axes_at ax f nb a :
  Nb.axes_at ax nb = Some a ->
  Nb.axes_at ax (snd (Plt.on_axes ax f nb)) = Some (f a).
Proof.
  unfold Nb.axes_at, Plt.on_axes, modify. simpl.
  rewrite list_lookup_alter_eq.
  destruct (Nb.figures nb !! Pyplot.fig_num ax) as [fig|]; simpl; [|discriminate].
  rewrite list_lookup_alter_eq. now intros ->.
Qed.

Lemma predict_grid model xs ys :
  xs <> [] -> ys <> [] ->
  predict model (Numpy.ravel (on_grid (fun xv yv => (xv, yv)) xs ys))
  = inr (Numpy.ravel (on_grid
           (fun xv yv => forward (layers model) (variables model) (xv, yv))
           xs ys)).
Proof.
  intros Hxs Hys. unfold predict.
  destruct (Numpy.ravel (on_grid (fun xv yv => (xv, yv)) xs ys)) eqn:Hpts.
  - apply ravel_nil in Hpts. tauto.
  - rewrite <- Hpts. now rewrite map_ravel.
Qed.

Ltac step_lift :=
  rewrite bind_lift;
  match goal with
  | |- context [match ?r with inl _ => _ | inr _ => _ end] =>
      destruct r as [?e|?v] eqn:?E
  end; [discriminate|]; cbv beta iota.

Lemma pdb_inv model X y ax nb nb' :
  plot_decision_boundary model X y ax nb = (inr tt, nb') ->
  exists xs ys,
    grid_axes X = inr (xs, ys) /\
    (2 <= length xs)%nat /\ (2 <= length ys)%nat /\
    (length y = length X \/ Plt.single_colour y = true) /\
    nb' = after_draw model X y ax xs ys nb.
Proof.
  unfold plot_decision_boundary, grid_axes, log.
  rewrite bind_modify.
  do 6 step_lift.
  rename v3 into xs, v4 into ys.
  rewrite meshgrid_on_grid. cbv beta iota.
  rewrite bind_lift, c_ravel.
  destruct (ravel_nil (fun xv yv => (xv, yv)) xs ys) as [Hnil1 Hnil2].
  rewrite bind_lift.
  destruct (Numpy.ravel (on_grid (fun xv yv => (xv, yv)) xs ys)) as [|p pts] eqn:Hpts.
  { simpl. discriminate. }
  assert (Hxs : xs <> []) by (intros ->; discriminate Hnil2; auto).
  assert (Hys : ys <> []) by (intros ->; discriminate Hnil2; auto).
  rewrite <- Hpts, (predict_grid model xs ys Hxs Hys). clear Hpts Hnil1 Hnil2 p pts.
  unfold Numpy.gt_astype_int. rewrite map_ravel.
  rewrite bind_lift, reshape_ravel by assumption. cbv beta iota.
  fold (class_of model).
  rewrite bind_run. unfold Plt.contourf.
  rewrite !on_grid_shape.
  rewrite !bool_decide_eq_true_2 by reflexivity.
  cbn [negb andb fst snd].
  destruct ys as [|y0 ys']; [congruence|]. 
  destruct (length (y0 :: ys') <? 2)%nat eqn:Hly; [simpl; discriminate|].
  destruct (length xs <? 2)%nat eqn:Hlx; [simpl; discriminate|].
  cbn [orb]. unfold Plt.on_axes at 1. unfold modify at 1. cbv beta iota.
  rewrite bind_run. unfold Plt.scatter. rewrite !length_map, Nat.eqb_refl.
  cbn [negb].
  destruct ((length y =? length X)%nat || Plt.single_colour y) eqn:Hy;
    [|simpl; discriminate].
  intros Hrun. exists xs, (y0 :: ys'). split.
  { cbn [mbind result_bind]. rewrite E3. cbn [mbind result_bind].
    rewrite E4. reflexivity. }
  apply Nat.ltb_ge in Hly, Hlx.
  apply orb_true_iff in Hy. rewrite Nat.eqb_eq in Hy.
  repeat split; try assumption.
  unfold after_draw. rewrite meshgrid_on_grid.
  injection Hrun as <-. reflexivity.
Qed.

Lemma pdb_ok model X y ax nb xs ys :
  grid_axes X = inr (xs, ys) ->
  (2 <= length xs)%nat -> (2 <= length ys)%nat ->
  length y = length X ->
  plot_decision_boundary model X y ax nb
  = (inr tt, after_draw model X y ax xs ys nb).
Proof.
  unfold plot_decision_boundary, grid_axes, log.
  intros Hgrid Hlx Hly Hy.
  rewrite bind_modify.
  revert Hgrid.
  repeat (rewrite bind_lift;
    match goal with
    | |- context [match ?r with inl _ => _ | inr _ => _ end] =>
        destruct r as [?e|?v] eqn:?E
    end; [discriminate|]; cbv beta iota; cbn [mbind result_bind]).
  intros [= -> ->].
  assert (Hxs : xs <> []) by (intros ->; simpl in Hlx; lia).
  assert (Hys : ys <> []) by (intros ->; simpl in Hly; lia).
  rewrite meshgrid_on_grid. cbv beta iota.
  rewrite bind_lift, c_ravel.
  rewrite bind_lift, (predict_grid model xs ys Hxs Hys).
  unfold Numpy.gt_astype_int. rewrite map_ravel.
  rewrite bind_lift, reshape_ravel by assumption. cbv beta iota.
  fold (class_of model).
  rewrite bind_run. unfold Plt.contourf.
  rewrite !on_grid_shape.
  rewrite !bool_decide_eq_true_2 by reflexivity.
  cbn [negb andb fst snd].
  destruct ys as [|y0 ys']; [congruence|].
  apply Nat.ltb_ge in Hly, Hlx. rewrite Hly, Hlx.
  cbn [orb]. unfold Plt.on_axes at 1. unfold modify at 1. cbv beta iota.
  rewrite bind_run. unfold Plt.scatter. rewrite !length_map, Nat.eqb_refl.
  apply Nat.eqb_eq in Hy. rewrite Hy.
  cbn [negb orb]. unfold after_draw. rewrite meshgrid_on_grid. reflexivity.
Qed.

Lemma after_draw_axes model X y ax xs ys nb a :
  Nb.axes_at ax nb = Some a ->
  Nb.axes_at ax (after_draw model X y ax xs ys nb)
  = Some (drawn model X y xs ys a).
Proof.
  intros Hax. unfold after_draw, Plt.set_ylabel, Plt.set_xlabel.
  cbv zeta.
  assert (H0 : Nb.axes_at ax (snd (log Call_plot_decision_boundary nb)) = Some a)
    by exact Hax.
  pose proof (on_axes_at ax (Pyplot.add_artist (Pyplot.Contourf
    (fst (Numpy.meshgrid xs ys)) (snd (Numpy.meshgrid xs ys))
    (on_grid (class_of model) xs ys) (dec 3 10) "coolwarm")) _ _ H0) as H1.
  pose proof (on_axes_at ax (Pyplot.add_artist
    (Pyplot.Scatter (map fst X) (map snd X) y "k")) _ _ H1) as H2.
  pose proof (on_axes_at ax (Pyplot.with_xlabel "Feature 1") _ _ H2) as H3.
  pose proof (on_axes_at ax (Pyplot.with_ylabel "Feature 2") _ _ H3) as H4.
  rewrite H4. unfold drawn, Pyplot.with_ylabel, Pyplot.with_xlabel,
    Pyplot.add_artist.
  cbn [Pyplot.artists Pyplot.title Pyplot.xlabel Pyplot.ylabel].
  now rewrite <- app_assoc.
Qed.

Lemma after_draw_frame model X y ax xs ys nb :
  let nb' := after_draw model X y ax xs ys nb in
  Nb.X nb' = Nb.X nb /\ Nb.y nb' = Nb.y nb /\
  Nb.np_random nb' = Nb.np_random nb /\
  Nb.keras_random nb' = Nb.keras_random nb /\
  Nb.open_figures nb' = Nb.open_figures nb /\
  Nb.out nb' = Nb.out nb /\
  length (Nb.figures nb') = length (Nb.figures nb) /\
  Nb.calls nb' = Nb.calls nb ++ [Call_plot_decision_boundary].
Proof.
  cbv zeta. unfold after_draw, Plt.set_ylabel, Plt.set_xlabel, Plt.on_axes,
    modify, log. cbn [snd fst Nb.X Nb.y Nb.np_random Nb.keras_random
    Nb.open_figures Nb.out Nb.figures Nb.calls Nb.set_figures Nb.set_calls].
  repeat split. now rewrite !length_alter.
Qed.

Lemma sub_not_nan a b : is_nan (sub a b) = false -> is_nan a = false.
Proof. destruct a; simpl; auto. Qed.

Lemma add_not_nan a b : is_nan (add a b) = false -> is_nan a = false.
Proof. destruct a; simpl; auto. Qed.

(** The grid of a call that returns: the bounds handed to [np.arange] are
    half a unit below a least and above a greatest sample coordinate. *)
Lemma grid_axes_inv X xs ys :
  grid_axes X = inr (xs, ys) ->
  exists x_lo x_hi y_lo y_hi,
    least x_lo (map fst X) /\
    greatest x_hi (map fst X) /\
    least y_lo (map snd X) /\
    greatest y_hi (map snd X) /\
    Numpy.arange (sub x_lo (dec 5 10)) (add x_hi (dec 5 10)) (dec 2 100)
      = inr xs /\
    Numpy.arange (sub y_lo (dec 5 10)) (add y_hi (dec 5 10)) (dec 2 100)
      = inr ys.
Proof.
  unfold grid_axes.
  destruct (Numpy.amin (map fst X)) as [?|x_lo] eqn:E1; [discriminate|].
  destruct (Numpy.amax (map fst X)) as [?|x_hi] eqn:E2; [discriminate|].
  destruct (Numpy.amin (map snd X)) as [?|y_lo] eqn:E3; [discriminate|].
  destruct (Numpy.amax (map snd X)) as [?|y_hi] eqn:E4; [discriminate|].
  cbn [mbind result_bind].
  destruct (Numpy.arange (sub x_lo _) _ _) as [?|xs'] eqn:E5; [discriminate|].
  cbn [mbind result_bind].
  destruct (Numpy.arange (sub y_lo _) _ _) as [?|ys'] eqn:E6; [discriminate|].
  intros [= <- <-].
  destruct (ArangeFacts.arange_not_nan _ _ _ _ E5) as [Hx1 Hx2].
  destruct (ArangeFacts.arange_not_nan _ _ _ _ E6) as [Hy1 Hy2].
  apply sub_not_nan in Hx1, Hy1. apply add_not_nan in Hx2, Hy2.
  exists x_lo, x_hi, y_lo, y_hi.
  repeat split; auto;
    try (eapply NumpyFacts.amin_least; eassumption);
    try (eapply NumpyFacts.amax_greatest; eassumption);
    try (eapply (proj2 (NumpyFacts.amin_least _ _ _ _)); eassumption);
    try (eapply (proj2 (NumpyFacts.amax_greatest _ _ _ _)); eassumption).
Qed.

(** *** The model factory *)

Lemma layers_Dense_ok n act shp :
  0 < n -> act ∈ Keras.activation_names ->
  Keras.layers_Dense n act shp = inr (Keras.mkDense n act shp).
Proof.
  intros Hn Hact. unfold Keras.layers_Dense.
  destruct (Z.leb_spec n 0); [lia|].
  now rewrite bool_decide_eq_true_2.
Qed.

Lemma layers_Dense_inv n act shp d :
  Keras.layers_Dense n act shp = inr d ->
  0 < n /\ act ∈ Keras.activation_names /\ d = Keras.mkDense n act shp.
Proof.
  unfold Keras.layers_Dense.
  destruct (Z.leb_spec n 0); [discriminate|].
  destruct (bool_decide_reflect (act ∈ Keras.activation_names)); [|discriminate].
  intros [= <-]. auto.
Qed.

Lemma create_model_ok neurons activation lr nb :
  0 < neurons -> activation ∈ Keras.activation_names ->
  create_model neurons activation lr nb
  = (inr (created neurons activation lr nb),
     after_create neurons activation lr nb).
Proof.
  intros Hn Hact. unfold create_model, log.
  rewrite bind_modify, bind_lift, (layers_Dense_ok _ _ _ Hn Hact).
  rewrite bind_lift, layers_Dense_ok
    by (try lia; apply list_elem_of_In; simpl; tauto).
  unfold models_Sequential, created, after_create, architecture.
  rewrite bind_run, bind_gets.
  cbn [Nb.keras_random Nb.set_calls].
  destruct (build _ _) as [v g']. reflexivity.
Qed.

Lemma create_model_inv neurons activation lr nb model nb' :
  create_model neurons activation lr nb = (inr model, nb') ->
  0 < neurons /\ activation ∈ Keras.activation_names.
Proof.
  unfold create_model, log. rewrite bind_modify, bind_lift.
  destruct (Keras.layers_Dense neurons activation _) as [?|d] eqn:Hd;
    [discriminate|].
  destruct (layers_Dense_inv _ _ _ _ Hd) as (Hn & Hact & _). auto.
Qed.

(** *** The trainer *)

Lemma epoch_losses_length epochs : forall ls c v X y g,
  length (epoch_losses epochs ls c v X y g) = epochs.
Proof.
  induction epochs as [|e IH]; intros; simpl; [reflexivity|].
  destruct (train_epoch ls c v X y g) as [[[v' loss] acc] g'].
  simpl. now rewrite IH.
Qed.

Lemma on_epoch_end_loss metrics loss acc (h : History) :
  on_epoch_end metrics loss acc h !! "loss"%string
  = Some (default [] (h !! "loss"%string) ++ [loss]).
Proof.
  unfold on_epoch_end, history_append.
  destruct (bool_decide _).
  - rewrite lookup_insert_ne by discriminate.
    now rewrite lookup_insert_eq.
  - now rewrite lookup_insert_eq.
Qed.

Lemma fit_loop_history epochs : forall ls c v X y (h : History) g,
  fit_history (fit_loop epochs ls c v X y h g) !! "loss"%string
  = match epochs with
    | O => h !! "loss"%string
    | S _ => Some (default [] (h !! "loss"%string)
                   ++ epoch_losses epochs ls c v X y g)
    end.
Proof.
  induction epochs as [|e IH]; intros; [reflexivity|].
  cbn [fit_loop epoch_losses].
  destruct (train_epoch ls c v X y g) as [[[v' loss] acc] g'].
  rewrite IH. destruct e as [|e].
  - apply on_epoch_end_loss.
  - rewrite on_epoch_end_loss. cbn [from_option id]. now rewrite <- app_assoc.
Qed.

Lemma fit_ok model c X y epochs nb :
  compiled model = Some c ->
  length X = length y -> X <> [] ->
  fit model X y epochs nb
  = (inr (fitted model c X y epochs nb), after_fit model c X y epochs nb).
Proof.
  intros Hc Hlen Hne. unfold fit, log.
  rewrite bind_modify, bind_lift, Hc.
  rewrite <- Hlen, Nat.eqb_refl. cbn [negb].
  destruct (Nat.eqb_spec (length X) 0) as [Hz|_].
  { destruct X; [congruence|]. simpl in Hz. lia. }
  unfold ok. cbv beta iota.
  rewrite bind_ret, bind_gets. unfold fitted, after_fit, fit_history.
  cbn [Nb.keras_random Nb.set_calls].
  destruct (fit_loop _ _ _ _ _ _ _ _) as [[[c' v'] h] g']. reflexivity.
Qed.

Lemma fitted_losses model c X y epochs nb :
  0 < epochs ->
  snd (fitted model c X y epochs nb) !! "loss"%string
  = Some (epoch_losses (Z.to_nat epochs) (layers model) c (variables model)
            X y (Nb.keras_random nb)).
Proof.
  intros Hpos. unfold fitted. cbn [snd]. rewrite fit_loop_history.
  destruct (Z.to_nat epochs) eqn:He; [lia|].
  now rewrite lookup_empty.
Qed.

(** *** The whole pipeline *)

Lemma renderable_nonempty X y : renderable X y -> X <> [].
Proof.
  intros (xs & ys & Hgrid & _) ->. discriminate Hgrid.
Qed.

Lemma on_axes_figure ax f nb fig :
  Nb.figures nb !! Pyplot.fig_num ax = Some fig ->
  Nb.figures (snd (Plt.on_axes ax f nb)) !! Pyplot.fig_num ax
  = Some (Pyplot.alter_axes f (Pyplot.ax_index ax) fig).
Proof.
  intros Hfig. unfold Plt.on_axes, modify. cbn [snd Nb.figures Nb.set_figures].
  now rewrite list_lookup_alter_eq, Hfig.
Qed.

Lemma on_axes_run ax f nb :
  Plt.on_axes ax f nb = (inr tt, snd (Plt.on_axes ax f nb)).
Proof. reflexivity. Qed.

Lemma subplots_run ncols size nb :
  Plt.subplots ncols size nb
  = (inr (length (Nb.figures nb),
          map (Pyplot.mkAxRef (length (Nb.figures nb))) (seq 0 ncols)),
     snd (Plt.subplots ncols size nb)).
Proof. reflexivity. Qed.

Lemma display_figures_run nums : forall nb,
  Plt.display_figures nums nb
  = (inr tt, Nb.set_out (show_out nums (Nb.figures nb) (Nb.out nb)) nb).
Proof.
  induction nums as [|n nums IH]; intros nb.
  - destruct nb; reflexivity.
  - cbn [Plt.display_figures]. rewrite bind_gets, bind_run.
    destruct (Nb.figures nb !! n) as [fig|] eqn:Hfig.
    + unfold Plt.display, modify. cbv beta iota. rewrite IH.
      cbn [show_out fold_left Nb.figures Nb.out Nb.set_out]. rewrite Hfig.
      reflexivity.
    + unfold mret, Nb.M_ret. cbv beta iota.
      rewrite IH. cbn [show_out fold_left]. now rewrite Hfig.
Qed.

Lemma show_run nb : Plt.show nb = (inr tt, after_show nb).
Proof.
  unfold Plt.show, log, Plt.show_inline_matplotlib_plots.
  rewrite bind_modify, bind_gets, bind_run, display_figures_run.
  reflexivity.
Qed.

Lemma show_out_last olds num figs fig o :
  figs !! num = Some fig ->
  show_out (olds ++ [num]) figs o
  = IPython.append (IPython.DisplayFigure fig) (show_out olds figs o).
Proof.
  intros Hfig. unfold show_out. rewrite fold_left_app. simpl. now rewrite Hfig.
Qed.


Lemma interactive_nn_ok neurons activation lr epochs nb xs ys :
  0 < neurons -> activation ∈ Keras.activation_names -> 0 < epochs ->
  grid_axes (Nb.X nb) = inr (xs, ys) ->
  (2 <= length xs)%nat -> (2 <= length ys)%nat ->
  length (Nb.y nb) = length (Nb.X nb) ->
  interactive_nn neurons activation lr epochs nb
  = (inr tt, after_interactive neurons activation lr epochs xs ys nb).
Proof.
  intros Hn Hact He Hgrid Hlx Hly Hlen.
  assert (Hne : Nb.X nb <> []) by (intros Hnil; rewrite Hnil in Hgrid; discriminate).
  unfold interactive_nn. unfold Plt.clear_output at 1.
  rewrite bind_modify.
  rewrite bind_run, (create_model_ok _ _ _ _ Hn Hact). cbv beta iota.
  rewrite !bind_gets.
  rewrite bind_run.
  erewrite fit_ok; [|reflexivity|symmetry; exact Hlen|exact Hne].
  cbv beta iota.
  change (Nb.X (after_create neurons activation lr
                  (Nb.set_out (IPython.clear true (Nb.out nb)) nb)))
    with (Nb.X nb) in *.
  change (Nb.y (after_create neurons activation lr
                  (Nb.set_out (IPython.clear true (Nb.out nb)) nb)))
    with (Nb.y nb) in *.
  pose proof (fitted_losses (created neurons activation lr
                  (Nb.set_out (IPython.clear true (Nb.out nb)) nb))
                (settings lr) (Nb.X nb) (Nb.y nb) epochs
                (after_create neurons activation lr
                  (Nb.set_out (IPython.clear true (Nb.out nb)) nb)) He) as Hloss.
  unfold after_interactive, trained, plotted_losses.
  change (snd (Plt.clear_output true nb))
    with (Nb.set_out (IPython.clear true (Nb.out nb)) nb).
  cbv zeta.
  destruct (fitted _ _ _ _ _ _) as [model1 h] eqn:Hfit.
  cbn [fst snd] in *.
  rewrite bind_run, subplots_run. cbv beta iota. cbn [map seq].
  rewrite bind_lift. cbn [Plt.getitem lookup list_lookup]. unfold ok. cbv beta iota.
  rewrite bind_run. unfold Plt.set_title at 1. rewrite on_axes_run. cbv beta iota.
  rewrite bind_run.
  rewrite (pdb_ok model1 (Nb.X nb) (Nb.y nb) _ _ xs ys Hgrid Hlx Hly Hlen).
  cbv beta iota.
  rewrite bind_lift. cbv beta iota.
  rewrite bind_lift. unfold history_getitem. rewrite Hloss. unfold ok. cbv beta iota.
  rewrite bind_run. unfold Plt.plot at 1. rewrite on_axes_run. cbv beta iota.
  rewrite bind_run. unfold Plt.set_title at 1. rewrite on_axes_run. cbv beta iota.
  rewrite bind_run. unfold Plt.set_xlabel at 1. rewrite on_axes_run. cbv beta iota.
  rewrite bind_run. unfold Plt.set_ylabel at 1. rewrite on_axes_run. cbv beta iota.
  rewrite show_run. reflexivity.
Qed.

Lemma after_draw_figure model X y ax xs ys nb fig :
  Nb.figures nb !! Pyplot.fig_num ax = Some fig ->
  Nb.figures (after_draw model X y ax xs ys nb) !! Pyplot.fig_num ax
  = Some (Pyplot.alter_axes (Pyplot.with_ylabel "Feature 2") (Pyplot.ax_index ax)
      (Pyplot.alter_axes (Pyplot.with_xlabel "Feature 1") (Pyplot.ax_index ax)
        (Pyplot.alter_axes (Pyplot.add_artist
            (Pyplot.Scatter (map fst X) (map snd X) y "k")) (Pyplot.ax_index ax)
          (Pyplot.alter_axes (Pyplot.add_artist
              (Pyplot.Contourf (fst (Numpy.meshgrid xs ys))
                 (snd (Numpy.meshgrid xs ys))
                 (on_grid (class_of model) xs ys) (dec 3 10) "coolwarm"))
            (Pyplot.ax_index ax) fig)))).
Proof.
  intros Hfig. unfold after_draw, Plt.set_ylabel, Plt.set_xlabel. cbv zeta.
  do 4 (apply on_axes_figure). exact Hfig.
Qed.

Lemma figure_value (size : Z * Z) (cf sc ln : Pyplot.Artist) :
  Pyplot.alter_axes (Pyplot.with_ylabel "Loss") 1
    (Pyplot.alter_axes (Pyplot.with_xlabel "Epoch") 1
      (Pyplot.alter_axes (Pyplot.with_title "Loss Curve") 1
        (Pyplot.alter_axes (Pyplot.add_artist ln) 1
          (Pyplot.alter_axes (Pyplot.with_ylabel "Feature 2") 0
            (Pyplot.alter_axes (Pyplot.with_xlabel "Feature 1") 0
              (Pyplot.alter_axes (Pyplot.add_artist sc) 0
                (Pyplot.alter_axes (Pyplot.add_artist cf) 0
                  (Pyplot.alter_axes (Pyplot.with_title "Decision Boundary") 0
                    (Pyplot.mkFigure size
                       (replicate 2 Pyplot.empty_axes))))))))))
  = Pyplot.mkFigure size
      [Pyplot.mkAxes "Decision Boundary" "Feature 1" "Feature 2" [cf; sc];
       Pyplot.mkAxes "Loss Curve" "Epoch" "Loss" [ln]].
Proof. reflexivity. Qed.

Lemma figures_after_show nb : Nb.figures (after_show nb) = Nb.figures nb.
Proof. reflexivity. Qed.

Lemma figures_after_fit model c X y epochs nb :
  Nb.figures (after_fit model c X y epochs nb) = Nb.figures nb.
Proof. reflexivity. Qed.

Lemma figures_after_create neurons activation lr nb :
  Nb.figures (after_create neurons activation lr nb) = Nb.figures nb.
Proof. reflexivity. Qed.

Lemma figures_clear_output wait nb :
  Nb.figures (snd (Plt.clear_output wait nb)) = Nb.figures nb.
Proof. reflexivity. Qed.

Lemma subplots_figure ncols size nb :
  Nb.figures (snd (Plt.subplots ncols size nb)) !! length (Nb.figures nb)
  = Some (Pyplot.mkFigure size (replicate ncols Pyplot.empty_axes)).
Proof.
  unfold Plt.subplots. rewrite bind_gets, bind_modify.
  cbn [snd mret Nb.M_ret Nb.figures Nb.set_open_figures Nb.set_figures].
  now apply list_lookup_middle.
Qed.

Lemma after_interactive_figure neurons activation lr epochs xs ys nb :
  Nb.figures (after_interactive neurons activation lr epochs xs ys nb)
    !! length (Nb.figures nb)
  = Some (pipeline_figure neurons activation lr epochs xs ys nb).
Proof.
  unfold after_interactive. cbv zeta. rewrite figures_after_show.
  unfold Plt.set_ylabel, Plt.set_xlabel, Plt.set_title, Plt.plot.
  etransitivity.
  { do 4 apply (on_axes_figure (Pyplot.mkAxRef (length (Nb.figures nb)) 1)).
    apply (after_draw_figure _ _ _ (Pyplot.mkAxRef (length (Nb.figures nb)) 0)).
    apply (on_axes_figure (Pyplot.mkAxRef (length (Nb.figures nb)) 0)).
    cbn [Pyplot.fig_num].
    rewrite <- (figures_clear_output true nb) at 1.
    rewrite <- (figures_after_create neurons activation lr
                  (snd (Plt.clear_output true nb))).
    rewrite <- (figures_after_fit
                  (created neurons activation lr (snd (Plt.clear_output true nb)))
                  (settings lr) (Nb.X nb) (Nb.y nb) epochs
                  (after_create neurons activation lr
                     (snd (Plt.clear_output true nb)))).
    apply subplots_figure. }
  apply (f_equal Some).
  cbn [Pyplot.ax_index]. rewrite figure_value.
  unfold pipeline_figure, drawn. cbn [Pyplot.artists Pyplot.title app].
  reflexivity.
Qed.

Lemma after_interactive_frame neurons activation lr epochs xs ys nb :
  let nb' := after_interactive neurons activation lr epochs xs ys nb in
  Nb.X nb' = Nb.X nb /\ Nb.y nb' = Nb.y nb /\
  Nb.np_random nb' = Nb.np_random nb /\
  Nb.neurons_slider nb' = Nb.neurons_slider nb /\
  Nb.activation_dropdown nb' = Nb.activation_dropdown nb /\
  Nb.lr_slider nb' = Nb.lr_slider nb /\
  Nb.epochs_slider nb' = Nb.epochs_slider nb /\
  Nb.open_figures nb' = [].
Proof. cbv zeta. repeat split; reflexivity. Qed.


Lemma after_interactive_out neurons activation lr epochs xs ys nb :
  Nb.out (after_interactive neurons activation lr epochs xs ys nb)
  = IPython.append
      (IPython.DisplayFigure (pipeline_figure neurons activation lr epochs xs ys nb))
      (show_out (Nb.open_figures nb)
         (Nb.figures (after_interactive neurons activation lr epochs xs ys nb))
         (IPython.clear true (Nb.out nb))).
Proof.
  rewrite <- (show_out_last _ (length (Nb.figures nb)))
    by apply after_interactive_figure.
  reflexivity.
Qed.

(** After a run the output area ends with the new figure, and holds
    nothing else when no figure was left open before. *)
Lemma after_interactive_outputs neurons activation lr epochs xs ys nb :
  let o := Nb.out (after_interactive neurons activation lr epochs xs ys nb) in
  let fig := pipeline_figure neurons activation lr epochs xs ys nb in
  IPython.clear_pending o = false /\
  (exists olds, IPython.outputs o = olds ++ [IPython.DisplayFigure fig]) /\
  (Nb.open_figures nb = [] -> IPython.outputs o = [IPython.DisplayFigure fig]).
Proof.
  cbv zeta. rewrite after_interactive_out. unfold IPython.append.
  cbn [IPython.clear_pending IPython.outputs]. split; [reflexivity|]. split.
  - destruct (IPython.clear_pending _).
    + now exists [].
    + eexists. reflexivity.
  - intros ->. reflexivity.
Qed.

(** *** The controller *)

Lemma flush_run captured nb :
  Plt.show_inline_matplotlib_plots captured nb
  = (inr tt,
     Nb.set_open_figures []
       (if captured
        then Nb.set_out (show_out (Nb.open_figures nb) (Nb.figures nb) (Nb.out nb)) nb
        else nb)).
Proof.
  unfold Plt.show_inline_matplotlib_plots. rewrite bind_gets, bind_run.
  destruct captured.
  - rewrite display_figures_run. reflexivity.
  - reflexivity.
Qed.





Lemma figures_before_run nb : Nb.figures (before_run nb) = Nb.figures nb.
Proof. reflexivity. Qed.








End WithBackend.
End RunFacts.

(** ** Samples that can be drawn *)

Module RenderFacts.
Section WithBackend.
Context `{Backend}.
Import ValueFacts.

(** The grid over a non-empty set of samples of moderate size. *)
Lemma moderate_grid (X : list (float * float)) :
  X <> [] ->
  (forall p, In p X -> moderate (fst p) /\ moderate (snd p)) ->
  exists x_lo x_hi y_lo y_hi xs ys,
    least x_lo (map fst X) /\ greatest x_hi (map fst X) /\
    least y_lo (map snd X) /\ greatest y_hi (map snd X) /\
    Numpy.arange (sub x_lo (dec 5 10)) (add x_hi (dec 5 10)) (dec 2 100)
      = inr xs /\
    Numpy.arange (sub y_lo (dec 5 10)) (add y_hi (dec 5 10)) (dec 2 100)
      = inr ys /\
    grid_axes X = inr (xs, ys) /\
    (2 <= length xs)%nat /\ (2 <= length ys)%nat /\
    spans (sub x_lo (dec 5 10)) (add x_hi (dec 5 10)) xs /\
    spans (sub y_lo (dec 5 10)) (add y_hi (dec 5 10)) ys.
Proof.
  intros Hne Hmod.
  destruct (moderate_extremes (map fst X))
    as (x_lo & x_hi & Hx1 & Hx2 & Lx & Gx & Mx1 & Mx2 & Hx).
  { destruct X; [congruence|discriminate]. }
  { intros v Hv. apply in_map_iff in Hv as (p & <- & Hp). apply (Hmod p Hp). }
  destruct (moderate_extremes (map snd X))
    as (y_lo & y_hi & Hy1 & Hy2 & Ly & Gy & My1 & My2 & Hy).
  { destruct X; [congruence|discriminate]. }
  { intros v Hv. apply in_map_iff in Hv as (p & <- & Hp). apply (Hmod p Hp). }
  destruct (axis_spans x_lo x_hi Mx1 Mx2 Hx) as (xs & Hxs & Hlx & Sx).
  destruct (axis_spans y_lo y_hi My1 My2 Hy) as (ys & Hys & Hly & Sy).
  exists x_lo, x_hi, y_lo, y_hi, xs, ys.
  do 6 (split; [assumption|]). split; [|auto].
  unfold grid_axes. rewrite Hx1, Hx2, Hy1, Hy2.
  cbn [mbind result_bind]. rewrite Hxs. cbn [mbind result_bind]. rewrite Hys.
  reflexivity.
Qed.

(** A non-empty set of labelled samples of moderate size can be drawn. *)
Lemma moderate_renderable X (y : list Z) :
  X <> [] -> length y = length X ->
  (forall p, In p X -> moderate (fst p) /\ moderate (snd p)) ->
  renderable X y.
Proof.
  intros Hne Hlen Hmod.
  destruct (moderate_grid X Hne Hmod)
    as (x_lo & x_hi & y_lo & y_hi & xs & ys & _ & _ & _ & _ & _ & _ & Hgrid
        & Hlx & Hly & _).
  exists xs, ys. auto.
Qed.

End WithBackend.
End RenderFacts.

(** ** Frames and failures of the cells *)

Module EffectFacts.
Section WithBackend.
Context `{Backend}.

Import Models Playground GridFacts RunFacts.

Section Keeps.
Variable P : Nb.Notebook -> Nb.Notebook -> Prop.
Hypothesis P_refl : forall nb, P nb nb.
Hypothesis P_trans : forall a b c, P a b -> P b c -> P a c.

Lemma keeps_ret {A} (a : A) : keeps P (mret a).
Proof. intros nb r nb' [= <- <-]. apply P_refl. Qed.

Lemma keeps_lift {A} (r : Result A) : keeps P (lift r).
Proof. intros nb r' nb' [= <- <-]. apply P_refl. Qed.

Lemma keeps_gets {A} (f : Nb.Notebook -> A) : keeps P (gets f).
Proof. intros nb r nb' [= <- <-]. apply P_refl. Qed.

Lemma keeps_modify f : (forall nb, P nb (f nb)) -> keeps P (modify f).
Proof. intros Hf nb r nb' [= <- <-]. apply Hf. Qed.

Lemma keeps_bind {A B} (m : M A) (k : A -> M B) :
  keeps P m -> (forall a, keeps P (k a)) -> keeps P (m ≫= k).
Proof.
  intros Hm Hk nb r nb'. rewrite bind_run.
  destruct (m nb) as [[e|a] nb1] eqn:Hrun.
  - intros [= <- <-]. exact (Hm _ _ _ Hrun).
  - intros Hk'. eapply P_trans; [exact (Hm _ _ _ Hrun)|exact (Hk _ _ _ _ Hk')].
Qed.

End Keeps.

(** *** Drawing touches one axes object *)

Lemma extends_refl a : extends a a.
Proof. split; [reflexivity|]. exists []. now rewrite app_nil_r. Qed.

Lemma extends_trans a b c : extends a b -> extends b c -> extends a c.
Proof.
  intros [Ht1 [m1 Ha1]] [Ht2 [m2 Ha2]]. split; [congruence|].
  exists (m1 ++ m2). rewrite Ha2, Ha1. now rewrite app_assoc.
Qed.

Lemma alter_axes_id f j fig : (forall a, f a = a) -> Pyplot.alter_axes f j fig = fig.
Proof.
  intros Hf. unfold Pyplot.alter_axes. rewrite list_alter_id by exact Hf.
  now destruct fig.
Qed.

Lemma alter_axes_compose f g j fig :
  Pyplot.alter_axes f j (Pyplot.alter_axes g j fig)
  = Pyplot.alter_axes (f ∘ g) j fig.
Proof.
  unfold Pyplot.alter_axes. cbn [Pyplot.figsize Pyplot.axes].
  now rewrite list_alter_alter_eq.
Qed.

Lemma only_axes_refl ax nb : only_axes ax nb nb.
Proof.
  unfold only_axes. do 7 (split; [reflexivity|]).
  exists (fun a => a). split; [intros a; apply extends_refl|].
  symmetry. apply list_alter_id. intros fig. now apply alter_axes_id.
Qed.

Lemma only_axes_trans ax a b c :
  only_axes ax a b -> only_axes ax b c -> only_axes ax a c.
Proof.
  intros (A1 & A2 & A3 & A4 & A5 & A6 & A7 & f & Hf & Af)
         (B1 & B2 & B3 & B4 & B5 & B6 & B7 & g & Hg & Bg).
  unfold only_axes. repeat (split; [congruence|]).
  exists (g ∘ f). split.
  - intros x. eapply extends_trans; [apply Hf|apply Hg].
  - rewrite Bg, Af, list_alter_alter_eq.
    apply list_alter_ext; [|reflexivity]. intros fig _.
    apply alter_axes_compose.
Qed.

Lemma on_axes_only ax g :
  (forall a, extends a (g a)) -> keeps (only_axes ax) (Plt.on_axes ax g).
Proof.
  intros Hg. apply keeps_modify. intros nb. unfold only_axes.
  do 7 (split; [reflexivity|]). exists g. split; [exact Hg|reflexivity].
Qed.

Lemma log_only ax c : keeps (only_axes ax) (log c).
Proof.
  apply keeps_modify. intros nb. unfold only_axes.
  do 7 (split; [reflexivity|]).
  exists (fun a => a). split; [intros a; apply extends_refl|].
  symmetry. apply list_alter_id. intros fig. now apply alter_axes_id.
Qed.

Lemma add_artist_extends art a : extends a (Pyplot.add_artist art a).
Proof. split; [reflexivity|]. now exists [art]. Qed.

Lemma with_xlabel_extends s a : extends a (Pyplot.with_xlabel s a).
Proof. split; [reflexivity|]. exists []. cbn. now rewrite app_nil_r. Qed.

Lemma with_ylabel_extends s a : extends a (Pyplot.with_ylabel s a).
Proof. split; [reflexivity|]. exists []. cbn. now rewrite app_nil_r. Qed.

Lemma contourf_only ax xx yy cls alpha cmap :
  keeps (only_axes ax) (Plt.contourf ax xx yy cls alpha cmap).
Proof.
  unfold Plt.contourf.
  destruct (negb _); [apply keeps_lift, only_axes_refl|].
  destruct (_ || _); [apply keeps_lift, only_axes_refl|].
  apply on_axes_only, add_artist_extends.
Qed.

Lemma scatter_only ax xs ys c edge :
  keeps (only_axes ax) (Plt.scatter ax xs ys c edge).
Proof.
  unfold Plt.scatter.
  destruct (negb _); [apply keeps_lift, only_axes_refl|].
  destruct (_ || _); [|apply keeps_lift, only_axes_refl].
  apply on_axes_only, add_artist_extends.
Qed.

Lemma pdb_keeps model X y ax :
  keeps (only_axes ax) (plot_decision_boundary model X y ax).
Proof.
  pose proof (only_axes_refl ax) as Hr. pose proof (only_axes_trans ax) as Ht.
  unfold plot_decision_boundary.
  apply keeps_bind; auto using log_only. intros _.
  do 6 (apply keeps_bind; auto using keeps_lift; intros ?).
  destruct (Numpy.meshgrid _ _) as [xx yy].
  do 3 (apply keeps_bind; auto using keeps_lift; intros ?).
  apply keeps_bind; auto using contourf_only. intros _.
  apply keeps_bind; auto using scatter_only. intros _.
  apply keeps_bind; [assumption|..].
  - apply on_axes_only, with_xlabel_extends.
  - intros _. apply on_axes_only, with_ylabel_extends.
Qed.

(** *** What a run shows *)

Lemma keeps_weaken {A} (P Q : Nb.Notebook -> Nb.Notebook -> Prop) (m : M A) :
  (forall a b, P a b -> Q a b) -> keeps P m -> keeps Q m.
Proof. intros HPQ Hm nb r nb' Hrun. apply HPQ, (Hm _ _ _ Hrun). Qed.

Lemma same_out_refl nb : same_out nb nb.
Proof. reflexivity. Qed.

Lemma same_out_trans a b c : same_out a b -> same_out b c -> same_out a c.
Proof. unfold same_out. congruence. Qed.

Lemma quiet_keeps {A} (m : M A) : keeps same_out m -> quiet m.
Proof. intros Hm nb e nb' Hrun. exact (Hm _ _ _ Hrun). Qed.

Lemma quiet_bind {A B} (m : M A) (k : A -> M B) :
  keeps same_out m -> (forall a, quiet (k a)) -> quiet (m ≫= k).
Proof.
  intros Hm Hk nb e nb'. rewrite bind_run.
  destruct (m nb) as [[e1|a] nb1] eqn:Hrun.
  - intros [= <- <-]. exact (Hm _ _ _ Hrun).
  - intros Hk'. rewrite (Hk _ _ _ _ Hk'). exact (Hm _ _ _ Hrun).
Qed.

Lemma on_axes_same_out ax f : keeps same_out (Plt.on_axes ax f).
Proof. apply keeps_modify. intros nb. reflexivity. Qed.

Lemma log_same_out c : keeps same_out (log c).
Proof. apply keeps_modify. intros nb. reflexivity. Qed.

Lemma pdb_same_out model X y ax :
  keeps same_out (plot_decision_boundary model X y ax).
Proof.
  apply (keeps_weaken (only_axes ax)); [|apply pdb_keeps].
  intros a b (_ & _ & _ & _ & _ & Hout & _). exact Hout.
Qed.

Lemma create_model_same_out neurons activation lr :
  keeps same_out (create_model neurons activation lr).
Proof.
  pose proof same_out_refl as Hr. pose proof same_out_trans as Ht.
  unfold create_model.
  apply keeps_bind; auto using log_same_out. intros _.
  do 2 (apply keeps_bind; auto using keeps_lift; intros ?).
  apply keeps_bind; [assumption| |intros ?; now apply keeps_ret].
  unfold models_Sequential.
  apply keeps_bind; auto using keeps_gets. intros g.
  destruct (build _ g) as [v g'].
  apply keeps_bind; [assumption| |intros ?; now apply keeps_ret].
  apply keeps_modify. intros nb. reflexivity.
Qed.

Lemma fit_same_out model X y epochs : keeps same_out (fit model X y epochs).
Proof.
  pose proof same_out_refl as Hr. pose proof same_out_trans as Ht.
  unfold fit.
  apply keeps_bind; auto using log_same_out. intros _.
  apply keeps_bind; auto using keeps_lift. intros c.
  apply keeps_bind; [assumption| |intros _].
  { destruct (negb _); [now apply keeps_lift|now apply keeps_ret]. }
  destruct (_ =? _)%nat; [now apply keeps_ret|].
  apply keeps_bind; auto using keeps_gets. intros g.
  destruct (fit_loop _ _ _ _ _ _ _ g) as [[[c' v'] h] g'].
  apply keeps_bind; [assumption| |intros ?; now apply keeps_ret].
  apply keeps_modify. intros nb. reflexivity.
Qed.

Lemma subplots_same_out ncols size : keeps same_out (Plt.subplots ncols size).
Proof.
  pose proof same_out_refl as Hr. pose proof same_out_trans as Ht.
  unfold Plt.subplots.
  apply keeps_bind; auto using keeps_gets. intros figs.
  apply keeps_bind; [assumption| |intros ?; now apply keeps_ret].
  apply keeps_modify. intros nb. reflexivity.
Qed.

Lemma show_never_raises : quiet Plt.show.
Proof. intros nb e nb'. rewrite show_run. discriminate. Qed.

(** A run of [interactive_nn] that raises has shown nothing: the area
    holds what it held, marked for clearing. *)
Lemma interactive_nn_quiet neurons activation lr epochs nb e nb' :
  interactive_nn neurons activation lr epochs nb = (inl e, nb') ->
  Nb.out nb' = IPython.clear true (Nb.out nb).
Proof.
  unfold interactive_nn. unfold Plt.clear_output at 1. rewrite bind_modify.
  intros Hrun.
  change (IPython.clear true (Nb.out nb))
    with (Nb.out (Nb.set_out (IPython.clear true (Nb.out nb)) nb)).
  revert Hrun. generalize (Nb.set_out (IPython.clear true (Nb.out nb)) nb).
  intros nb0 Hrun. revert nb0 e nb' Hrun.
  apply quiet_bind; [apply create_model_same_out|]. intros model.
  apply quiet_bind; [apply keeps_gets, same_out_refl|]. intros X.
  apply quiet_bind; [apply keeps_gets, same_out_refl|]. intros y.
  apply quiet_bind; [apply fit_same_out|]. intros [model1 history].
  apply quiet_bind; [apply subplots_same_out|]. intros [fig axs].
  apply quiet_bind; [apply keeps_lift, same_out_refl|]. intros ax0.
  apply quiet_bind; [apply on_axes_same_out|]. intros _.
  apply quiet_bind; [apply pdb_same_out|]. intros _.
  apply quiet_bind; [apply keeps_lift, same_out_refl|]. intros ax1.
  apply quiet_bind; [apply keeps_lift, same_out_refl|]. intros losses.
  do 4 (apply quiet_bind; [apply on_axes_same_out|]; intros _).
  apply show_never_raises.
Qed.

(** *** A NaN among the samples *)










(** *** The history of a run of [fit] *)

Lemma on_epoch_end_accuracy metrics loss acc (h : History) :
  "accuracy"%string ∈ metrics ->
  on_epoch_end metrics loss acc h !! "accuracy"%string
  = Some (default [] (h !! "accuracy"%string) ++ [acc]).
Proof.
  intros Hm. unfold on_epoch_end, history_append.
  rewrite bool_decide_eq_true_2 by assumption.
  rewrite lookup_insert_eq. now rewrite lookup_insert_ne by discriminate.
Qed.

Lemma on_epoch_end_untracked metrics loss acc (h : History) :
  "accuracy"%string ∉ metrics ->
  on_epoch_end metrics loss acc h !! "accuracy"%string
  = h !! "accuracy"%string.
Proof.
  intros Hm. unfold on_epoch_end, history_append.
  rewrite bool_decide_eq_false_2 by assumption.
  now rewrite lookup_insert_ne by discriminate.
Qed.

Lemma on_epoch_end_other metrics loss acc (h : History) k :
  k <> "loss"%string -> k <> "accuracy"%string ->
  on_epoch_end metrics loss acc h !! k = h !! k.
Proof.
  intros H1 H2. unfold on_epoch_end, history_append.
  destruct (bool_decide _); now rewrite !lookup_insert_ne by congruence.
Qed.

Lemma fit_loop_other epochs k : forall ls c v X y (h : History) g,
  k <> "loss"%string -> k <> "accuracy"%string ->
  fit_history (fit_loop epochs ls c v X y h g) !! k = h !! k.
Proof.
  induction epochs as [|e IH]; intros ls c v X y h g H1 H2; [reflexivity|].
  cbn [fit_loop]. destruct (train_epoch ls c v X y g) as [[[v' loss] acc] g'].
  rewrite IH by assumption. now apply on_epoch_end_other.
Qed.

Lemma fit_loop_accuracy epochs : forall ls c v X y (h : History) g,
  "accuracy"%string ∈ Keras.metrics c ->
  exists accs, length accs = epochs /\
    fit_history (fit_loop epochs ls c v X y h g) !! "accuracy"%string
    = match epochs with
      | O => h !! "accuracy"%string
      | S _ => Some (default [] (h !! "accuracy"%string) ++ accs)
      end.
Proof.
  induction epochs as [|e IH]; intros ls c v X y h g Hm.
  - exists []. split; reflexivity.
  - cbn [fit_loop]. destruct (train_epoch ls c v X y g) as [[[v' loss] acc] g'].
    destruct (IH ls (step_optimizer (steps_per_epoch (length X)) c) v' X y
                (on_epoch_end (Keras.metrics c) loss acc h) g' Hm)
      as (accs & Hlen & Hacc).
    exists (acc :: accs). split; [simpl; now rewrite Hlen|].
    rewrite Hacc. destruct e as [|e].
    + destruct accs; [|discriminate]. now apply on_epoch_end_accuracy.
    + rewrite on_epoch_end_accuracy by assumption. cbn [from_option id].
      now rewrite <- app_assoc.
Qed.

Lemma fit_loop_untracked epochs : forall ls c v X y (h : History) g,
  "accuracy"%string ∉ Keras.metrics c ->
  fit_history (fit_loop epochs ls c v X y h g) !! "accuracy"%string
  = h !! "accuracy"%string.
Proof.
  induction epochs as [|e IH]; intros ls c v X y h g Hm; [reflexivity|].
  cbn [fit_loop]. destruct (train_epoch ls c v X y g) as [[[v' loss] acc] g'].
  rewrite IH by exact Hm. now apply on_epoch_end_untracked.
Qed.

(** *** The points the model is evaluated on *)

Lemma ravel_lookup {A} (f : float -> float -> A) xs : forall ys (i j : nat) xv yv,
  ys !! i = Some yv -> xs !! j = Some xv ->
  Numpy.ravel (on_grid f xs ys) !! (i * length xs + j)%nat = Some (f xv yv).
Proof.
  unfold Numpy.ravel, on_grid.
  induction ys as [|y0 ys IH]; intros i j xv yv Hi Hj; [discriminate|].
  cbn [map concat]. destruct i as [|i].
  - injection Hi as ->. rewrite lookup_app_l
      by (rewrite length_map; apply (lookup_lt_Some _ _ _ Hj)).
    change (0 * length xs + j)%nat with j.
    change (map (fun xv0 => f xv0 yv) xs) with ((fun xv0 => f xv0 yv) <$> xs).
    now rewrite list_lookup_fmap, Hj.
  - rewrite lookup_app_r by (rewrite length_map; lia).
    rewrite length_map.
    replace (S i * length xs + j - length xs)%nat with (i * length xs + j)%nat by lia.
    now apply IH.
Qed.

(** *** What [interactive_nn] leaves alone *)

Lemma calm_refl nb : calm nb nb.
Proof. unfold calm. repeat split. Qed.

Lemma calm_trans a b c : calm a b -> calm b c -> calm a c.
Proof.
  intros (A1 & A2 & A3 & A4 & A5 & A6) (B1 & B2 & B3 & B4 & B5 & B6).
  unfold calm. repeat split; congruence.
Qed.

Lemma log_calm c : keeps calm (log c).
Proof. apply keeps_modify. intros nb. unfold calm. repeat split. Qed.

Lemma create_model_calm neurons activation lr :
  keeps calm (create_model neurons activation lr).
Proof.
  pose proof calm_refl as Hr. pose proof calm_trans as Ht.
  unfold create_model.
  apply keeps_bind; auto using log_calm. intros _.
  do 2 (apply keeps_bind; auto using keeps_lift; intros ?).
  apply keeps_bind; [assumption| |intros ?; now apply keeps_ret].
  unfold models_Sequential.
  apply keeps_bind; auto using keeps_gets. intros g.
  destruct (build _ g) as [v g'].
  apply keeps_bind; [assumption| |intros ?; now apply keeps_ret].
  apply keeps_modify. intros nb. unfold calm. repeat split.
Qed.

Lemma fit_calm model X y epochs : keeps calm (fit model X y epochs).
Proof.
  pose proof calm_refl as Hr. pose proof calm_trans as Ht.
  unfold fit.
  apply keeps_bind; auto using log_calm. intros _.
  apply keeps_bind; auto using keeps_lift. intros c.
  apply keeps_bind; [assumption| |intros _].
  { destruct (negb _); [now apply keeps_lift|now apply keeps_ret]. }
  destruct (_ =? _)%nat; [now apply keeps_ret|].
  apply keeps_bind; auto using keeps_gets. intros g.
  destruct (fit_loop _ _ _ _ _ _ _ g) as [[[c' v'] h] g'].
  apply keeps_bind; [assumption| |intros ?; now apply keeps_ret].
  apply keeps_modify. intros nb. unfold calm. repeat split.
Qed.

Lemma calm_kept a b : calm a b -> kept a b.
Proof.
  intros (A1 & A2 & A3 & A4 & A5 & _). unfold kept.
  repeat (split; [assumption|]). exists []. rewrite app_nil_r. split; [assumption|].
  simpl. lia.
Qed.

Lemma alter_last {A} (f : A -> A) (l : list A) x :
  alter f (length l) (l ++ [x]) = l ++ [f x].
Proof.
  rewrite alter_app_r_alt by lia. now rewrite Nat.sub_diag.
Qed.

Lemma drawing_on_axes nb s ax f :
  drawing nb s -> Pyplot.fig_num ax = length (Nb.figures nb) ->
  drawing nb (snd (Plt.on_axes ax f s)).
Proof.
  intros (A1 & A2 & A3 & A4 & x & A5) Hax. unfold drawing, Plt.on_axes, modify.
  cbn [snd Nb.X Nb.y Nb.np_random Nb.figures Nb.set_figures].
  repeat (split; [assumption|]).
  rewrite A5, Hax, alter_last. eauto.
Qed.

Lemma drawing_only_axes nb s s' ax :
  drawing nb s -> only_axes ax s s' ->
  Pyplot.fig_num ax = length (Nb.figures nb) -> drawing nb s'.
Proof.
  intros (A1 & A2 & A3 & A4 & x & A5)
         (B1 & B2 & B3 & _ & _ & _ & B7 & f & _ & Bf) Hax.
  unfold drawing. repeat (split; [congruence|]).
  rewrite Bf, A5, Hax, alter_last. eauto.
Qed.

Lemma drawing_after_show nb s : drawing nb s -> drawing nb (after_show s).
Proof. intros Hd. exact Hd. Qed.

Lemma drawing_kept nb s : drawing nb s -> kept nb s.
Proof.
  intros (A1 & A2 & A3 & A4 & x & A5). unfold kept.
  repeat (split; [assumption|]). exists [x]. split; [assumption|]. simpl. lia.
Qed.

Lemma drawing_subplots nb s ncols size :
  calm nb s -> drawing nb (snd (Plt.subplots ncols size s)).
Proof.
  intros (A1 & A2 & A3 & A4 & A5 & _). unfold drawing, Plt.subplots.
  rewrite bind_gets, bind_modify.
  cbn [snd mret Nb.M_ret Nb.X Nb.y Nb.np_random Nb.figures
       Nb.set_open_figures Nb.set_figures].
  repeat (split; [assumption|]). rewrite A5. eauto.
Qed.

(** *** A run without epochs *)

Lemma fitted_no_losses model c X y epochs nb :
  epochs <= 0 -> snd (fitted model c X y epochs nb) !! "loss"%string = None.
Proof.
  intros He. unfold fitted. cbn [snd].
  replace (Z.to_nat epochs) with O by lia. apply lookup_empty.
Qed.

Lemma boundary_value (size : Z * Z) (cf sc : Pyplot.Artist) :
  Pyplot.alter_axes (Pyplot.with_ylabel "Feature 2") 0
    (Pyplot.alter_axes (Pyplot.with_xlabel "Feature 1") 0
      (Pyplot.alter_axes (Pyplot.add_artist sc) 0
        (Pyplot.alter_axes (Pyplot.add_artist cf) 0
          (Pyplot.alter_axes (Pyplot.with_title "Decision Boundary") 0
            (Pyplot.mkFigure size (replicate 2 Pyplot.empty_axes))))))
  = Pyplot.mkFigure size
      [Pyplot.mkAxes "Decision Boundary" "Feature 1" "Feature 2" [cf; sc];
       Pyplot.empty_axes].
Proof. reflexivity. Qed.

Lemma boundary_drawn_figure neurons activation lr epochs xs ys nb :
  Nb.figures (boundary_drawn neurons activation lr epochs xs ys nb)
    !! length (Nb.figures nb)
  = Some (Pyplot.mkFigure (12, 4)
      [drawn (fst (trained neurons activation lr epochs nb)) (Nb.X nb) (Nb.y nb)
         xs ys (Pyplot.mkAxes "Decision Boundary" "" "" []);
       Pyplot.empty_axes]).
Proof.
  unfold boundary_drawn. cbv zeta. unfold Plt.set_title.
  etransitivity.
  { apply (after_draw_figure _ _ _ (Pyplot.mkAxRef (length (Nb.figures nb)) 0)).
    apply (on_axes_figure (Pyplot.mkAxRef (length (Nb.figures nb)) 0)).
    cbn [Pyplot.fig_num].
    rewrite <- (figures_clear_output true nb) at 1.
    rewrite <- (figures_after_create neurons activation lr
                  (snd (Plt.clear_output true nb))).
    rewrite <- (figures_after_fit
                  (created neurons activation lr (snd (Plt.clear_output true nb)))
                  (settings lr) (Nb.X nb) (Nb.y nb) epochs
                  (after_create neurons activation lr
                     (snd (Plt.clear_output true nb)))).
    apply subplots_figure. }
  apply (f_equal Some).
  cbn [Pyplot.ax_index]. rewrite boundary_value.
  unfold drawn. cbn [Pyplot.artists Pyplot.title app].
  reflexivity.
Qed.

Lemma boundary_drawn_frame neurons activation lr epochs xs ys nb :
  Nb.open_figures (boundary_drawn neurons activation lr epochs xs ys nb)
  = Nb.open_figures nb ++ [length (Nb.figures nb)] /\
  Nb.out (boundary_drawn neurons activation lr epochs xs ys nb)
  = IPython.clear true (Nb.out nb).
Proof. split; reflexivity. Qed.

Lemma interactive_nn_no_epochs neurons activation lr epochs nb xs ys :
  0 < neurons -> activation ∈ Keras.activation_names -> epochs <= 0 ->
  grid_axes (Nb.X nb) = inr (xs, ys) ->
  (2 <= length xs)%nat -> (2 <= length ys)%nat ->
  length (Nb.y nb) = length (Nb.X nb) ->
  interactive_nn neurons activation lr epochs nb
  = (inl (KeyError "loss"), boundary_drawn neurons activation lr epochs xs ys nb).
Proof.
  intros Hn Hact He Hgrid Hlx Hly Hlen.
  assert (Hne : Nb.X nb <> []) by (intros Hnil; rewrite Hnil in Hgrid; discriminate).
  unfold interactive_nn. unfold Plt.clear_output at 1.
  rewrite bind_modify.
  rewrite bind_run, (create_model_ok _ _ _ _ Hn Hact). cbv beta iota.
  rewrite !bind_gets.
  rewrite bind_run.
  erewrite fit_ok; [|reflexivity|symmetry; exact Hlen|exact Hne].
  cbv beta iota.
  change (Nb.X (after_create neurons activation lr
                  (Nb.set_out (IPython.clear true (Nb.out nb)) nb)))
    with (Nb.X nb) in *.
  change (Nb.y (after_create neurons activation lr
                  (Nb.set_out (IPython.clear true (Nb.out nb)) nb)))
    with (Nb.y nb) in *.
  pose proof (fitted_no_losses (created neurons activation lr
                  (Nb.set_out (IPython.clear true (Nb.out nb)) nb))
                (settings lr) (Nb.X nb) (Nb.y nb) epochs
                (after_create neurons activation lr
                  (Nb.set_out (IPython.clear true (Nb.out nb)) nb)) He) as Hloss.
  unfold boundary_drawn, trained.
  change (snd (Plt.clear_output true nb))
    with (Nb.set_out (IPython.clear true (Nb.out nb)) nb).
  cbv zeta.
  destruct (fitted _ _ _ _ _ _) as [model1 h] eqn:Hfit.
  cbn [fst snd] in *.
  rewrite bind_run, subplots_run. cbv beta iota. cbn [map seq].
  rewrite bind_lift. cbn [Plt.getitem lookup list_lookup]. unfold ok. cbv beta iota.
  rewrite bind_run. unfold Plt.set_title at 1. rewrite on_axes_run. cbv beta iota.
  rewrite bind_run.
  rewrite (pdb_ok model1 (Nb.X nb) (Nb.y nb) _ _ xs ys Hgrid Hlx Hly Hlen).
  cbv beta iota.
  rewrite bind_lift. cbv beta iota.
  rewrite bind_lift. unfold history_getitem. rewrite Hloss.
  reflexivity.
Qed.

(** *** Labels that do not match the samples, and no sample at all *)

Lemma interactive_nn_mismatch neurons activation lr epochs nb :
  0 < neurons -> activation ∈ Keras.activation_names ->
  length (Nb.X nb) <> length (Nb.y nb) ->
  interactive_nn neurons activation lr epochs nb
  = (inl (ValueError "Data cardinality is ambiguous"),
     logged (Call_fit epochs)
       (after_create neurons activation lr (snd (Plt.clear_output true nb)))).
Proof.
  intros Hn Hact Hbad. unfold interactive_nn. unfold Plt.clear_output at 1.
  rewrite bind_modify, bind_run, (create_model_ok _ _ _ _ Hn Hact).
  cbv beta iota. rewrite !bind_gets, bind_run.
  change (snd (Plt.clear_output true nb))
    with (Nb.set_out (IPython.clear true (Nb.out nb)) nb).
  set (nb1 := Nb.set_out (IPython.clear true (Nb.out nb)) nb).
  change (Nb.X (after_create neurons activation lr nb1)) with (Nb.X nb).
  change (Nb.y (after_create neurons activation lr nb1)) with (Nb.y nb).
  unfold fit, log. rewrite bind_modify, bind_lift.
  cbn [created compiled]. unfold ok. cbv beta iota.
  rewrite bind_run.
  destruct (Nat.eqb_spec (length (Nb.X nb)) (length (Nb.y nb))) as [Heq|Hneq];
    [contradiction|].
  reflexivity.
Qed.

Lemma interactive_nn_empty neurons activation lr epochs nb :
  0 < neurons -> activation ∈ Keras.activation_names ->
  Nb.X nb = [] -> Nb.y nb = [] ->
  interactive_nn neurons activation lr epochs nb
  = (inl (ValueError
       "zero-size array to reduction operation minimum which has no identity"),
     boundary_entered neurons activation lr epochs nb).
Proof.
  intros Hn Hact HX Hy. unfold interactive_nn. unfold Plt.clear_output at 1.
  rewrite bind_modify, bind_run, (create_model_ok _ _ _ _ Hn Hact).
  cbv beta iota. rewrite !bind_gets, bind_run.
  unfold boundary_entered.
  change (snd (Plt.clear_output true nb))
    with (Nb.set_out (IPython.clear true (Nb.out nb)) nb).
  set (nb1 := Nb.set_out (IPython.clear true (Nb.out nb)) nb).
  change (Nb.X (after_create neurons activation lr nb1)) with (Nb.X nb).
  change (Nb.y (after_create neurons activation lr nb1)) with (Nb.y nb).
  rewrite HX, Hy.
  unfold fit, log. rewrite bind_modify, bind_lift.
  cbn [created compiled]. unfold ok. cbv beta iota.
  rewrite bind_run. cbn [length Nat.eqb negb].
  unfold mret at 1 2, Nb.M_ret. cbv beta iota.
  rewrite bind_run, subplots_run. cbv beta iota. cbn [map seq].
  rewrite bind_lift. cbn [Plt.getitem lookup list_lookup]. unfold ok. cbv beta iota.
  rewrite bind_run. unfold Plt.set_title at 1. rewrite on_axes_run. cbv beta iota.
  rewrite bind_run. unfold plot_decision_boundary, log.
  rewrite bind_modify, bind_lift. reflexivity.
Qed.

Lemma boundary_entered_figures neurons activation lr epochs nb :
  Nb.figures (boundary_entered neurons activation lr epochs nb)
  = Nb.figures nb
    ++ [Pyplot.mkFigure (12, 4)
          [Pyplot.mkAxes "Decision Boundary" "" "" []; Pyplot.empty_axes]].
Proof.
  unfold boundary_entered, logged, Plt.set_title, Plt.on_axes, modify,
    Plt.subplots.
  cbv zeta. rewrite bind_gets, bind_modify.
  cbn [snd mret Nb.M_ret Nb.figures Nb.set_figures Nb.set_calls
       Nb.set_open_figures Pyplot.fig_num Pyplot.ax_index].
  change (Nb.figures (after_create neurons activation lr
            (snd (Plt.clear_output true nb)))) with (Nb.figures nb).
  now rewrite alter_last.
Qed.

Lemma boundary_entered_frame neurons activation lr epochs nb :
  Nb.open_figures (boundary_entered neurons activation lr epochs nb)
  = Nb.open_figures nb ++ [length (Nb.figures nb)] /\
  Nb.out (boundary_entered neurons activation lr epochs nb)
  = IPython.clear true (Nb.out nb) /\
  Nb.calls (boundary_entered neurons activation lr epochs nb)
  = Nb.calls nb
    ++ [Call_create_model neurons activation lr; Call_fit epochs;
        Call_plot_decision_boundary].
Proof.
  unfold boundary_entered, logged. cbv zeta.
  cbn [Nb.calls Nb.set_calls Nb.open_figures Nb.out].
  repeat split. unfold Plt.subplots. rewrite bind_gets, bind_modify. cbn.
  now rewrite <- !app_assoc.
Qed.

(** *** What a returning run shows *)

Lemma figures_store c nb : Nb.figures (store c nb) = Nb.figures nb.
Proof. now destruct c. Qed.

Lemma staged_on_axes nb s ax f :
  staged nb s -> Pyplot.fig_num ax = length (Nb.figures nb) ->
  staged nb (snd (Plt.on_axes ax f s)).
Proof.
  intros (A1 & A2 & x & A3) Hax. unfold staged, Plt.on_axes, modify.
  cbn [snd Nb.out Nb.open_figures Nb.figures Nb.set_figures].
  repeat (split; [assumption|]).
  rewrite A3, Hax, alter_last. eauto.
Qed.

Lemma staged_only_axes nb s s' ax :
  staged nb s -> only_axes ax s s' ->
  Pyplot.fig_num ax = length (Nb.figures nb) -> staged nb s'.
Proof.
  intros (A1 & A2 & x & A3)
         (_ & _ & _ & _ & B5 & B6 & _ & f & _ & Bf) Hax.
  unfold staged. repeat (split; [congruence|]).
  rewrite Bf, A3, Hax, alter_last. eauto.
Qed.

Lemma staged_subplots nb s ncols size :
  calm nb s -> same_out nb s -> staged nb (snd (Plt.subplots ncols size s)).
Proof.
  intros (_ & _ & _ & _ & A5 & A6) A7. unfold staged, Plt.subplots.
  rewrite bind_gets, bind_modify.
  cbn [snd mret Nb.M_ret Nb.out Nb.open_figures Nb.figures
       Nb.set_open_figures Nb.set_figures].
  rewrite A5, A6. split; [exact A7|]. split; [reflexivity|]. eauto.
Qed.

Lemma staged_show nb s :
  staged nb s -> Nb.open_figures nb = [] ->
  IPython.clear_pending (Nb.out nb) = true ->
  exists fig,
    Nb.out (after_show s) = IPython.mkOutputArea [IPython.DisplayFigure fig] false /\
    Nb.open_figures (after_show s) = [] /\
    Nb.figures (after_show s) !! length (Nb.figures nb) = Some fig.
Proof.
  intros (A1 & A2 & x & A3) Hopen Hpend. exists x.
  unfold after_show.
  cbn [Nb.out Nb.open_figures Nb.figures Nb.set_open_figures Nb.set_out
       Nb.set_calls].
  rewrite A2, Hopen, A3, A1. cbn [app show_out fold_left].
  rewrite list_lookup_middle by reflexivity.
  unfold IPython.append. rewrite Hpend. auto.
Qed.

Lemma interactive_nn_shows neurons activation lr epochs nb nb' :
  interactive_nn neurons activation lr epochs nb = (inr tt, nb') ->
  Nb.open_figures nb = [] ->
  exists fig,
    Nb.out nb' = IPython.mkOutputArea [IPython.DisplayFigure fig] false /\
    Nb.open_figures nb' = [] /\
    Nb.figures nb' !! length (Nb.figures nb) = Some fig.
Proof.
  unfold interactive_nn. unfold Plt.clear_output at 1. rewrite bind_modify.
  set (nb0 := Nb.set_out (IPython.clear true (Nb.out nb)) nb).
  intros Hrun Hopen. revert Hrun.
  change (length (Nb.figures nb)) with (length (Nb.figures nb0)).
  assert (Hopen0 : Nb.open_figures nb0 = []) by exact Hopen.
  assert (Hpend : IPython.clear_pending (Nb.out nb0) = true) by reflexivity.
  clearbody nb0. clear Hopen.
  rewrite bind_run.
  destruct (create_model neurons activation lr nb0) as [[e|model] nb2] eqn:Hc;
    [discriminate|].
  pose proof (create_model_calm _ _ _ _ _ _ Hc) as C2.
  pose proof (create_model_same_out _ _ _ _ _ _ Hc) as O2.
  rewrite !bind_gets, bind_run.
  destruct (fit model (Nb.X nb2) (Nb.y nb2) epochs nb2)
    as [[e|[model1 history]] nb3] eqn:Hf; [discriminate|].
  pose proof (calm_trans _ _ _ C2 (fit_calm _ _ _ _ _ _ _ Hf)) as C3.
  pose proof (same_out_trans _ _ _ O2 (fit_same_out _ _ _ _ _ _ _ Hf)) as O3.
  assert (Hlen : length (Nb.figures nb3) = length (Nb.figures nb0))
    by (destruct C3 as (_ & _ & _ & _ & -> & _); reflexivity).
  rewrite bind_run, subplots_run. cbv beta iota. cbn [map seq].
  rewrite bind_lift. cbn [Plt.getitem lookup list_lookup]. unfold ok. cbv beta iota.
  rewrite bind_run. unfold Plt.set_title at 1. rewrite on_axes_run. cbv beta iota.
  pose proof (staged_subplots nb0 nb3 2 (12, 4) C3 O3) as H4.
  pose proof (staged_on_axes nb0 _ (Pyplot.mkAxRef (length (Nb.figures nb3)) 0)
                (Pyplot.with_title "Decision Boundary") H4 Hlen) as H5.
  rewrite bind_run.
  destruct (plot_decision_boundary model1 (Nb.X nb2) (Nb.y nb2) _ _)
    as [[e|[]] nb6] eqn:Hp; [discriminate|].
  pose proof (staged_only_axes _ _ _ _ H5 (pdb_keeps _ _ _ _ _ _ _ Hp) Hlen) as H6.
  rewrite bind_lift. cbv beta iota.
  rewrite bind_lift. unfold history_getitem.
  destruct (history !! "loss"%string) as [losses|]; [|discriminate].
  unfold ok. cbv beta iota.
  rewrite bind_run. unfold Plt.plot at 1. rewrite on_axes_run. cbv beta iota.
  rewrite bind_run. unfold Plt.set_title at 1. rewrite on_axes_run. cbv beta iota.
  rewrite bind_run. unfold Plt.set_xlabel at 1. rewrite on_axes_run. cbv beta iota.
  rewrite bind_run. unfold Plt.set_ylabel at 1. rewrite on_axes_run. cbv beta iota.
  rewrite show_run. intros Heq. apply pair_equal_spec in Heq as [_ <-].
  apply staged_show; [|exact Hopen0|exact Hpend].
  do 4 (apply staged_on_axes; [|exact Hlen]). exact H6.
Qed.

End WithBackend.
End EffectFacts.

(** * The specification's claims *)

Module Spec.
Section WithBackend.
Context `{Backend}.

Import Models Playground GridFacts RunFacts.

Lemma valid_activation activation :
  activation ∈ ["relu"; "tanh"; "sigmoid"]%string ->
  activation ∈ Keras.activation_names.
Proof.
  rewrite !list_elem_of_In. simpl. intuition.
Qed.

(** C1.  For every valid parameter tuple, on a sample set that is not
    empty, has one label per sample and whose coordinates are doubles
    between -16 and 16 (the two moons lie within), [interactive_nn]
    returns without raising; the history that the trainer returns holds
    under ["loss"] exactly [epochs] values, the losses of the epochs in
    order, and these are what the loss curve shows. *)
Theorem interactive_nn_completes neurons activation lr epochs nb :
  valid_parameters neurons activation lr epochs ->
  Nb.X nb <> [] -> length (Nb.y nb) = length (Nb.X nb) ->
  (forall p, In p (Nb.X nb) -> moderate (fst p) /\ moderate (snd p)) ->
  exists nb' model0 nb1 model1 history nb2 losses fig ax1,
    interactive_nn neurons activation lr epochs nb = (inr tt, nb') /\
    create_model neurons activation lr (snd (Plt.clear_output true nb))
      = (inr model0, nb1) /\
    fit model0 (Nb.X nb) (Nb.y nb) epochs nb1 = (inr (model1, history), nb2) /\
    history !! "loss"%string = Some losses /\
    Z.of_nat (length losses) = epochs /\
    losses = epoch_losses (Z.to_nat epochs) (layers model0) (settings lr)
               (variables model0) (Nb.X nb) (Nb.y nb) (Nb.keras_random nb1) /\
    Nb.figures nb' !! length (Nb.figures nb) = Some fig /\
    Pyplot.axes fig !! 1%nat = Some ax1 /\
    Pyplot.artists ax1 = [Pyplot.Line2D losses "purple"].
Proof.
  intros (Hn & Hact & _ & _ & He & _) Hne Hlen Hmod.
  destruct (RenderFacts.moderate_renderable _ _ Hne Hlen Hmod)
    as (xs & ys & Hgrid & Hlx & Hly & _).
  apply valid_activation in Hact.
  set (nb0 := snd (Plt.clear_output true nb)).
  exists (after_interactive neurons activation lr epochs xs ys nb),
    (created neurons activation lr nb0), (after_create neurons activation lr nb0),
    (fst (trained neurons activation lr epochs nb)),
    (snd (trained neurons activation lr epochs nb)),
    (after_fit (created neurons activation lr nb0) (settings lr) (Nb.X nb)
       (Nb.y nb) epochs (after_create neurons activation lr nb0)),
    (plotted_losses neurons activation lr epochs nb),
    (pipeline_figure neurons activation lr epochs xs ys nb),
    (Pyplot.mkAxes "Loss Curve" "Epoch" "Loss"
       [Pyplot.Line2D (plotted_losses neurons activation lr epochs nb) "purple"]).
  split; [apply interactive_nn_ok; auto; lia|].
  split; [apply create_model_ok; auto; lia|].
  split.
  { rewrite (fit_ok _ (settings lr)) by (auto; reflexivity).
    unfold trained. fold nb0. now rewrite <- surjective_pairing. }
  split.
  { unfold trained. fold nb0. rewrite fitted_losses by lia. reflexivity. }
  split.
  { unfold plotted_losses. rewrite epoch_losses_length. lia. }
  split; [reflexivity|].
  split; [apply after_interactive_figure|].
  split; reflexivity.
Qed.

(** C3.  For a positive width and an activation that Keras knows, the
    factory returns a model with exactly one hidden dense layer of that
    width and activation on two inputs and one sigmoid output unit,
    compiled with Adam at the given learning rate and binary
    cross-entropy; its variables are the initialisers' output and the
    optimizer has taken no step.  The layer stack and the compile settings
    do not depend on the state the factory runs in. *)
Theorem create_model_architecture neurons activation lr nb1 nb2 :
  0 < neurons -> activation ∈ Keras.activation_names ->
  exists m1 nb1' m2 nb2',
    create_model neurons activation lr nb1 = (inr m1, nb1') /\
    create_model neurons activation lr nb2 = (inr m2, nb2') /\
    layers m1 = [Keras.mkDense neurons activation (Some [2]);
                 Keras.mkDense 1 "sigmoid" None] /\
    compiled m1 = Some (Keras.mkCompiled (Keras.mkAdam lr 0)
                          "binary_crossentropy" ["accuracy"%string]) /\
    variables m1 = fst (build (layers m1) (Nb.keras_random nb1)) /\
    layers m2 = layers m1 /\ compiled m2 = compiled m1.
Proof.
  intros Hn Hact.
  exists (created neurons activation lr nb1), (after_create neurons activation lr nb1),
    (created neurons activation lr nb2), (after_create neurons activation lr nb2).
  split; [now apply create_model_ok|].
  split; [now apply create_model_ok|].
  repeat split.
Qed.


(** C2, as the code has it.  On a sample set that is not empty, has one
    label per sample and whose coordinates are doubles between -16 and
    16, the renderer returns, and the grid it drew and evaluated the
    model on is the mesh of [np.arange(x_min, x_max, 0.02)] and
    [np.arange(y_min, y_max, 0.02)], where the lower bound of an axis is
    one half below a least and the upper bound one half above a greatest
    value of the feature.  Each axis has at least two coordinates: the
    first is the lower bound, none is below it, none is above the upper
    bound by more than [2 ^ -30], the last is at most a step of 0.02
    (and [2 ^ -30]) below the upper bound, and consecutive coordinates
    are 0.02 apart to within [2 ^ -30].  The upper bound need not be a
    coordinate, and a coordinate can lie above it. *)
Theorem grid_extent model X y ax nb a :
  Nb.axes_at ax nb = Some a ->
  X <> [] -> length y = length X ->
  (forall p, In p X -> moderate (fst p) /\ moderate (snd p)) ->
  exists x_lo x_hi y_lo y_hi xs ys nb',
    least x_lo (map fst X) /\
    greatest x_hi (map fst X) /\
    least y_lo (map snd X) /\
    greatest y_hi (map snd X) /\
    Numpy.arange (sub x_lo (dec 5 10)) (add x_hi (dec 5 10)) (dec 2 100)
      = inr xs /\
    Numpy.arange (sub y_lo (dec 5 10)) (add y_hi (dec 5 10)) (dec 2 100)
      = inr ys /\
    plot_decision_boundary model X y ax nb = (inr tt, nb') /\
    Nb.axes_at ax nb'
    = Some (Pyplot.mkAxes (Pyplot.title a) "Feature 1" "Feature 2"
        (Pyplot.artists a ++
           [Pyplot.Contourf (fst (Numpy.meshgrid xs ys))
              (snd (Numpy.meshgrid xs ys)) (on_grid (class_of model) xs ys)
              (dec 3 10) "coolwarm";
            Pyplot.Scatter (map fst X) (map snd X) y "k"])) /\
    (2 <= length xs)%nat /\ (2 <= length ys)%nat /\
    spans (sub x_lo (dec 5 10)) (add x_hi (dec 5 10)) xs /\
    spans (sub y_lo (dec 5 10)) (add y_hi (dec 5 10)) ys.
Proof.
  intros Hax Hne Hlen Hmod.
  destruct (RenderFacts.moderate_grid X Hne Hmod)
    as (x_lo & x_hi & y_lo & y_hi & xs & ys & H1 & H2 & H3 & H4 & Hxs & Hys
        & Hgrid & Hlx & Hly & Sx & Sy).
  exists x_lo, x_hi, y_lo, y_hi, xs, ys, (after_draw model X y ax xs ys nb).
  do 6 (split; [assumption|]).
  split; [now apply pdb_ok|].
  split; [now apply after_draw_axes|].
  auto.
Qed.

Lemma on_grid_lookup {A} (f : float -> float -> A) xs ys (i j : nat) xv yv :
  ys !! i = Some yv -> xs !! j = Some xv ->
  on_grid f xs ys !! i ≫= (fun row => row !! j) = Some (f xv yv).
Proof.
  intros Hy Hx. unfold on_grid. rewrite list_lookup_fmap, Hy. simpl.
  now rewrite list_lookup_fmap, Hx.
Qed.

Lemma on_grid_classes model xs ys :
  Forall (Forall (fun c => c = 0 \/ c = 1)) (on_grid (class_of model) xs ys).
Proof.
  unfold on_grid. apply Forall_fmap, Forall_true. intros yv.
  apply Forall_fmap, Forall_true. intros xv. simpl.
  unfold class_of. destruct (gtb _ _); auto.
Qed.

(** C5.  When the renderer returns, it has added to the axes a filled
    contour of a class map over the grid, drawn with the [coolwarm]
    colormap, and then a scatter of the samples coloured by their labels.
    The class map has the shape of the grid, every entry is 0 or 1, and
    the entry at a grid point is 1 exactly when the model's output there
    is above one half. *)
Theorem boundary_rendering model X y ax nb nb' a :
  plot_decision_boundary model X y ax nb = (inr tt, nb') ->
  Nb.axes_at ax nb = Some a ->
  exists xx yy cls xs ys,
    Nb.axes_at ax nb'
    = Some (Pyplot.mkAxes (Pyplot.title a) "Feature 1" "Feature 2"
        (Pyplot.artists a ++
           [Pyplot.Contourf xx yy cls (dec 3 10) "coolwarm";
            Pyplot.Scatter (map fst X) (map snd X) y "k"])) /\
    (xx, yy) = Numpy.meshgrid xs ys /\
    Numpy.shape cls = Numpy.shape xx /\
    Forall (Forall (fun c => c = 0 \/ c = 1)) cls /\
    forall (i j : nat) xv yv,
      ys !! i = Some yv -> xs !! j = Some xv ->
      cls !! i ≫= (fun row => row !! j)
      = Some (if gtb (forward (layers model) (variables model) (xv, yv))
                     (dec 5 10)
              then 1 else 0).
Proof.
  intros Hrun Hax.
  destruct (pdb_inv _ _ _ _ _ _ Hrun) as (xs & ys & Hgrid & Hlx & Hly & Hlen & ->).
  exists (fst (Numpy.meshgrid xs ys)), (snd (Numpy.meshgrid xs ys)),
    (on_grid (class_of model) xs ys), xs, ys.
  split; [now apply after_draw_axes|].
  split; [now rewrite <- surjective_pairing|].
  split; [rewrite meshgrid_on_grid; cbn [fst]; now rewrite !on_grid_shape|].
  split; [apply on_grid_classes|].
  intros i j xv yv Hy Hx. now rewrite (on_grid_lookup _ _ _ _ _ _ _ Hy Hx).
Qed.

(** C10.  In the class map that the renderer draws, a grid point gets
    class 1 exactly when the model's output there is strictly greater than
    one half; an output equal to one half gets class 0. *)
Theorem threshold_strict model X y ax nb nb' a :
  plot_decision_boundary model X y ax nb = (inr tt, nb') ->
  Nb.axes_at ax nb = Some a ->
  exists xx yy cls xs ys alpha cmap sc,
    Nb.axes_at ax nb'
    = Some (Pyplot.mkAxes (Pyplot.title a) "Feature 1" "Feature 2"
        (Pyplot.artists a ++ [Pyplot.Contourf xx yy cls alpha cmap; sc])) /\
    (xx, yy) = Numpy.meshgrid xs ys /\
    forall (i j : nat) xv yv,
      ys !! i = Some yv -> xs !! j = Some xv ->
      let p := forward (layers model) (variables model) (xv, yv) in
      exists c, cls !! i ≫= (fun row => row !! j) = Some c /\
        (c = 1 <-> ltb (dec 5 10) p = true) /\
        (c = 0 <-> ltb (dec 5 10) p = false) /\
        (eqb p (dec 5 10) = true -> c = 0).
Proof.
  intros Hrun Hax.
  destruct (pdb_inv _ _ _ _ _ _ Hrun) as (xs & ys & Hgrid & Hlx & Hly & Hlen & ->).
  exists (fst (Numpy.meshgrid xs ys)), (snd (Numpy.meshgrid xs ys)),
    (on_grid (class_of model) xs ys), xs, ys, (dec 3 10), "coolwarm"%string,
    (Pyplot.Scatter (map fst X) (map snd X) y "k").
  split; [now apply after_draw_axes|].
  split; [now rewrite <- surjective_pairing|].
  intros i j xv yv Hy Hx p.
  exists (class_of model xv yv).
  split; [now apply on_grid_lookup|].
  unfold class_of. fold p.
  pose proof (Binary64Facts.gtb_irrefl_eq p (dec 5 10)) as Heq.
  unfold gtb in *. fold (ltb (dec 5 10) p) in *.
  destruct (ltb (dec 5 10) p); repeat split; intros; try congruence; try lia.
  discriminate Heq. assumption.
Qed.

(** C7.  Two runs of the pipeline on the same sample set, whatever the
    activation (and the other parameters, and the state of the
    generators) of each, leave the sample set as it was and show the same
    grid and the same sample overlay: the grid is a function of the sample
    set alone. *)
Theorem activation_frame n1 a1 lr1 e1 n2 a2 lr2 e2 nbA nbB :
  valid_parameters n1 a1 lr1 e1 -> valid_parameters n2 a2 lr2 e2 ->
  renderable (Nb.X nbA) (Nb.y nbA) ->
  Nb.X nbB = Nb.X nbA -> Nb.y nbB = Nb.y nbA ->
  exists nbA' nbB' figA figB xs ys,
    interactive_nn n1 a1 lr1 e1 nbA = (inr tt, nbA') /\
    interactive_nn n2 a2 lr2 e2 nbB = (inr tt, nbB') /\
    Nb.X nbA' = Nb.X nbA /\ Nb.y nbA' = Nb.y nbA /\
    Nb.X nbB' = Nb.X nbA /\ Nb.y nbB' = Nb.y nbA /\
    Nb.figures nbA' !! length (Nb.figures nbA) = Some figA /\
    Nb.figures nbB' !! length (Nb.figures nbB) = Some figB /\
    grid_axes (Nb.X nbA) = inr (xs, ys) /\
    contour_grids figA = [Numpy.meshgrid xs ys] /\
    contour_grids figB = [Numpy.meshgrid xs ys] /\
    scatters figA = scatters figB.
Proof.
  intros (Hn1 & Hact1 & _ & _ & He1 & _) (Hn2 & Hact2 & _ & _ & He2 & _)
    (xs & ys & Hgrid & Hlx & Hly & Hlen) HX Hy.
  apply valid_activation in Hact1, Hact2.
  exists (after_interactive n1 a1 lr1 e1 xs ys nbA),
    (after_interactive n2 a2 lr2 e2 xs ys nbB),
    (pipeline_figure n1 a1 lr1 e1 xs ys nbA),
    (pipeline_figure n2 a2 lr2 e2 xs ys nbB), xs, ys.
  split; [apply interactive_nn_ok; auto; lia|].
  split; [apply interactive_nn_ok; rewrite ?HX, ?Hy; auto; lia|].
  destruct (after_interactive_frame n1 a1 lr1 e1 xs ys nbA) as (-> & -> & _).
  destruct (after_interactive_frame n2 a2 lr2 e2 xs ys nbB) as (-> & -> & _).
  do 4 (split; [auto|]).
  split; [apply after_interactive_figure|].
  split; [apply after_interactive_figure|].
  split; [exact Hgrid|].
  unfold pipeline_figure, contour_grids, scatters, drawn.
  cbn [Pyplot.axes Pyplot.artists flat_map app].
  rewrite HX, Hy, <- surjective_pairing. repeat split.
Qed.

(** C9, as the code has it.  When the renderer returns on samples that
    are doubles, each axis of the grid it drew is
    [np.arange(start, stop, 0.02)] with [start] one half below a least and
    [stop] one half above a greatest value of the feature: the axis has as
    many coordinates as the ceiling of the rounded quotient
    [(stop - start) / 0.02], the first is [start], the second
    [start + 0.02], coordinate [i] is
    [start + i * ((start + 0.02) - start)], all in binary64, and no
    coordinate is below [start].  Nothing is said on how the last
    coordinate compares with [stop]. *)
Theorem grid_coordinates model X y ax nb nb' a :
  plot_decision_boundary model X y ax nb = (inr tt, nb') ->
  Nb.axes_at ax nb = Some a ->
  (forall p, In p X -> valid (fst p) = true /\ valid (snd p) = true) ->
  exists x_lo x_hi y_lo y_hi xs ys cls nx ny sc,
    least x_lo (map fst X) /\
    greatest x_hi (map fst X) /\
    least y_lo (map snd X) /\
    greatest y_hi (map snd X) /\
    Nb.axes_at ax nb'
    = Some (Pyplot.mkAxes (Pyplot.title a) "Feature 1" "Feature 2"
        (Pyplot.artists a ++
           [Pyplot.Contourf (fst (Numpy.meshgrid xs ys))
              (snd (Numpy.meshgrid xs ys)) cls (dec 3 10) "coolwarm"; sc])) /\
    Numpy.arange_safe_ceil_to_intp
      (div (sub (add x_hi (dec 5 10)) (sub x_lo (dec 5 10))) (dec 2 100))
      = inr nx /\
    Numpy.arange_safe_ceil_to_intp
      (div (sub (add y_hi (dec 5 10)) (sub y_lo (dec 5 10))) (dec 2 100))
      = inr ny /\
    length xs = Z.to_nat nx /\ length ys = Z.to_nat ny /\
    (forall i : nat, (i < length xs)%nat ->
       xs !! i = Some (coordinate (sub x_lo (dec 5 10)) (dec 2 100) i)) /\
    (forall i : nat, (i < length ys)%nat ->
       ys !! i = Some (coordinate (sub y_lo (dec 5 10)) (dec 2 100) i)) /\
    (forall c, In c xs -> leb (sub x_lo (dec 5 10)) c = true) /\
    (forall c, In c ys -> leb (sub y_lo (dec 5 10)) c = true).
Proof.
  intros Hrun Hax Hvalid.
  destruct (pdb_inv _ _ _ _ _ _ Hrun) as (xs & ys & Hgrid & Hlx & Hly & Hlen & ->).
  destruct (grid_axes_inv _ _ _ Hgrid)
    as (x_lo & x_hi & y_lo & y_hi & H1 & H2 & H3 & H4 & Hxs & Hys).
  destruct (ArangeFacts.arange_spec _ _ _ _ Hxs) as (nx & Hnx & Hlenx & Hcx).
  destruct (ArangeFacts.arange_spec _ _ _ _ Hys) as (ny & Hny & Hleny & Hcy).
  exists x_lo, x_hi, y_lo, y_hi, xs, ys, (on_grid (class_of model) xs ys), nx, ny,
    (Pyplot.Scatter (map fst X) (map snd X) y "k").
  assert (Hvx : valid x_lo = true).
  { destruct H1 as [Hin _]. apply in_map_iff in Hin as (p & <- & Hp).
    apply (Hvalid p Hp). }
  assert (Hvy : valid y_lo = true).
  { destruct H3 as [Hin _]. apply in_map_iff in Hin as (p & <- & Hp).
    apply (Hvalid p Hp). }
  repeat (split; [assumption|]).
  split; [now apply after_draw_axes|].
  repeat (split; [assumption|]).
  split; [exact (RoundingFacts.grid_axis_lower_bound _ _ _ Hvx Hxs)|].
  exact (RoundingFacts.grid_axis_lower_bound _ _ _ Hvy Hys).
Qed.

End WithBackend.
End Spec.

(** * Edge cases, errors and frames *)

Module Behaviour.
Section WithBackend.
Context `{Backend}.

Import Models Playground GridFacts RunFacts EffectFacts.

(** X1.  Whether it returns or raises, [plot_decision_boundary] changes
    nothing in the kernel but the axes object it was given (and the log of
    calls): the sample set, the generators, the controls, the output area,
    the open figures and every other axes object are as before, and on
    its own axes object it only adds artists and sets the two axis labels,
    so the title and the artists already there stay. *)
Theorem plot_decision_boundary_frame model X y ax nb r nb' :
  plot_decision_boundary model X y ax nb = (r, nb') ->
  only_axes ax nb nb' /\
  (forall ax', ax' <> ax -> Nb.axes_at ax' nb' = Nb.axes_at ax' nb) /\
  (forall a, Nb.axes_at ax nb = Some a ->
     exists a', Nb.axes_at ax nb' = Some a' /\ extends a a').
Proof.
  intros Hrun. pose proof (pdb_keeps model X y ax _ _ _ Hrun) as Honly.
  split; [exact Honly|].
  destruct Honly as (_ & _ & _ & _ & _ & _ & _ & f & Hf & Hfigs).
  unfold Nb.axes_at. rewrite Hfigs. split.
  - intros [i' j'] Hne. destruct ax as [i j]. cbn [Pyplot.fig_num Pyplot.ax_index].
    destruct (decide (i = i')) as [<-|Hi].
    + rewrite list_lookup_alter_eq.
      destruct (Nb.figures nb !! i) as [fig|]; [|reflexivity].
      cbn [fmap option_fmap option_map mbind option_bind Pyplot.alter_axes Pyplot.axes].
      apply list_lookup_alter_ne. congruence.
    + now rewrite list_lookup_alter_ne.
  - intros a. rewrite list_lookup_alter_eq.
    destruct (Nb.figures nb !! Pyplot.fig_num ax) as [fig|]; [|discriminate].
    cbn [fmap option_fmap option_map mbind option_bind Pyplot.alter_axes Pyplot.axes].
    rewrite list_lookup_alter_eq. intros ->.
    exists (f a). split; [reflexivity|apply Hf].
Qed.

(** X2.  Whether it returns or raises, [interactive_nn] leaves the sample set,
    NumPy's generator and the controls as they were, and every figure made
    before is still there, unchanged: the run adds at most one figure,
    after them. *)
Theorem interactive_nn_keeps neurons activation lr epochs nb r nb' :
  interactive_nn neurons activation lr epochs nb = (r, nb') -> kept nb nb'.
Proof.
  unfold interactive_nn. unfold Plt.clear_output at 1. rewrite bind_modify.
  set (nb0 := Nb.set_out (IPython.clear true (Nb.out nb)) nb).
  assert (H0 : calm nb nb0) by (unfold calm; repeat split).
  rewrite bind_run.
  destruct (create_model neurons activation lr nb0) as [[e|model] nb2] eqn:Hc.
  { intros [= <- <-]. apply calm_kept.
    exact (calm_trans _ _ _ H0 (create_model_calm _ _ _ _ _ _ Hc)). }
  pose proof (calm_trans _ _ _ H0 (create_model_calm _ _ _ _ _ _ Hc)) as H2.
  rewrite !bind_gets, bind_run.
  destruct (fit model (Nb.X nb2) (Nb.y nb2) epochs nb2)
    as [[e|[model1 history]] nb3] eqn:Hf.
  { intros [= <- <-]. apply calm_kept.
    exact (calm_trans _ _ _ H2 (fit_calm _ _ _ _ _ _ _ Hf)). }
  pose proof (calm_trans _ _ _ H2 (fit_calm _ _ _ _ _ _ _ Hf)) as H3.
  assert (Hlen : length (Nb.figures nb3) = length (Nb.figures nb))
    by (destruct H3 as (_ & _ & _ & _ & -> & _); reflexivity).
  rewrite bind_run, subplots_run. cbv beta iota. cbn [map seq].
  rewrite bind_lift. cbn [Plt.getitem lookup list_lookup]. unfold ok. cbv beta iota.
  rewrite bind_run. unfold Plt.set_title at 1. rewrite on_axes_run. cbv beta iota.
  pose proof (drawing_subplots nb nb3 2 (12, 4) H3) as H4.
  pose proof (drawing_on_axes nb _ (Pyplot.mkAxRef (length (Nb.figures nb3)) 0)
                (Pyplot.with_title "Decision Boundary") H4 Hlen) as H5.
  rewrite bind_run.
  destruct (plot_decision_boundary model1 (Nb.X nb2) (Nb.y nb2) _ _)
    as [[e|[]] nb6] eqn:Hp.
  { intros [= <- <-]. apply drawing_kept.
    exact (drawing_only_axes _ _ _ _ H5 (pdb_keeps _ _ _ _ _ _ _ Hp) Hlen). }
  pose proof (drawing_only_axes _ _ _ _ H5 (pdb_keeps _ _ _ _ _ _ _ Hp) Hlen) as H6.
  rewrite bind_lift. cbv beta iota.
  rewrite bind_lift. unfold history_getitem.
  destruct (history !! "loss"%string) as [losses|].
  2:{ intros [= <- <-]. now apply drawing_kept. }
  unfold ok. cbv beta iota.
  rewrite bind_run. unfold Plt.plot at 1. rewrite on_axes_run. cbv beta iota.
  rewrite bind_run. unfold Plt.set_title at 1. rewrite on_axes_run. cbv beta iota.
  rewrite bind_run. unfold Plt.set_xlabel at 1. rewrite on_axes_run. cbv beta iota.
  rewrite bind_run. unfold Plt.set_ylabel at 1. rewrite on_axes_run. cbv beta iota.
  rewrite show_run. intros Heq. apply pair_equal_spec in Heq as [_ <-].
  apply drawing_kept, drawing_after_show.
  do 4 (apply drawing_on_axes; [|exact Hlen]). exact H6.
Qed.

(** X3.  A change of a control never raises.  When the new value equals the
    stored one nothing happens at all; otherwise the function runs and
    the output area then holds exactly one item: the figure of the run,
    which is the newest figure, or the traceback of the exception that
    ended it.  No figure is left over from an earlier run, shown or
    failed. *)
Theorem on_change_single_output c nb :
  exists nb',
    on_change c nb = (inr tt, nb') /\
    (differs c nb = false -> nb' = nb) /\
    (differs c nb = true ->
       exists item,
         Nb.out nb' = IPython.mkOutputArea [item] false /\
         ((exists fig, item = IPython.DisplayFigure fig /\
             Nb.figures nb' !! length (Nb.figures nb) = Some fig) \/
          (exists e, item = IPython.Traceback e))).
Proof.
  unfold on_change. destruct (differs c nb).
  2:{ exists nb. split; [reflexivity|]. split; [reflexivity|discriminate]. }
  unfold observer. rewrite !bind_gets, bind_run, flush_run. cbv beta iota.
  unfold capture. unfold Plt.clear_output at 1. rewrite bind_modify, bind_run.
  change (Nb.set_out (IPython.clear true (Nb.out (Nb.set_open_figures [] (store c nb))))
            (Nb.set_open_figures [] (store c nb))) with (before_run (store c nb)).
  destruct (interactive_nn _ _ _ _ (before_run (store c nb)))
    as [[e|[]] nb1] eqn:Hrun.
  - eexists. split; [reflexivity|]. split; [discriminate|]. intros _.
    exists (IPython.Traceback e). split; [|right; eauto].
    cbn [Nb.out Nb.set_out].
    rewrite (interactive_nn_quiet _ _ _ _ _ _ _ Hrun). reflexivity.
  - destruct (interactive_nn_shows _ _ _ _ _ _ Hrun eq_refl)
      as (fig & Hout & Hopen & Hfig).
    rewrite flush_run. eexists. split; [reflexivity|].
    split; [discriminate|]. intros _.
    exists (IPython.DisplayFigure fig).
    cbn [Nb.out Nb.figures Nb.set_out Nb.set_open_figures].
    rewrite Hopen. cbn [show_out fold_left]. split; [exact Hout|].
    left. exists fig. split; [reflexivity|].
    rewrite figures_before_run, figures_store in Hfig. exact Hfig.
Qed.

(** X4.  A change of a control whose run of [interactive_nn] raises does not
    raise itself: the output widget catches the exception, and the area
    then holds the traceback and nothing else, the earlier output being
    cleared. *)
Theorem failure_shows_traceback c nb neurons activation lr epochs e nb1 :
  differs c nb = true ->
  current (store c nb) = (neurons, activation, lr, epochs) ->
  interactive_nn neurons activation lr epochs (before_run (store c nb))
    = (inl e, nb1) ->
  on_change c nb
  = (inr tt, Nb.set_out (IPython.mkOutputArea [IPython.Traceback e] false) nb1).
Proof.
  intros Hd Hcur Hrun. unfold on_change. rewrite Hd.
  injection Hcur as Hn Ha Hl He.
  unfold observer. rewrite !bind_gets, bind_run, flush_run. cbv beta iota.
  unfold capture. unfold Plt.clear_output at 1. rewrite bind_modify, bind_run.
  change (Nb.set_out (IPython.clear true (Nb.out (Nb.set_open_figures [] (store c nb))))
            (Nb.set_open_figures [] (store c nb))) with (before_run (store c nb)).
  rewrite Hn, Ha, Hl, He, Hrun.
  rewrite (interactive_nn_quiet _ _ _ _ _ _ _ Hrun).
  reflexivity.
Qed.



(** X7.  With a positive width and a known activation, [interactive_nn]
    on an empty sample set raises the [ValueError] of [X[:, 0].min()] in
    [plot_decision_boundary]: [fit] has returned without an epoch of
    training, the new figure is there with the title of its first axes
    and nothing drawn, it is still open, and nothing has been shown. *)
Theorem empty_dataset_raises neurons activation lr epochs nb :
  0 < neurons -> activation ∈ Keras.activation_names ->
  Nb.X nb = [] -> Nb.y nb = [] ->
  exists nb',
    interactive_nn neurons activation lr epochs nb
    = (inl (ValueError
         "zero-size array to reduction operation minimum which has no identity"),
       nb') /\
    Nb.figures nb'
    = Nb.figures nb
      ++ [Pyplot.mkFigure (12, 4)
            [Pyplot.mkAxes "Decision Boundary" "" "" []; Pyplot.empty_axes]] /\
    Nb.open_figures nb' = Nb.open_figures nb ++ [length (Nb.figures nb)] /\
    Nb.out nb' = IPython.clear true (Nb.out nb) /\
    Nb.calls nb'
    = Nb.calls nb
      ++ [Call_create_model neurons activation lr; Call_fit epochs;
          Call_plot_decision_boundary].
Proof.
  intros Hn Hact HX Hy.
  exists (boundary_entered neurons activation lr epochs nb).
  split; [now apply interactive_nn_empty|].
  split; [apply boundary_entered_figures|].
  apply boundary_entered_frame.
Qed.

(** X8.  With no epoch to run ([epochs <= 0]) [interactive_nn] raises
    [KeyError: 'loss'], because the history of such a run of [fit] is
    empty; by then the decision boundary is drawn on the first axes of the
    new figure, the second axes are empty, the figure is still open and
    nothing has been shown. *)
Theorem no_epochs_key_error neurons activation lr epochs nb :
  0 < neurons -> activation ∈ Keras.activation_names -> epochs <= 0 ->
  renderable (Nb.X nb) (Nb.y nb) ->
  exists nb' xs ys,
    interactive_nn neurons activation lr epochs nb
    = (inl (KeyError "loss"), nb') /\
    Nb.figures nb' !! length (Nb.figures nb)
    = Some (Pyplot.mkFigure (12, 4)
        [drawn (fst (trained neurons activation lr epochs nb))
           (Nb.X nb) (Nb.y nb) xs ys
           (Pyplot.mkAxes "Decision Boundary" "" "" []);
         Pyplot.empty_axes]) /\
    Nb.open_figures nb' = Nb.open_figures nb ++ [length (Nb.figures nb)] /\
    Nb.out nb' = IPython.clear true (Nb.out nb).
Proof.
  intros Hn Hact He (xs & ys & Hgrid & Hlx & Hly & Hlen).
  exists (boundary_drawn neurons activation lr epochs xs ys nb), xs, ys.
  split; [now apply interactive_nn_no_epochs|].
  split; [apply boundary_drawn_figure|].
  apply boundary_drawn_frame.
Qed.

(** X9.  A run of [fit] over at least one epoch, on a model compiled with
    no metric or with accuracy as its only one, returns a history whose
    key ["loss"] holds one value per epoch; the key ["accuracy"] holds one
    value per epoch when the model was compiled with that metric, as
    [create_model] does, and is absent otherwise; there is no other
    key. *)
Theorem fit_history_keys model c X y epochs nb :
  compiled model = Some c ->
  Keras.metrics c = [] \/ Keras.metrics c = ["accuracy"%string] ->
  length X = length y -> X <> [] -> 0 < epochs ->
  exists model' (h : History) nb' losses,
    fit model X y epochs nb = (inr (model', h), nb') /\
    h !! "loss"%string = Some losses /\
    Z.of_nat (length losses) = epochs /\
    (Keras.metrics c = ["accuracy"%string] ->
     exists accs, h !! "accuracy"%string = Some accs /\
                  Z.of_nat (length accs) = epochs) /\
    (Keras.metrics c = [] -> h !! "accuracy"%string = None) /\
    forall k, k <> "loss"%string -> k <> "accuracy"%string -> h !! k = None.
Proof.
  intros Hc Hm Hlen Hne Hpos.
  exists (fst (fitted model c X y epochs nb)),
    (snd (fitted model c X y epochs nb)),
    (after_fit model c X y epochs nb),
    (epoch_losses (Z.to_nat epochs) (layers model) c (variables model) X y
       (Nb.keras_random nb)).
  split; [rewrite (fit_ok _ _ _ _ _ _ Hc Hlen Hne); now rewrite <- surjective_pairing|].
  split; [exact (fitted_losses model c X y epochs nb Hpos)|].
  split; [rewrite epoch_losses_length; lia|].
  split.
  { intros Hacc.
    assert (Hin : "accuracy"%string ∈ Keras.metrics c)
      by (rewrite Hacc; apply list_elem_of_In; simpl; tauto).
    destruct (fit_loop_accuracy (Z.to_nat epochs) (layers model) c
                (variables model) X y ∅ (Nb.keras_random nb) Hin)
      as (accs & Hla & Hh).
    exists accs. split; [|lia].
    unfold fitted. cbn [snd]. fold (fit_history
      (fit_loop (Z.to_nat epochs) (layers model) c (variables model) X y ∅
         (Nb.keras_random nb))). rewrite Hh.
    destruct (Z.to_nat epochs) eqn:He; [lia|]. now rewrite lookup_empty. }
  split.
  { intros Hnone. unfold fitted. cbn [snd].
    fold (fit_history
      (fit_loop (Z.to_nat epochs) (layers model) c (variables model) X y ∅
         (Nb.keras_random nb))).
    rewrite fit_loop_untracked; [apply lookup_empty|].
    rewrite Hnone. apply not_elem_of_nil. }
  intros k H1 H2. unfold fitted. cbn [snd].
  rewrite fit_loop_other by assumption. apply lookup_empty.
Qed.

(** X10.  The rows that [np.c_[xx.ravel(), yy.ravel()]] hands to [predict] are
    the grid points row by row: there are [len(xs) * len(ys)] of them, and
    the point with the [j]-th coordinate of the first axis and the [i]-th
    of the second is at position [i * len(xs) + j]. *)
Theorem grid_points_row_major xs ys (i j : nat) xv yv :
  ys !! i = Some yv -> xs !! j = Some xv ->
  exists pts,
    Numpy.c_ (Numpy.ravel (fst (Numpy.meshgrid xs ys)))
             (Numpy.ravel (snd (Numpy.meshgrid xs ys))) = inr pts /\
    length pts = (length xs * length ys)%nat /\
    pts !! (i * length xs + j)%nat = Some (xv, yv).
Proof.
  intros Hi Hj. rewrite meshgrid_on_grid. cbn [fst snd]. rewrite c_ravel.
  eexists. split; [reflexivity|].
  split; [rewrite ravel_length; lia|].
  now apply (ravel_lookup (fun xv yv => (xv, yv))).
Qed.

(** X11.  With a positive width and a known activation, [interactive_nn]
    on a sample set whose labels do not match the samples in number
    raises a [ValueError] in [fit]: the model has been built by then, no
    figure has been made and nothing has been shown. *)
Theorem mismatched_labels_raise neurons activation lr epochs nb :
  0 < neurons -> activation ∈ Keras.activation_names ->
  length (Nb.X nb) <> length (Nb.y nb) ->
  exists msg nb',
    interactive_nn neurons activation lr epochs nb
    = (inl (ValueError msg), nb') /\
    Nb.figures nb' = Nb.figures nb /\
    Nb.open_figures nb' = Nb.open_figures nb /\
    Nb.out nb' = IPython.clear true (Nb.out nb) /\
    Nb.calls nb'
    = Nb.calls nb ++ [Call_create_model neurons activation lr; Call_fit epochs].
Proof.
  intros Hn Hact Hbad. eexists. eexists.
  split; [exact (interactive_nn_mismatch _ _ _ _ _ Hn Hact Hbad)|].
  unfold logged. cbn [Nb.calls Nb.set_calls Nb.figures Nb.open_figures Nb.out].
  repeat split. cbn. now rewrite <- app_assoc.
Qed.


End WithBackend.
End Behaviour.

(** * Concrete runs *)

Module Examples.

Import Models Playground RunFacts Spec.

(** A small backend: generators are counters, a model's variables are the
    number of epochs it has seen, the loss of an epoch is that number, and
    the network's output is the first feature. *)
Definition toy : Backend := {|
  RandomState := Z;
  RandomState_seed := fun seed => seed;
  moons := fun n noise g =>
    ((repeat (of_Z (g mod 2), of_Z ((g + 1) mod 2)) n, repeat (g mod 2) n),
     g + 1);
  Variables := Z;
  Generator := Z;
  build := fun ls g => (0, g + 1);
  train_epoch := fun ls c v X y g => ((v + 1, of_Z v, of_Z 1), g + 1);
  forward := fun ls v p => fst p
|}.

#[local] Existing Instance toy.

(** Without a seed the result of [make_moons] follows NumPy's global
    generator. *)
Example unseeded_moons_follow_the_global_generator :
  fst (Sklearn.make_moons 2 None None (0 : @RandomState toy))
  <> fst (Sklearn.make_moons 2 None None (1 : @RandomState toy)).
Proof. vm_compute. discriminate. Qed.

(** Two ranges as NumPy gives them: [np.arange(1, 1.3, 0.1)] has four
    entries, and the last entry of [np.arange(3.15, 4.15, 0.02)] is its stop
    value 4.15. *)
Example arange_1_to_1_3 :
  exists xs, Numpy.arange (of_Z 1) (dec 13 10) (dec 1 10) = inr xs /\
             length xs = 4%nat.
Proof. eexists. split; vm_compute; reflexivity. Qed.

Example arange_reaches_stop :
  exists xs, Numpy.arange (sub (dec 365 100) (dec 5 10))
                          (add (dec 365 100) (dec 5 10)) (dec 2 100) = inr xs /\
             length xs = 51%nat /\
             last xs = Some (add (dec 365 100) (dec 5 10)).
Proof. eexists. split; [|split]; vm_compute; reflexivity. Qed.

(** A kernel with two samples, [(1.7, 0.3)] labelled 0 and [(0.2, 1.1)]
    labelled 1, and the controls at their initial values. *)
Definition two_samples : @Nb.Notebook toy := {|
  Nb.X := [(dec 17 10, dec 3 10); (dec 2 10, dec 11 10)];
  Nb.y := [0; 1];
  Nb.np_random := 0;
  Nb.keras_random := 0;
  Nb.figures := [];
  Nb.open_figures := [];
  Nb.out := IPython.mkOutputArea [] false;
  Nb.neurons_slider := Widgets.mkIntSlider 4 2 20 1 "Neurons";
  Nb.activation_dropdown :=
    Widgets.mkDropdown ["relu"; "tanh"; "sigmoid"]%string "relu" "Activation";
  Nb.lr_slider := Widgets.mkFloatLogSlider (dec 1 100) 10 (-4) (-1) "Learning Rate";
  Nb.epochs_slider := Widgets.mkIntSlider 100 50 500 50 "Epochs";
  Nb.calls := []
|}.

Lemma valid_defaults activation :
  activation ∈ ["relu"; "tanh"; "sigmoid"]%string ->
  valid_parameters 4 activation (dec 1 100) 100.
Proof.
  intros Hact. unfold valid_parameters.
  repeat split; try lia; try assumption; reflexivity.
Defined.

Lemma two_samples_renderable :
  renderable (Nb.X two_samples) (Nb.y two_samples).
Proof.
  unfold renderable. eexists. eexists.
  split; [vm_compute; reflexivity|].
  split; [apply Nat.leb_le; vm_compute; reflexivity|].
  split; [apply Nat.leb_le; vm_compute; reflexivity|].
  reflexivity.
Defined.

Lemma relu_option : "relu"%string ∈ ["relu"; "tanh"; "sigmoid"]%string.
Proof. apply list_elem_of_In. simpl. tauto. Defined.

Lemma tanh_option : "tanh"%string ∈ ["relu"; "tanh"; "sigmoid"]%string.
Proof. apply list_elem_of_In. simpl. tauto. Defined.

Lemma two_samples_moderate :
  forall p, In p (Nb.X two_samples) -> moderate (fst p) /\ moderate (snd p).
Proof.
  intros p [<-|[<-|[]]]; split; repeat split; vm_compute; reflexivity.
Defined.

Lemma two_samples_inhabited : Nb.X two_samples <> [].
Proof. discriminate. Defined.

Lemma interactive_nn_completes_witness :
  valid_parameters 4 "relu" (dec 1 100) 100 /\
  Nb.X two_samples <> [] /\
  length (Nb.y two_samples) = length (Nb.X two_samples) /\
  (forall p, In p (Nb.X two_samples) -> moderate (fst p) /\ moderate (snd p)) /\
  exists nb' (losses : list float),
    interactive_nn 4 "relu" (dec 1 100) 100 two_samples = (inr tt, nb') /\
    length losses = 100%nat.
Proof.
  split; [exact (valid_defaults _ relu_option)|].
  split; [exact two_samples_inhabited|]. split; [reflexivity|].
  split; [exact two_samples_moderate|].
  destruct (interactive_nn_completes 4 "relu" (dec 1 100) 100 two_samples
              (valid_defaults _ relu_option) two_samples_inhabited eq_refl
              two_samples_moderate)
    as (nb' & _ & _ & _ & _ & _ & losses & _ & _ & Hrun & _ & _ & _ & Hl & _).
  exists nb', losses. split; [exact Hrun|lia].
Defined.

Lemma create_model_architecture_witness :
  0 < 4 /\ "relu"%string ∈ Keras.activation_names /\
  exists m1 m2,
    fst (create_model 4 "relu" (dec 1 100) two_samples) = inr m1 /\
    fst (create_model 4 "relu" (dec 1 100)
           (@Nb.set_keras_random toy 7 two_samples)) = inr m2 /\
    layers m2 = layers m1 /\ compiled m2 = compiled m1.
Proof.
  assert (Hn : 0 < 4) by lia.
  assert (Hact : "relu"%string ∈ Keras.activation_names)
    by (apply list_elem_of_In; simpl; tauto).
  split; [exact Hn|]. split; [exact Hact|].
  destruct (create_model_architecture 4 "relu" (dec 1 100) two_samples
              (@Nb.set_keras_random toy 7 two_samples) Hn Hact)
    as (m1 & nb1' & m2 & nb2' & Hr1 & Hr2 & _ & _ & _ & Hl & Hc).
  exists m1, m2. rewrite Hr1, Hr2. auto.
Defined.

(** A kernel with the single sample [(1.7, 1.7)], holding a figure with
    two empty axes; a model fresh from the factory; the grid axis that
    [np.arange(1.7 - .5, 1.7 + .5, 0.02)] gives. *)
Definition one_sample : @Nb.Notebook toy :=
  snd (Plt.subplots 2 (12, 4)
         (Nb.set_dataset ([(dec 17 10, dec 17 10)], [0]) two_samples)).
Definition ax0 : Pyplot.AxRef := Pyplot.mkAxRef 0 0.
Definition fresh : Sequential := created 4 "relu" (dec 1 100) two_samples.
Definition axis_1_7 : list float :=
  Eval vm_compute in
  match Numpy.arange (sub (dec 17 10) (dec 5 10)) (add (dec 17 10) (dec 5 10))
          (dec 2 100) with
  | inr xs => xs
  | inl _ => []
  end.
Definition rendered : Nb.Notebook :=
  after_draw fresh (Nb.X one_sample) (Nb.y one_sample) ax0 axis_1_7 axis_1_7
    one_sample.

Lemma one_sample_grid : grid_axes (Nb.X one_sample) = inr (axis_1_7, axis_1_7).
Proof. vm_compute. reflexivity. Defined.

Lemma rendered_run :
  plot_decision_boundary fresh (Nb.X one_sample) (Nb.y one_sample) ax0 one_sample
  = (inr tt, rendered).
Proof.
  apply pdb_ok.
  - exact one_sample_grid.
  - apply Nat.leb_le. vm_compute. reflexivity.
  - apply Nat.leb_le. vm_compute. reflexivity.
  - reflexivity.
Defined.

Lemma canvas_axes : Nb.axes_at ax0 one_sample = Some Pyplot.empty_axes.
Proof. vm_compute. reflexivity. Defined.

Lemma one_sample_moderate :
  forall p, In p (Nb.X one_sample) -> moderate (fst p) /\ moderate (snd p).
Proof.
  intros p [<-|[]]; split; repeat split; vm_compute; reflexivity.
Defined.

Lemma one_sample_inhabited : Nb.X one_sample <> [].
Proof. discriminate. Defined.

Lemma grid_extent_witness :
  Nb.axes_at ax0 one_sample = Some Pyplot.empty_axes /\
  Nb.X one_sample <> [] /\
  length (Nb.y one_sample) = length (Nb.X one_sample) /\
  (forall p, In p (Nb.X one_sample) -> moderate (fst p) /\ moderate (snd p)) /\
  exists x_lo x_hi xs nb',
    plot_decision_boundary fresh (Nb.X one_sample) (Nb.y one_sample) ax0
      one_sample = (inr tt, nb') /\
    spans (sub x_lo (dec 5 10)) (add x_hi (dec 5 10)) xs.
Proof.
  split; [exact canvas_axes|]. split; [exact one_sample_inhabited|].
  split; [reflexivity|]. split; [exact one_sample_moderate|].
  destruct (grid_extent fresh (Nb.X one_sample) (Nb.y one_sample) ax0 one_sample
              Pyplot.empty_axes canvas_axes one_sample_inhabited eq_refl
              one_sample_moderate)
    as (x_lo & x_hi & y_lo & y_hi & xs & ys & nb' & _ & _ & _ & _ & _ & _
        & Hrun & _ & _ & _ & Sx & _).
  exists x_lo, x_hi, xs, nb'. split; [exact Hrun|exact Sx].
Defined.

Lemma boundary_rendering_witness :
  plot_decision_boundary fresh (Nb.X one_sample) (Nb.y one_sample) ax0 one_sample
    = (inr tt, rendered) /\
  Nb.axes_at ax0 one_sample = Some Pyplot.empty_axes /\
  exists xx yy cls,
    Nb.axes_at ax0 rendered
    = Some (Pyplot.mkAxes "" "Feature 1" "Feature 2"
        [Pyplot.Contourf xx yy cls (dec 3 10) "coolwarm";
         Pyplot.Scatter (map fst (Nb.X one_sample)) (map snd (Nb.X one_sample))
           (Nb.y one_sample) "k"]) /\
    Forall (Forall (fun c => c = 0 \/ c = 1)) cls.
Proof.
  split; [exact rendered_run|]. split; [exact canvas_axes|].
  destruct (boundary_rendering _ _ _ _ _ _ _ rendered_run canvas_axes)
    as (xx & yy & cls & xs & ys & Hax & _ & _ & Hcls & _).
  exists xx, yy, cls. auto.
Defined.

Lemma threshold_strict_witness :
  plot_decision_boundary fresh (Nb.X one_sample) (Nb.y one_sample) ax0 one_sample
    = (inr tt, rendered) /\
  Nb.axes_at ax0 one_sample = Some Pyplot.empty_axes /\
  exists xx yy cls alpha cmap sc,
    Nb.axes_at ax0 rendered
    = Some (Pyplot.mkAxes "" "Feature 1" "Feature 2"
              [Pyplot.Contourf xx yy cls alpha cmap; sc]).
Proof.
  split; [exact rendered_run|]. split; [exact canvas_axes|].
  destruct (threshold_strict _ _ _ _ _ _ _ rendered_run canvas_axes)
    as (xx & yy & cls & xs & ys & alpha & cmap & sc & Hax & _).
  exists xx, yy, cls, alpha, cmap, sc. exact Hax.
Defined.

Lemma one_sample_valid :
  forall p, In p (Nb.X one_sample) -> valid (fst p) = true /\ valid (snd p) = true.
Proof. intros p [<-|[]]. split; vm_compute; reflexivity. Defined.

Lemma grid_coordinates_witness :
  plot_decision_boundary fresh (Nb.X one_sample) (Nb.y one_sample) ax0 one_sample
    = (inr tt, rendered) /\
  Nb.axes_at ax0 one_sample = Some Pyplot.empty_axes /\
  (forall p, In p (Nb.X one_sample) ->
     valid (fst p) = true /\ valid (snd p) = true) /\
  exists x_lo y_lo xs ys,
    (forall i : nat, (i < length xs)%nat ->
       xs !! i = Some (coordinate (sub x_lo (dec 5 10)) (dec 2 100) i)) /\
    (forall i : nat, (i < length ys)%nat ->
       ys !! i = Some (coordinate (sub y_lo (dec 5 10)) (dec 2 100) i)) /\
    (forall c, In c xs -> leb (sub x_lo (dec 5 10)) c = true) /\
    (forall c, In c ys -> leb (sub y_lo (dec 5 10)) c = true).
Proof.
  split; [exact rendered_run|]. split; [exact canvas_axes|].
  split; [exact one_sample_valid|].
  destruct (grid_coordinates _ _ _ _ _ _ _ rendered_run canvas_axes one_sample_valid)
    as (x_lo & x_hi & y_lo & y_hi & xs & ys & cls & nx & ny & sc & _ & _ & _ & _
        & _ & _ & _ & _ & _ & Hx & Hy & Hbx & Hby).
  exists x_lo, y_lo, xs, ys. auto.
Defined.


Lemma activation_frame_witness :
  valid_parameters 4 "relu" (dec 1 100) 100 /\
  valid_parameters 4 "tanh" (dec 1 100) 100 /\
  renderable (Nb.X two_samples) (Nb.y two_samples) /\
  exists nbA' nbB' figA figB,
    interactive_nn 4 "relu" (dec 1 100) 100 two_samples = (inr tt, nbA') /\
    interactive_nn 4 "tanh" (dec 1 100) 100 two_samples = (inr tt, nbB') /\
    Nb.X nbA' = Nb.X nbB' /\ Nb.y nbA' = Nb.y nbB' /\
    Nb.figures nbA' !! 0%nat = Some figA /\
    Nb.figures nbB' !! 0%nat = Some figB /\
    contour_grids figA = contour_grids figB /\
    scatters figA = scatters figB.
Proof.
  split; [exact (valid_defaults _ relu_option)|].
  split; [exact (valid_defaults _ tanh_option)|].
  split; [exact two_samples_renderable|].
  destruct (activation_frame 4 "relu" (dec 1 100) 100 4 "tanh" (dec 1 100) 100
              two_samples two_samples (valid_defaults _ relu_option)
              (valid_defaults _ tanh_option) two_samples_renderable
              eq_refl eq_refl)
    as (nbA' & nbB' & figA & figB & xs & ys & HrA & HrB & HXA & HyA & HXB & HyB
        & HfA & HfB & _ & HgA & HgB & Hsc).
  exists nbA', nbB', figA, figB.
  rewrite HXA, HXB, HyA, HyB, HgA, HgB. auto 10.
Defined.

(** C2 fails as stated.  For the sample set with the single sample
    [(1.7, 1.7)] the renderer returns and the second axis of the grid has
    51 coordinates: the first two, 1.2 and 1.22, are not the double 0.02
    apart, and the last, 2.200000000000001, is above the upper bound
    [max + 0.5 = 2.2]. *)
Lemma grid_bounds_counterexample :
  exists nb' a xx yy cls alpha cmap sc c0 c1 cn y_hi,
    plot_decision_boundary fresh [(dec 17 10, dec 17 10)] [0] ax0 one_sample
      = (inr tt, nb') /\
    Nb.axes_at ax0 nb' = Some a /\
    Pyplot.artists a = [Pyplot.Contourf xx yy cls alpha cmap; sc] /\
    length yy = 51%nat /\
    yy !! 0%nat ≫= head = Some c0 /\
    yy !! 1%nat ≫= head = Some c1 /\
    last yy ≫= head = Some cn /\
    eqb (sub c1 c0) (dec 2 100) = false /\
    Numpy.amax (map snd [(dec 17 10, dec 17 10)]) = inr y_hi /\
    ltb (add y_hi (dec 5 10)) cn = true.
Proof.
  exists rendered,
    (drawn fresh (Nb.X one_sample) (Nb.y one_sample) axis_1_7 axis_1_7
       Pyplot.empty_axes),
    (fst (Numpy.meshgrid axis_1_7 axis_1_7)),
    (snd (Numpy.meshgrid axis_1_7 axis_1_7)),
    (on_grid (class_of fresh) axis_1_7 axis_1_7),
    (dec 3 10), "coolwarm"%string,
    (Pyplot.Scatter (map fst (Nb.X one_sample)) (map snd (Nb.X one_sample))
       (Nb.y one_sample) "k"),
    (S754_finite false 5404319552844595 (-52)),
    (S754_finite false 5494391545392005 (-52)),
    (S754_finite false 4953959590107548 (-51)), (dec 17 10).
  split; [exact rendered_run|].
  split; [apply after_draw_axes; exact canvas_axes|].
  do 7 (split; [vm_compute; reflexivity|]).
  vm_compute. reflexivity.
Qed.

(** C9 fails as stated.  For the sample set with the single sample
    [(1.7, 1.7)] the renderer returns, the upper bound of the first axis
    is 2.2, and the last coordinate of that axis is 2.200000000000001:
    [np.arange(1.2, 2.2, 0.02)] has 51 entries, because the rounded
    quotient [(2.2 - 1.2) / 0.02] is just above 50. *)
Lemma half_open_grid_counterexample :
  exists nb' a xx yy cls alpha cmap sc row c x_hi,
    plot_decision_boundary fresh [(dec 17 10, dec 17 10)] [0] ax0 one_sample
      = (inr tt, nb') /\
    Nb.axes_at ax0 nb' = Some a /\
    Pyplot.artists a = [Pyplot.Contourf xx yy cls alpha cmap; sc] /\
    head xx = Some row /\ length row = 51%nat /\ last row = Some c /\
    Numpy.amax (map fst [(dec 17 10, dec 17 10)]) = inr x_hi /\
    add x_hi (dec 5 10) = S754_finite false 4953959590107546 (-51) /\
    c = S754_finite false 4953959590107548 (-51) /\
    ltb c (add x_hi (dec 5 10)) = false /\
    ltb (add x_hi (dec 5 10)) c = true.
Proof.
  exists rendered,
    (drawn fresh (Nb.X one_sample) (Nb.y one_sample) axis_1_7 axis_1_7
       Pyplot.empty_axes),
    (fst (Numpy.meshgrid axis_1_7 axis_1_7)),
    (snd (Numpy.meshgrid axis_1_7 axis_1_7)),
    (on_grid (class_of fresh) axis_1_7 axis_1_7),
    (dec 3 10), "coolwarm"%string,
    (Pyplot.Scatter (map fst (Nb.X one_sample)) (map snd (Nb.X one_sample))
       (Nb.y one_sample) "k"),
    axis_1_7, (S754_finite false 4953959590107548 (-51)), (dec 17 10).
  split; [exact rendered_run|].
  split; [apply after_draw_axes; exact canvas_axes|].
  do 8 (split; [vm_compute; reflexivity|]).
  vm_compute. reflexivity.
Qed.

End Examples.

(** * Concrete runs of the edge cases *)

Module BehaviourExamples.

Import Models Playground RunFacts Behaviour Examples.

#[local] Existing Instance toy.

(** The kernel of [two_samples] without samples and without labels, and a
    sample whose first feature is NaN. *)
Definition no_samples : @Nb.Notebook toy := Nb.set_dataset ([], []) two_samples.
Definition no_labels : @Nb.Notebook toy :=
  Nb.set_dataset (Nb.X two_samples, []) two_samples.

Lemma plot_decision_boundary_frame_witness :
  plot_decision_boundary fresh (Nb.X one_sample) (Nb.y one_sample) ax0 one_sample
    = (inr tt, rendered) /\
  only_axes ax0 one_sample rendered.
Proof.
  split; [exact rendered_run|].
  exact (proj1 (plot_decision_boundary_frame _ _ _ _ _ _ _ rendered_run)).
Defined.


Lemma relu_known : "relu"%string ∈ Keras.activation_names.
Proof. apply list_elem_of_In. simpl. tauto. Defined.

Lemma no_epochs_key_error_witness :
  0 < 4 /\ "relu"%string ∈ Keras.activation_names /\ 0 <= 0 /\
  renderable (Nb.X two_samples) (Nb.y two_samples) /\
  exists nb',
    interactive_nn 4 "relu" (dec 1 100) 0 two_samples
    = (inl (KeyError "loss"), nb') /\
    Nb.open_figures nb' = [0%nat].
Proof.
  assert (Hn : 0 < 4) by lia. assert (He : 0 <= 0) by lia.
  split; [exact Hn|]. split; [exact relu_known|]. split; [exact He|].
  split; [exact two_samples_renderable|].
  destruct (no_epochs_key_error 4 "relu" (dec 1 100) 0 two_samples Hn relu_known
              He two_samples_renderable)
    as (nb' & xs & ys & Hrun & _ & Hopen & _).
  exists nb'. split; [exact Hrun|exact Hopen].
Defined.

Definition stopped : @Nb.Notebook toy :=
  boundary_entered 4 "tanh" (dec 1 100) 100
    (before_run (store (Activation "tanh") no_samples)).

Lemma tanh_known : "tanh"%string ∈ Keras.activation_names.
Proof. apply list_elem_of_In. simpl. tauto. Defined.

Lemma no_samples_run :
  interactive_nn 4 "tanh" (dec 1 100) 100
    (before_run (store (Activation "tanh") no_samples))
  = (inl (ValueError
       "zero-size array to reduction operation minimum which has no identity"),
     stopped).
Proof.
  apply (EffectFacts.interactive_nn_empty 4 "tanh" (dec 1 100) 100
           (before_run (store (Activation "tanh") no_samples)));
    [lia|exact tanh_known|reflexivity|reflexivity].
Defined.

Lemma failure_shows_traceback_witness :
  differs (Activation "tanh") no_samples = true /\
  current (store (Activation "tanh") no_samples)
    = (4, "tanh"%string, dec 1 100, 100) /\
  exists nb',
    on_change (Activation "tanh") no_samples = (inr tt, nb') /\
    Nb.out nb'
    = IPython.mkOutputArea
        [IPython.Traceback
           (ValueError
              "zero-size array to reduction operation minimum which has no identity")]
        false.
Proof.
  assert (Hd : differs (Activation "tanh") no_samples = true) by reflexivity.
  assert (Hc : current (store (Activation "tanh") no_samples)
               = (4, "tanh"%string, dec 1 100, 100)) by reflexivity.
  split; [exact Hd|]. split; [exact Hc|].
  eexists. split.
  - exact (failure_shows_traceback _ _ _ _ _ _ _ _ Hd Hc no_samples_run).
  - reflexivity.
Defined.


Lemma fresh_compiled : compiled fresh = Some (settings (dec 1 100)).
Proof. reflexivity. Defined.

Lemma two_samples_labelled :
  length (Nb.X two_samples) = length (Nb.y two_samples).
Proof. reflexivity. Defined.

Lemma two_samples_nonempty : Nb.X two_samples <> [].
Proof. discriminate. Defined.

Lemma fresh_metrics :
  Keras.metrics (settings (dec 1 100)) = []
  \/ Keras.metrics (settings (dec 1 100)) = ["accuracy"%string].
Proof. right. reflexivity. Defined.

Lemma fit_history_keys_witness :
  compiled fresh = Some (settings (dec 1 100)) /\
  (Keras.metrics (settings (dec 1 100)) = []
   \/ Keras.metrics (settings (dec 1 100)) = ["accuracy"%string]) /\
  length (Nb.X two_samples) = length (Nb.y two_samples) /\
  Nb.X two_samples <> [] /\ 0 < 3 /\
  exists model' (h : History) nb' accs,
    fit fresh (Nb.X two_samples) (Nb.y two_samples) 3 two_samples
    = (inr (model', h), nb') /\
    h !! "accuracy"%string = Some accs /\ length accs = 3%nat /\
    h !! "val_loss"%string = None.
Proof.
  assert (He : 0 < 3) by lia.
  split; [exact fresh_compiled|]. split; [exact fresh_metrics|].
  split; [exact two_samples_labelled|].
  split; [exact two_samples_nonempty|]. split; [exact He|].
  destruct (fit_history_keys fresh _ (Nb.X two_samples) (Nb.y two_samples) 3
              two_samples fresh_compiled fresh_metrics two_samples_labelled
              two_samples_nonempty He)
    as (model' & h & nb' & losses & Hrun & _ & _ & Hacc & _ & Hother).
  destruct (Hacc eq_refl) as (accs & Ha & Hla).
  exists model', h, nb', accs.
  split; [exact Hrun|]. split; [exact Ha|]. split; [lia|].
  apply Hother; discriminate.
Defined.

Lemma empty_dataset_raises_witness :
  0 < 4 /\ "relu"%string ∈ Keras.activation_names /\
  Nb.X no_samples = [] /\ Nb.y no_samples = [] /\
  exists nb',
    interactive_nn 4 "relu" (dec 1 100) 100 no_samples
    = (inl (ValueError
         "zero-size array to reduction operation minimum which has no identity"),
       nb') /\
    Nb.open_figures nb' = [0%nat] /\
    IPython.outputs (Nb.out nb') = [].
Proof.
  assert (Hn : 0 < 4) by lia.
  split; [exact Hn|]. split; [exact relu_known|].
  split; [reflexivity|]. split; [reflexivity|].
  destruct (empty_dataset_raises 4 "relu" (dec 1 100) 100 no_samples Hn
              relu_known eq_refl eq_refl)
    as (nb' & Hrun & _ & Hopen & Hout & _).
  exists nb'. split; [exact Hrun|].
  split; [rewrite Hopen; reflexivity|rewrite Hout; reflexivity].
Defined.

Lemma no_labels_mismatch :
  length (Nb.X no_labels) <> length (Nb.y no_labels).
Proof. discriminate. Defined.

Lemma mismatched_labels_raise_witness :
  0 < 4 /\ "relu"%string ∈ Keras.activation_names /\
  length (Nb.X no_labels) <> length (Nb.y no_labels) /\
  exists msg nb',
    interactive_nn 4 "relu" (dec 1 100) 100 no_labels
    = (inl (ValueError msg), nb') /\
    Nb.figures nb' = [].
Proof.
  assert (Hn : 0 < 4) by lia.
  split; [exact Hn|]. split; [exact relu_known|].
  split; [exact no_labels_mismatch|].
  destruct (mismatched_labels_raise 4 "relu" (dec 1 100) 100 no_labels Hn
              relu_known no_labels_mismatch)
    as (msg & nb' & Hrun & Hfigs & _).
  exists msg, nb'. split; [exact Hrun|]. rewrite Hfigs. reflexivity.
Defined.





Lemma grid_points_row_major_witness :
  [of_Z 3; of_Z 4] !! 1%nat = Some (of_Z 4) /\
  [of_Z 0; of_Z 1; of_Z 2] !! 2%nat = Some (of_Z 2) /\
  exists pts,
    Numpy.c_ (Numpy.ravel (fst (Numpy.meshgrid [of_Z 0; of_Z 1; of_Z 2]
                                  [of_Z 3; of_Z 4])))
             (Numpy.ravel (snd (Numpy.meshgrid [of_Z 0; of_Z 1; of_Z 2]
                                  [of_Z 3; of_Z 4]))) = inr pts /\
    pts !! 5%nat = Some (of_Z 2, of_Z 4).
Proof.
  assert (Hi : [of_Z 3; of_Z 4] !! 1%nat = Some (of_Z 4)) by reflexivity.
  assert (Hj : [of_Z 0; of_Z 1; of_Z 2] !! 2%nat = Some (of_Z 2)) by reflexivity.
  split; [exact Hi|]. split; [exact Hj|].
  destruct (grid_points_row_major _ _ _ _ _ _ Hi Hj) as (pts & Hpts & _ & Hlook).
  exists pts. split; [exact Hpts|exact Hlook].
Defined.

Lemma interactive_nn_keeps_witness :
  interactive_nn 4 "tanh" (dec 1 100) 100
    (before_run (store (Activation "tanh") no_samples))
  = (inl (ValueError
       "zero-size array to reduction operation minimum which has no identity"),
     stopped) /\
  kept (before_run (store (Activation "tanh") no_samples)) stopped.
Proof.
  split; [exact no_samples_run|].
  exact (interactive_nn_keeps _ _ _ _ _ _ _ no_samples_run).
Defined.

End BehaviourExamples.
